(** * go-tiled: a shallow embedding of the TMX decoder core

    The development follows the Go package [tiled]: the 32-bit [GlobalID]
    with its three orientation bits, the tile-layer payload decoder
    ([decodeLayerData]), the tile definition builder ([decodeTileDefs]),
    random access into a resolved layer ([GetTileDefAtIndex],
    [GetTileDefAtPosition]) and the two external-reference loaders
    ([Tileset.UnmarshalXML] and [Object.UnmarshalXML]) together with the
    package variable [ResourcePath] that [New] assigns.

    Conventions.
    - Go's [uint32] and [int] are integers of [Z] with the wrap-around
      written out ([uint32], [int]); [int] is the 64-bit two's complement
      integer of the usual targets.
    - A Go [string] and a [[]byte] are both a [string] of Rocq, that is a
      list of bytes.
    - A pointer [*T] is an [option T]; a slice is a [list].
    - A [float32] field is a [spec_float]; the only float operation of the
      package is the comparison with the constant [0].
    - A method that assigns through its receiver returns the receiver's
      final state next to the [error] it returns ([outcome]); a run-time
      panic (nil dereference, index out of range) is an outcome of its own.
    - What the package calls in Go's standard library and cannot be read
      off the package itself (markup decoding, file access, decompression,
      white-space trimming) is a field of the record [Lib]. *)

From Stdlib Require Import ZArith List String Ascii Bool Lia Sorted.
From Stdlib Require Import Floats.SpecFloat.
Import ListNotations.
#[local] Set Warnings "-register-all".
Open Scope Z_scope.

(** ** Machine integers *)

Definition uint32 (x : Z) : Z := x mod 2 ^ 32.

Definition int (x : Z) : Z := (x + 2 ^ 63) mod 2 ^ 64 - 2 ^ 63.

Definition float32 : Type := spec_float.

(** [f == 0] on a float: both zeros compare equal to the constant, a NaN
    does not. *)
Definition float32_is_zero (f : float32) : bool :=
  match f with
  | S754_zero _ => true
  | _ => false
  end.

(** ** Errors (errors.go) *)

Inductive sentinel : Type :=
| ErrUnsupportedEncoding
| ErrUnsupportedCompression
| ErrNoSuitableTileset
| ErrPropertyWrongType
| ErrPropertyFailedConversion
| ErrUnknownOrientation
| ErrUnknownRenderOrder
| ErrUnknownObjectAlignment
| ErrUnknownHAlignment
| ErrUnknownVAlignment
| ErrUnknownImageFormat
| ErrUnknownDrawOrder
| ErrUnknownPropertyType
| ErrDecodingTilemap
| ErrDecodingTileset
| ErrDecodingTile
| ErrDecodingTileLayer
| ErrDecodingTileLayerData
| ErrDecodingObjectLayer
| ErrDecodingTemplate
| ErrTileDefOutOfBounds.

(** The values printed after the wrapped error by [fmt.Errorf]. *)
Inductive detail : Type :=
| AtIndex (index : Z)
| AtRowCol (row col : Z)
| WithGlobalID (g : Z)
| WithText (s : string).

Inductive error : Type :=
| Sentinel (s : sentinel)
| LibError (msg : string)
| Errorf_w (e : error) (d : detail)
| Errorf_ww (e1 e2 : error)
| Errorf_msg_w (msg : string) (e : error).

Definition sentinel_eqb (a b : sentinel) : bool :=
  match a, b with
  | ErrUnsupportedEncoding, ErrUnsupportedEncoding
  | ErrUnsupportedCompression, ErrUnsupportedCompression
  | ErrNoSuitableTileset, ErrNoSuitableTileset
  | ErrPropertyWrongType, ErrPropertyWrongType
  | ErrPropertyFailedConversion, ErrPropertyFailedConversion
  | ErrUnknownOrientation, ErrUnknownOrientation
  | ErrUnknownRenderOrder, ErrUnknownRenderOrder
  | ErrUnknownObjectAlignment, ErrUnknownObjectAlignment
  | ErrUnknownHAlignment, ErrUnknownHAlignment
  | ErrUnknownVAlignment, ErrUnknownVAlignment
  | ErrUnknownImageFormat, ErrUnknownImageFormat
  | ErrUnknownDrawOrder, ErrUnknownDrawOrder
  | ErrUnknownPropertyType, ErrUnknownPropertyType
  | ErrDecodingTilemap, ErrDecodingTilemap
  | ErrDecodingTileset, ErrDecodingTileset
  | ErrDecodingTile, ErrDecodingTile
  | ErrDecodingTileLayer, ErrDecodingTileLayer
  | ErrDecodingTileLayerData, ErrDecodingTileLayerData
  | ErrDecodingObjectLayer, ErrDecodingObjectLayer
  | ErrDecodingTemplate, ErrDecodingTemplate
  | ErrTileDefOutOfBounds, ErrTileDefOutOfBounds => true
  | _, _ => false
  end.

(** [errors.Is(e, target)] for a target that is one of the package's
    sentinels: the chain of wrapped errors is searched. *)
Fixpoint errors_Is (e : error) (target : sentinel) : bool :=
  match e with
  | Sentinel s => sentinel_eqb s target
  | LibError _ => false
  | Errorf_w e' _ => errors_Is e' target
  | Errorf_ww e1 e2 => errors_Is e1 target || errors_Is e2 target
  | Errorf_msg_w _ e' => errors_Is e' target
  end.

(** A call into the standard library that returns [(value, error)]: either
    the value with a [nil] error, or the error. *)
Inductive result (A : Type) : Type :=
| Ok (a : A)
| Err (e : error).

Arguments Ok {A} a.
Arguments Err {A} e.

(** A call of one of the package's own functions: it returns, with a value
    (for a method with a pointer receiver, the receiver after the call) and
    the [error] of its signature ([None] is [nil]), or it panics. *)
Inductive outcome (A : Type) : Type :=
| Return (a : A) (err : option error)
| Panics.

Arguments Return {A} a err.
Arguments Panics {A}.

(** ** GlobalID *)

Definition GlobalID : Type := Z.
Definition TileID : Type := Z.

Definition TileFlippedHorizontally : Z := 0x80000000.
Definition TileFlippedVertically : Z := 0x40000000.
Definition TileFlippedDiagonally : Z := 0x20000000.
Definition TileFlipped : Z :=
  Z.lor (Z.lor TileFlippedHorizontally TileFlippedVertically)
        TileFlippedDiagonally.

Definition IsFlippedHorizontally (g : GlobalID) : bool :=
  negb (Z.land g TileFlippedHorizontally =? 0).

Definition IsFlippedVertically (g : GlobalID) : bool :=
  negb (Z.land g TileFlippedVertically =? 0).

Definition IsFlippedDiagonally (g : GlobalID) : bool :=
  negb (Z.land g TileFlippedDiagonally =? 0).

(** [g &^ TileFlipped]: the bits of [g] that are not orientation bits. *)
Definition BareID (g : GlobalID) : Z :=
  uint32 (Z.ldiff g TileFlipped).

(** ** Data model

    One module per Go struct, so that fields keep their Go names
    ([Tileset.FirstGlobalID ts] for [ts.FirstGlobalID]). *)

Module PropertyType.
Inductive t : Type := String | Int | Float | Bool | Color | File | Obj | Class.
End PropertyType.

Module Property.
Inductive t : Type := mk {
  Name : string;
  Type_ : PropertyType.t;
  CustomType : string;
  Value : string;
  InnerValue : string;
  Properties : option (list t)
}.
End Property.

Definition Properties : Type := list Property.t.

Module Data.
Record t : Type := mk {
  Encoding : string;
  Compression : string;
  RawBytes : string
}.
End Data.

Module ImageFormat.
Inductive t : Type := Png | Gif | Jpg | Bmp.
End ImageFormat.

Module Image.
Record t : Type := mk {
  Format : ImageFormat.t;
  Source : string;
  TransparentColor : string;
  Width : Z;
  Height : Z;
  Data : option Data.t
}.
End Image.

Module HAlignment.
Inductive t : Type := HLeft | HCenter | HRight | HJustify.
End HAlignment.

Module VAlignment.
Inductive t : Type := VTop | VCenter | VBottom.
End VAlignment.

Module Text.
Record t : Type := mk {
  FontFamily : string;
  PixelSize : Z;
  Wrap : bool;
  Bold : bool;
  Italic : bool;
  Underline : bool;
  Strikeout : bool;
  Kerning : bool;
  HAlign : HAlignment.t;
  VAlign : VAlignment.t;
  Value : string
}.
End Text.

Module Poly.
Record t : Type := mk { RawPoints : string }.
End Poly.

Module Object.
Record t : Type := mk {
  ObjectID : Z;
  Name : string;
  Type_ : string;
  X : float32;
  Y : float32;
  Width : float32;
  Height : float32;
  Rotation : float32;
  Visible : bool;
  Template : string;
  GlobalID : GlobalID;
  Properties : option Properties;
  Image : option Image.t;
  Polygon : option Poly.t;
  Polyline : option Poly.t;
  Text : option Text.t;
  Point : option unit;
  Ellipse : option unit
}.
End Object.

Definition Objects : Type := list Object.t.

Module DrawOrder.
Inductive t : Type := TopDown | Index.
End DrawOrder.

Module ObjectLayer.
Record t : Type := mk {
  ID : string;
  Name : string;
  Class : string;
  Color : string;
  X : float32;
  Y : float32;
  Width : Z;
  Height : Z;
  Opacity : float32;
  Visible : bool;
  OffsetX : Z;
  OffsetY : Z;
  ParallaxX : float32;
  ParallaxY : float32;
  DrawOrder : DrawOrder.t;
  Properties : option Properties;
  Objects : option Objects
}.
End ObjectLayer.

Module Frame.
Record t : Type := mk { TileID : TileID; DurationMsec : Z }.
End Frame.

Module TerrainType.
Record t : Type := mk {
  TopLeft : TileID;
  TopRight : TileID;
  BottomLeft : TileID;
  BottomRight : TileID
}.
End TerrainType.

Module Tile.
Record t : Type := mk {
  TileID : TileID;
  X : Z;
  Y : Z;
  Width : Z;
  Height : Z;
  Probability : float32;
  Type_ : string;
  RawTerrainType : string;
  Properties : option Properties;
  Image : option Image.t;
  Animation : option (list Frame.t);
  ObjectLayer : option ObjectLayer.t;
  TerrainType : option TerrainType.t
}.

Definition HasImage (tile : t) : bool :=
  match Image tile with Some _ => true | None => false end.
End Tile.

Definition Tiles : Type := list Tile.t.

Module Terrain.
Record t : Type := mk {
  Name : string;
  TileID : TileID;
  Properties : option Properties
}.
End Terrain.

Module WangColor.
Record t : Type := mk {
  Name : string;
  Class : string;
  Color : string;
  TileID : TileID;
  Properties : option Properties
}.
End WangColor.

Module WangTile.
Record t : Type := mk { Name : string; TileID : TileID; WangID : string }.
End WangTile.

Module WangSet.
Record t : Type := mk {
  Name : string;
  Class : string;
  TileID : TileID;
  Properties : option Properties;
  WangColors : option (list WangColor.t);
  WangTiles : option (list WangTile.t)
}.
End WangSet.

Module Transformations.
Record t : Type := mk {
  HFlip : bool;
  VFlip : bool;
  Rotate : bool;
  PreferUntransformed : bool
}.
End Transformations.

Module tileOffset.
Record t : Type := mk { X : Z; Y : Z }.
End tileOffset.

Module ObjectAlignment.
Inductive t : Type :=
| Unspecified | TopLeft | Top | TopRight | Left | Center | Right
| BottomLeft | Bottom | BottomRight.
End ObjectAlignment.

Module Tileset.
Record t : Type := mk {
  FirstGlobalID : GlobalID;
  Source : string;
  Name : string;
  Class : string;
  TileWidth : Z;
  TileHeight : Z;
  Spacing : Z;
  Margin : Z;
  TileCount : Z;
  Columns : Z;
  ObjectAlignment : ObjectAlignment.t;
  Properties : option Properties;
  TileOffset : option tileOffset.t;
  Image : option Image.t;
  TerrainTypes : option (list Terrain.t);
  WangSets : option (list WangSet.t);
  Tiles : option Tiles;
  Transformations : option Transformations.t
}.

Definition HasImage (ts : t) : bool :=
  match Image ts with Some _ => true | None => false end.

Definition HasTiles (ts : t) : bool :=
  match Tiles ts with Some _ => true | None => false end.

(** [t.FirstGlobalID = g] *)
Definition set_FirstGlobalID (g : GlobalID) (ts : t) : t :=
  mk g (Source ts) (Name ts) (Class ts) (TileWidth ts) (TileHeight ts)
     (Spacing ts) (Margin ts) (TileCount ts) (Columns ts) (ObjectAlignment ts)
     (Properties ts) (TileOffset ts) (Image ts) (TerrainTypes ts) (WangSets ts)
     (Tiles ts) (Transformations ts).

(** [t.Image = image] *)
Definition set_Image (image : option Image.t) (ts : t) : t :=
  mk (FirstGlobalID ts) (Source ts) (Name ts) (Class ts) (TileWidth ts)
     (TileHeight ts) (Spacing ts) (Margin ts) (TileCount ts) (Columns ts)
     (ObjectAlignment ts) (Properties ts) (TileOffset ts) image
     (TerrainTypes ts) (WangSets ts) (Tiles ts) (Transformations ts).
End Tileset.

Definition Tilesets : Type := list Tileset.t.

Module Template.
Record t : Type := mk {
  TileSet : option Tileset.t;
  Object : option Object.t
}.
End Template.

Module TileGlobalRef.
Record t : Type := mk { GlobalID : GlobalID }.
End TileGlobalRef.

Module TileDef.
Record t : Type := mk {
  Nil : bool;
  ID : TileID;
  GlobalID : GlobalID;
  TileSet : option Tileset.t;
  Tile : option Tile.t;
  HorizontallyFlipped : bool;
  VerticallyFlipped : bool;
  DiagonallyFlipped : bool
}.
End TileDef.

Module TileLayer.
Record t : Type := mk {
  ID : string;
  Name : string;
  Class : string;
  X : float32;
  Y : float32;
  Width : Z;
  Height : Z;
  Opacity : float32;
  Visible : bool;
  TintColor : string;
  OffsetX : Z;
  OffsetY : Z;
  ParallaxX : Z;
  ParallaxY : Z;
  Properties : option Properties;
  RawData : option Data.t;
  TileGlobalRefs : list TileGlobalRef.t;
  TileDefs : list TileDef.t
}.

(** [l.TileGlobalRefs = refs] *)
Definition set_TileGlobalRefs (refs : list TileGlobalRef.t) (l : t) : t :=
  mk (ID l) (Name l) (Class l) (X l) (Y l) (Width l) (Height l)
     (Opacity l) (Visible l) (TintColor l) (OffsetX l) (OffsetY l)
     (ParallaxX l) (ParallaxY l) (Properties l) (RawData l) refs
     (TileDefs l).

(** [l.TileDefs = defs] *)
Definition set_TileDefs (defs : list TileDef.t) (l : t) : t :=
  mk (ID l) (Name l) (Class l) (X l) (Y l) (Width l) (Height l)
     (Opacity l) (Visible l) (TintColor l) (OffsetX l) (OffsetY l)
     (ParallaxX l) (ParallaxY l) (Properties l) (RawData l)
     (TileGlobalRefs l) defs.
End TileLayer.

Definition TileLayers : Type := list TileLayer.t.

Module ImageLayer.
Record t : Type := mk {
  ID : string;
  Name : string;
  Class : string;
  X : Z;
  Y : Z;
  OffsetX : Z;
  OffsetY : Z;
  ParallaxX : Z;
  ParallaxY : Z;
  Opacity : float32;
  Visible : bool;
  TintColor : string;
  RepeatX : bool;
  RepeatY : bool;
  Properties : option Properties;
  Image : option Image.t
}.
End ImageLayer.

Module Group.
Inductive t : Type := mk {
  Id : string;
  Name : string;
  Class : string;
  Opacity : float32;
  Visible : bool;
  OffsetX : Z;
  OffsetY : Z;
  ParallaxX : Z;
  ParallaxY : Z;
  TintColor : string;
  Properties : option Properties;
  TileLayers : option TileLayers;
  ObjectLayers : option (list ObjectLayer.t);
  ImageLayers : option (list ImageLayer.t);
  Groups : option (list t)
}.
End Group.

Definition Groups : Type := list Group.t.

Module Orientation.
Inductive t : Type := Orthogonal | Isometric | Staggered | Hexagonal.
End Orientation.

Module RenderOrder.
Inductive t : Type := RightDown | RightUp | LeftDown | LeftUp.
End RenderOrder.

Module Map.
Record t : Type := mk {
  Version : string;
  TiledVersion : string;
  Class : string;
  Orientation : Orientation.t;
  RenderOrder : RenderOrder.t;
  Width : Z;
  Height : Z;
  TileWidth : Z;
  TileHeight : Z;
  HexSideLength : Z;
  StaggerAxis : string;
  StaggerIndex : string;
  BackgroundColor : string;
  NextLayerID : Z;
  NextObjectID : Z;
  Infinite : bool;
  Properties : option Properties;
  Tilesets : option Tilesets;
  TileLayers : option TileLayers;
  ObjectLayers : option (list ObjectLayer.t);
  ImageLayers : option (list ImageLayer.t);
  Groups : option Groups
}.
End Map.

(** ** The standard library, as the package sees it *)

(** An [io.Reader] is the bytes it delivers followed by the condition that
    ends it: [None] for [io.EOF], [Some e] for a read error. *)
Record Reader : Type := mkReader {
  delivered : string;
  ending : option error
}.

Definition bytes_NewReader (b : string) : Reader := mkReader b None.

(** [io.ReadAll]: everything up to [io.EOF], or the read error. *)
Definition io_ReadAll (r : Reader) : result string :=
  match ending r with
  | None => Ok (delivered r)
  | Some e => Err e
  end.

(** The package variable [ResourcePath]. *)
Record Globals : Type := mkGlobals { ResourcePath : string }.

Record Lib : Type := mkLib {
  (* strings.TrimSpace and bytes.TrimSpace *)
  strings_TrimSpace : string -> string;
  bytes_TrimSpace : string -> string;
  (* base64.NewDecoder(base64.StdEncoding, bytes.NewReader(b)) *)
  base64_NewDecoder : string -> Reader;
  zlib_NewReader : Reader -> result Reader;
  gzip_NewReader : Reader -> result Reader;
  zstd_NewReader : Reader -> result Reader;
  filepath_Join : string -> string -> string;
  filepath_Dir : string -> string;
  os_Open : string -> result Reader;
  (* xml.NewDecoder(f).Decode(&tmp) into a tileset record that already holds
     the referencing element's fields; the decoder runs the package's
     UnmarshalXML methods on nested elements, which read [ResourcePath] *)
  xml_Decode_Tileset : Globals -> Reader -> Tileset.t -> result Tileset.t;
  (* xml.NewDecoder(f).Decode(&template) into a zero Template *)
  xml_Decode_Template : Globals -> Reader -> result Template.t;
  (* xml.Unmarshal(buf, &m) into a zero Map *)
  xml_Unmarshal_Map : Globals -> string -> Map.t * option error
}.

Definition io_ErrUnexpectedEOF : error := LibError "unexpected EOF".
Definition strconv_ErrSyntax : error := LibError "invalid syntax".
Definition strconv_ErrRange : error := LibError "value out of range".

(** [strings.Split(s, sep)] for a separator of one byte. *)
Fixpoint strings_Split (s : string) (sep : ascii) : list string :=
  match s with
  | EmptyString => [EmptyString]
  | String c rest =>
      let r := strings_Split rest sep in
      if Ascii.eqb c sep then EmptyString :: r
      else match r with
           | [] => [String c EmptyString]
           | hd :: tl => String c hd :: tl
           end
  end.

Definition is_digit (c : ascii) : bool :=
  let n := Z.of_nat (nat_of_ascii c) in (48 <=? n) && (n <=? 57).

Definition digit_value (c : ascii) : Z := Z.of_nat (nat_of_ascii c) - 48.

(** The digit loop of [strconv.ParseUint(s, 10, bitSize)], [n] being the
    value read so far. *)
Fixpoint ParseUint_loop (s : string) (maxVal n : Z) : result Z :=
  match s with
  | EmptyString => Ok n
  | String c rest =>
      if is_digit c then
        let n1 := n * 10 + digit_value c in
        if n1 >? maxVal then Err strconv_ErrRange
        else ParseUint_loop rest maxVal n1
      else Err strconv_ErrSyntax
  end.

(** [strconv.ParseUint(s, 10, bitSize)] for a bit size below 64: no sign, no
    prefix, no underscore; the empty string is a syntax error. *)
Definition strconv_ParseUint (s : string) (bitSize : Z) : result Z :=
  match s with
  | EmptyString => Err strconv_ErrSyntax
  | _ => ParseUint_loop s (2 ^ bitSize - 1) 0
  end.

Definition byte_value (c : ascii) : Z := Z.of_nat (nat_of_ascii c).

(** [binary.LittleEndian.Uint32] of four bytes. *)
Definition LittleEndian_Uint32 (a b c d : ascii) : Z :=
  byte_value a + 2 ^ 8 * byte_value b + 2 ^ 16 * byte_value c
  + 2 ^ 24 * byte_value d.

(** The loop [for { err := binary.Read(r, binary.LittleEndian, &nextInt) ... }]
    of [decodeLayerData] over what the reader has left: the integers read
    before the loop ends, and [None] when it ends on [io.EOF] at a boundary
    ([break]) or the error it returns. *)
Fixpoint binary_Read_loop (left : string) (last : option error)
  : list Z * option error :=
  match left with
  | EmptyString => ([], last)
  | String a (String b (String c (String d rest))) =>
      let (ns, e) := binary_Read_loop rest last in
      (LittleEndian_Uint32 a b c d :: ns, e)
  | _ =>
      ([], Some match last with
                | None => io_ErrUnexpectedEOF
                | Some e => e
                end)
  end.

(** ** GlobalID.TileID and Tiles.WithID (tileset.go) *)

Definition GlobalID_TileID (g : GlobalID) (t : Tileset.t) : TileID :=
  uint32 (BareID g - uint32 (Tileset.FirstGlobalID t)).

Fixpoint Tiles_WithID (tl : Tiles) (id : TileID) : option Tile.t :=
  match tl with
  | [] => None
  | t :: rest => if Tile.TileID t =? id then Some t else Tiles_WithID rest id
  end.

(** ** Random access into a resolved layer *)

Definition GetTileDefAtIndex (l : TileLayer.t) (index : Z)
  : outcome (option TileDef.t) :=
  if (index <? 0) || (index >=? int (TileLayer.Width l * TileLayer.Height l))
  then Return None
         (Some (Errorf_w (Sentinel ErrTileDefOutOfBounds) (AtIndex index)))
  else match nth_error (TileLayer.TileDefs l) (Z.to_nat index) with
       | Some td => Return (Some td) None
       | None => Panics
       end.

Definition GetTileDefAtPosition (l : TileLayer.t) (row col : Z)
  : outcome (option TileDef.t) :=
  match GetTileDefAtIndex l (int (int (row * int (TileLayer.Width l)) + col)) with
  | Panics => Panics
  | Return _ (Some _) =>
      Return None
        (Some (Errorf_w (Sentinel ErrTileDefOutOfBounds) (AtRowCol row col)))
  | Return td None => Return td None
  end.

(** ** The payload decoder *)

(** [l.TileGlobalRefs = append(l.TileGlobalRefs, &TileGlobalRef{GlobalID: GlobalID(n)})] *)
Definition appendTileGlobalRef (l : TileLayer.t) (n : Z) : TileLayer.t :=
  TileLayer.set_TileGlobalRefs
    (TileLayer.TileGlobalRefs l ++ [TileGlobalRef.mk n]) l.

(** The loop of the ["csv"] case over the tokens not yet visited. *)
Fixpoint decode_csv (L : Lib) (tokens : list string) (l : TileLayer.t)
  : outcome TileLayer.t :=
  match tokens with
  | [] => Return l None
  | s :: rest =>
      match strconv_ParseUint (strings_TrimSpace L s) 32 with
      | Err e => Return l (Some e)
      | Ok nextInt => decode_csv L rest (appendTileGlobalRef l (uint32 nextInt))
      end
  end.

(** The tail of the ["base64"] case once the reader [r] is set up. *)
Definition decode_binary (r : Reader) (l : TileLayer.t) : outcome TileLayer.t :=
  let (ns, e) := binary_Read_loop (delivered r) (ending r) in
  Return (fold_left appendTileGlobalRef ns l) e.

Definition decodeLayerData (L : Lib) (l : TileLayer.t) : outcome TileLayer.t :=
  match TileLayer.RawData l with
  | None => Panics
  | Some RawData =>
    if (Data.Encoding RawData =? "base64")%string then
      let b := base64_NewDecoder L (bytes_TrimSpace L (Data.RawBytes RawData)) in
      if (Data.Compression RawData =? "zlib")%string then
        match zlib_NewReader L b with
        | Err e => Return l (Some e)
        | Ok r => decode_binary r l
        end
      else if (Data.Compression RawData =? "gzip")%string then
        match gzip_NewReader L b with
        | Err e => Return l (Some e)
        | Ok r => decode_binary r l
        end
      else if (Data.Compression RawData =? "zstd")%string then
        match zstd_NewReader L b with
        | Err e => Return l (Some e)
        | Ok dd =>
            match io_ReadAll dd with
            | Err e => Return l (Some e)
            | Ok dc => decode_binary (bytes_NewReader dc) l
            end
        end
      else if (Data.Compression RawData =? "")%string then
        decode_binary b l
      else
        Return l (Some (Errorf_w (Sentinel ErrUnsupportedCompression)
                                 (WithText (Data.Compression RawData))))
    else if (Data.Encoding RawData =? "csv")%string then
      decode_csv L (strings_Split (Data.RawBytes RawData) ",") l
    else if (Data.Encoding RawData =? "")%string then
      Return l None
    else
      Return l (Some (Errorf_w (Sentinel ErrUnsupportedEncoding)
                               (WithText (Data.Encoding RawData))))
  end.

(** [TileLayer.UnmarshalXML]; [decoded] is what [xd.DecodeElement(&tmp, &start)]
    produced. *)
Definition TileLayer_UnmarshalXML (L : Lib) (decoded : result TileLayer.t)
    (l : TileLayer.t) : outcome TileLayer.t :=
  match decoded with
  | Err e => Return l (Some (Errorf_ww (Sentinel ErrDecodingTileLayer) e))
  | Ok tmp =>
      match decodeLayerData L tmp with
      | Panics => Panics
      | Return l' (Some e) =>
          Return l' (Some (Errorf_ww (Sentinel ErrDecodingTileLayerData) e))
      | Return l' None => Return l' None
      end
  end.

(** ** The tile definition builder (map.go) *)

(** The inner loop [for _, i := range *tss] of [decodeTileDefs]; [ts] is
    the candidate held when the loop reaches [tss]. *)
Fixpoint findTileset (bid : Z) (tss : Tilesets) (ts : option Tileset.t)
  : option Tileset.t :=
  match tss with
  | [] => ts
  | t :: rest =>
      if bid <? uint32 (Tileset.FirstGlobalID t) then ts
      else findTileset bid rest (Some t)
  end.

(** [&TileDef{Nil: true}] *)
Definition nilTileDef : TileDef.t :=
  TileDef.mk true 0 0 None None false false false.

(** One iteration of the outer loop of [decodeTileDefs]: the TileDef it
    appends, or the error it returns. *)
Definition decodeTileDef (tss : option Tilesets) (tgr : TileGlobalRef.t)
  : outcome (option TileDef.t) :=
  let g := TileGlobalRef.GlobalID tgr in
  let bid := BareID g in
  if bid =? 0 then Return (Some nilTileDef) None
  else
    match tss with
    | None => Panics
    | Some tilesets =>
        match findTileset bid tilesets None with
        | None =>
            Return None
              (Some (Errorf_w (Sentinel ErrNoSuitableTileset) (WithGlobalID g)))
        | Some ts =>
            let id := GlobalID_TileID g ts in
            let tile :=
              match Tileset.Tiles ts with
              | Some tiles => Tiles_WithID tiles id
              | None => None
              end in
            Return (Some (TileDef.mk false id g (Some ts) tile
                            (IsFlippedHorizontally g)
                            (IsFlippedVertically g)
                            (IsFlippedDiagonally g))) None
        end
    end.

(** The outer loop over the references not yet visited, then the release of
    [l.TileGlobalRefs]. *)
Fixpoint decodeTileDefs_loop (tss : option Tilesets)
    (refs : list TileGlobalRef.t) (l : TileLayer.t) : outcome TileLayer.t :=
  match refs with
  | [] => Return (TileLayer.set_TileGlobalRefs [] l) None
  | tgr :: rest =>
      match decodeTileDef tss tgr with
      | Panics => Panics
      | Return (Some td) None =>
          decodeTileDefs_loop tss rest
            (TileLayer.set_TileDefs (TileLayer.TileDefs l ++ [td]) l)
      | Return _ err => Return l err
      end
  end.

Definition decodeTileDefs (l : TileLayer.t) (tss : option Tilesets)
  : outcome TileLayer.t :=
  decodeTileDefs_loop tss (TileLayer.TileGlobalRefs l) l.

(** ** External references *)

(** The loop of [Tileset.UnmarshalXML] that looks for the first tile with
    an image. *)
Fixpoint firstTileImage (tiles : Tiles) : option Image.t :=
  match tiles with
  | [] => None
  | tile :: rest =>
      if negb (Tile.HasImage tile) then firstTileImage rest
      else Tile.Image tile
  end.

Definition missingSourceImage : error :=
  Errorf_w (Sentinel ErrDecodingTileset)
           (WithText "tileset or tiles missing source image").

(** [Tileset.UnmarshalXML]; [decoded] is what [xd.DecodeElement(&tmp, &start)]
    produced and [G] holds [ResourcePath] at the time of the call. *)
Definition Tileset_UnmarshalXML (L : Lib) (G : Globals)
    (decoded : result Tileset.t) (t : Tileset.t) : outcome Tileset.t :=
  match decoded with
  | Err e => Return t (Some (Errorf_ww (Sentinel ErrDecodingTileset) e))
  | Ok tmp =>
      let firstGlobalID := Tileset.FirstGlobalID tmp in
      let t := tmp in
      if (Tileset.Source tmp =? "")%string then Return t None
      else
        let path := filepath_Join L (ResourcePath G) (Tileset.Source tmp) in
        match os_Open L path with
        | Err e => Return t (Some (Errorf_msg_w "failed to open Tileset file" e))
        | Ok f =>
            match xml_Decode_Tileset L G f tmp with
            | Err e =>
                Return t (Some (Errorf_ww (Sentinel ErrDecodingTileset) e))
            | Ok tmp =>
                let t := tmp in
                let t := if negb (firstGlobalID =? 0)
                         then Tileset.set_FirstGlobalID firstGlobalID t
                         else t in
                if Tileset.HasImage t then Return t None
                else
                  match Tileset.Tiles t with
                  | None => Return t (Some missingSourceImage)
                  | Some tiles =>
                      match firstTileImage tiles with
                      | None => Return t (Some missingSourceImage)
                      | Some image =>
                          Return (Tileset.set_Image (Some image) t) None
                      end
                  end
            end
        end
  end.

Definition is_nil {A : Type} (p : option A) : bool :=
  match p with
  | None => true
  | Some _ => false
  end.

(** The chain of assignments that closes [Object.UnmarshalXML]: [o] is the
    receiver, [tmp] the record every right-hand side reads. *)
Definition mergeObject (o tmp : Object.t) : Object.t :=
  let Name := if (Object.Name o =? "")%string
              then Object.Name tmp else Object.Name o in
  let Type_ := if (Object.Type_ o =? "")%string
               then Object.Type_ tmp else Object.Type_ o in
  let X := if float32_is_zero (Object.X o)
           then Object.X tmp else Object.X o in
  let Y := if float32_is_zero (Object.Y o)
           then Object.Y tmp else Object.Y o in
  let Width := if float32_is_zero (Object.Width o)
               then Object.Width tmp else Object.Width o in
  let Height := if float32_is_zero (Object.Height o)
                then Object.Height tmp else Object.Height o in
  let Rotation := if float32_is_zero (Object.Rotation o)
                  then Object.Rotation tmp else Object.Rotation o in
  let Visible := if negb (Object.Visible o)
                 then Object.Visible tmp else Object.Visible o in
  let GlobalID := if Object.GlobalID o =? 0
                  then Object.GlobalID tmp else Object.GlobalID o in
  let Properties := if is_nil (Object.Properties o)
                    then Object.Properties tmp else Object.Properties o in
  let Image := if is_nil (Object.Image o)
               then Object.Image tmp else Object.Image o in
  let Polygon := if is_nil (Object.Polygon o)
                 then Object.Polygon tmp else Object.Polygon o in
  (* the source tests [o.Polygon] a second time, after its assignment *)
  let Polyline := if is_nil Polygon
                  then Object.Polyline tmp else Object.Polyline o in
  let Text := if is_nil (Object.Text o)
              then Object.Text tmp else Object.Text o in
  let Ellipse := if is_nil (Object.Ellipse o)
                 then Object.Ellipse tmp else Object.Ellipse o in
  let Point := if is_nil (Object.Point o)
               then Object.Point tmp else Object.Point o in
  Object.mk (Object.ObjectID o) Name Type_ X Y Width Height Rotation Visible
            (Object.Template o) GlobalID Properties Image Polygon Polyline
            Text Point Ellipse.

(** [Object.UnmarshalXML]; [decoded] is what [xd.DecodeElement(&tmp, &start)]
    produced.  The loaded [template] is decoded and then not read: the
    assignments take their values from [tmp]. *)
Definition Object_UnmarshalXML (L : Lib) (G : Globals)
    (decoded : result Object.t) (o : Object.t) : outcome Object.t :=
  match decoded with
  | Err e => Return o (Some (Errorf_ww (Sentinel ErrDecodingTileLayer) e))
  | Ok tmp =>
      let o := tmp in
      if (Object.Template tmp =? "")%string then Return o None
      else
        let path := filepath_Join L (ResourcePath G) (Object.Template tmp) in
        match os_Open L path with
        | Err e => Return o (Some (Errorf_msg_w "failed to open template file" e))
        | Ok f =>
            match xml_Decode_Template L G f with
            | Err e =>
                Return o (Some (Errorf_ww (Sentinel ErrDecodingTemplate) e))
            | Ok template => Return (mergeObject o tmp) None
            end
        end
  end.

(** [New]: the returned pair and the package variable after the call. *)
Definition New (L : Lib) (path : string) (G : Globals)
  : (option Map.t * option error) * Globals :=
  if (path =? "")%string
  then ((None, Some (LibError "file path is empty")), G)
  else
    match os_Open L path with
    | Err e => ((None, Some (Errorf_msg_w "failed to open map file" e)), G)
    | Ok f =>
        match io_ReadAll f with
        | Err e => ((None, Some (Errorf_msg_w "failed to read map file" e)), G)
        | Ok buf =>
            let G := mkGlobals (filepath_Dir L path) in
            match xml_Unmarshal_Map L G buf with
            | (_, Some e) =>
                ((None, Some (Errorf_msg_w "failed to parse map file" e)), G)
            | (m, None) => ((Some m, None), G)
            end
        end
  end.

(** ** Specification vocabulary *)

(** [flagH|flagV|flagD|n] with each flag present or not. *)
Definition withFlags (h v d : bool) (n : Z) : GlobalID :=
  Z.lor (Z.lor (Z.lor (if h then TileFlippedHorizontally else 0)
                      (if v then TileFlippedVertically else 0))
               (if d then TileFlippedDiagonally else 0))
        n.

(** A tileset record as the decoder fills it: [FirstGlobalID] is a 32-bit
    unsigned value. *)
Definition wellFormedTileset (t : Tileset.t) : Prop :=
  0 <= Tileset.FirstGlobalID t < 2 ^ 32.

(** The order [sort.Sort(byFirstGlobalID(...))] establishes. *)
Definition sortedByFirstGlobalID (tss : Tilesets) : Prop :=
  StronglySorted
    (fun a b => Tileset.FirstGlobalID a <= Tileset.FirstGlobalID b) tss.

(** The last element of a slice, [None] for an empty one. *)
Definition lastOf {A : Type} (l : list A) : option A :=
  last (map Some l) None.

(** The value of a run of decimal digits read after the value [n]. *)
Definition digits_from (l : list ascii) (n : Z) : Z :=
  fold_left (fun n c => n * 10 + digit_value c) l n.

(** The value of a string of decimal digits. *)
Definition decimal_value (s : string) : Z :=
  digits_from (list_ascii_of_string s) 0.

Definition all_digits (s : string) : bool :=
  forallb is_digit (list_ascii_of_string s).

(** A token of a csv payload is numeric when, white space trimmed, it is a
    non-empty string of decimal digits whose value fits 32 bits. *)
Definition numericToken (L : Lib) (tok : string) : bool :=
  let s := strings_TrimSpace L tok in
  negb (s =? "")%string && all_digits s && (decimal_value s <? 2 ^ 32).

Definition tokenValue (L : Lib) (tok : string) : Z :=
  decimal_value (strings_TrimSpace L tok).

(** The reference a numeric token stands for. *)
Definition refOfToken (L : Lib) (tok : string) : TileGlobalRef.t :=
  TileGlobalRef.mk (tokenValue L tok).

(** ** A Unix model of [path/filepath] and a small file system

    Used to evaluate the decoder on concrete inputs. *)

Module Unix.

Definition join_with_slash (comps : list string) : string :=
  match comps with
  | [] => EmptyString
  | c :: rest => fold_left (fun acc x => (acc ++ "/" ++ x)%string) rest c
  end.

(** One step of [Clean] over the components kept so far, last first. *)
Definition clean_step (rooted : bool) (kept : list string) (c : string)
  : list string :=
  if (c =? "")%string || (c =? ".")%string then kept
  else if (c =? "..")%string then
    match kept with
    | top :: below =>
        if (top =? "..")%string then c :: kept else below
    | [] => if rooted then [] else [c]
    end
  else c :: kept.

Definition is_rooted (path : string) : bool :=
  match path with
  | String c _ => Ascii.eqb c "/"
  | EmptyString => false
  end.

(** [filepath.Clean] *)
Definition Clean (path : string) : string :=
  if (path =? "")%string then "."%string
  else
    let rooted := is_rooted path in
    let kept := rev (fold_left (clean_step rooted) (strings_Split path "/") []) in
    match kept with
    | [] => if rooted then "/"%string else "."%string
    | _ => ((if rooted then "/" else "") ++ join_with_slash kept)%string
    end.

(** [filepath.Join] of two elements *)
Definition Join (a b : string) : string :=
  if negb (a =? "")%string then Clean (a ++ "/" ++ b)
  else if negb (b =? "")%string then Clean b
  else EmptyString.

(** [filepath.Dir]: [Clean] of the path up to its last separator. *)
Definition Dir (path : string) : string :=
  let comps := strings_Split path "/" in
  Clean (String.concat EmptyString
         (map (fun c => (c ++ "/")%string) (removelast comps))).

Definition is_space (c : ascii) : bool :=
  let n := Z.of_nat (nat_of_ascii c) in
  (n =? 32) || ((9 <=? n) && (n <=? 13)).

Fixpoint trim_left (s : string) : string :=
  match s with
  | String c rest => if is_space c then trim_left rest else s
  | EmptyString => EmptyString
  end.

Definition reverse (s : string) : string :=
  string_of_list_ascii (rev (list_ascii_of_string s)).

(** [strings.TrimSpace] on text whose white space is ASCII. *)
Definition TrimSpace (s : string) : string :=
  reverse (trim_left (reverse (trim_left s))).

Fixpoint lookup {A : Type} (k : string) (table : list (string * A))
  : option A :=
  match table with
  | [] => None
  | (k', v) :: rest => if (k' =? k)%string then Some v else lookup k rest
  end.

Definition ErrNotExist : error := LibError "no such file or directory".
Definition ErrCorrupt : error := LibError "corrupt input".
Definition ErrMarkup : error := LibError "expected element type".

(** A world with the files [files] (path and content).  A content parses
    as a tileset document when [tilesets] lists it, with the assignments
    the document makes to the record it is decoded into, and as a template
    when [templates] lists it; no payload of this world is valid base64. *)
Definition lib (files : list (string * string))
    (tilesets : list (string * (Tileset.t -> Tileset.t)))
    (templates : list (string * Template.t))
    (maps : list (string * Map.t)) : Lib :=
  {| strings_TrimSpace := TrimSpace;
     bytes_TrimSpace := TrimSpace;
     base64_NewDecoder := fun _ => mkReader EmptyString (Some ErrCorrupt);
     zlib_NewReader := fun _ => Err ErrCorrupt;
     gzip_NewReader := fun _ => Err ErrCorrupt;
     zstd_NewReader := fun _ => Err ErrCorrupt;
     filepath_Join := Join;
     filepath_Dir := Dir;
     os_Open := fun path =>
       match lookup path files with
       | Some content => Ok (bytes_NewReader content)
       | None => Err ErrNotExist
       end;
     xml_Decode_Tileset := fun _ f tmp =>
       match lookup (delivered f) tilesets with
       | Some doc => Ok (doc tmp)
       | None => Err ErrMarkup
       end;
     xml_Decode_Template := fun _ f =>
       match lookup (delivered f) templates with
       | Some doc => Ok doc
       | None => Err ErrMarkup
       end;
     xml_Unmarshal_Map := fun _ buf =>
       match lookup buf maps with
       | Some m => (m, None)
       | None =>
           (Map.mk "" "" "" Orientation.Orthogonal RenderOrder.RightDown
                   0 0 0 0 0 "" "" "" 0 0 false None None None None None None,
            Some ErrMarkup)
       end |}.

End Unix.

(** ** Sample records *)

Module Sample.

Definition image (source : string) : Image.t :=
  Image.mk ImageFormat.Png source "" 0 0 None.

(** [<tileset firstgid=... source=... name=...>], with or without an
    [<image>] child. *)
Definition tileset (firstgid : Z) (source name : string)
    (img : option Image.t) : Tileset.t :=
  Tileset.mk firstgid source name "" 0 0 0 0 0 0 ObjectAlignment.Unspecified
             None None img None None None None.

Definition zero : float32 := S754_zero false.

(** [<object name=... template=...>] *)
Definition object (name template : string) : Object.t :=
  Object.mk 0 name "" zero zero zero zero zero false template 0
            None None None None None None None.

(** [<layer width=... height=...>] with a [<data>] child. *)
Definition layer (name : string) (width height : Z) (data : option Data.t)
  : TileLayer.t :=
  TileLayer.mk "" name "" zero zero width height zero false "" 0 0 0 0
               None data [] [].

Definition csv (payload : string) : option Data.t :=
  Some (Data.mk "csv" "" payload).

(** Tilesets starting at 1, 10 and 50, in this order. *)
Definition tilesets : Tilesets :=
  [tileset 1 "" "first" (Some (image "a.png"));
   tileset 10 "" "second" (Some (image "b.png"));
   tileset 50 "" "third" (Some (image "c.png"))].

(** The files of the sample world: a tileset document that declares
    [firstgid="1"] and an object template that declares [name="Default"]. *)
Definition files : list (string * string) :=
  [("maps/tiles.tsx", "tiles"); ("maps/default.tx", "default")]%string.

(** [<tileset firstgid="1" name="tiles"><image source="tiles.png"/></tileset>]:
    the attributes and children present are assigned, the other fields of
    the record keep what they held. *)
Definition tilesDocument (tmp : Tileset.t) : Tileset.t :=
  Tileset.mk 1 (Tileset.Source tmp) "tiles" (Tileset.Class tmp)
             (Tileset.TileWidth tmp) (Tileset.TileHeight tmp)
             (Tileset.Spacing tmp) (Tileset.Margin tmp)
             (Tileset.TileCount tmp) (Tileset.Columns tmp)
             (Tileset.ObjectAlignment tmp) (Tileset.Properties tmp)
             (Tileset.TileOffset tmp) (Some (image "tiles.png"))
             (Tileset.TerrainTypes tmp) (Tileset.WangSets tmp)
             (Tileset.Tiles tmp) (Tileset.Transformations tmp).

Definition tilesetDocs : list (string * (Tileset.t -> Tileset.t)) :=
  [("tiles"%string, tilesDocument)].

Definition templateDocs : list (string * Template.t) :=
  [("default"%string, Template.mk None (Some (object "Default" "")))].

Definition world : Lib := Unix.lib files tilesetDocs templateDocs [].

(** What decoding and resolving a layer leaves in it, the layer itself if
    a step panics. *)
Definition resolved (l : TileLayer.t) (tss : Tilesets) : TileLayer.t :=
  match decodeLayerData world l with
  | Return l1 None =>
      match decodeTileDefs l1 (Some tss) with
      | Return l2 None => l2
      | _ => l1
      end
  | _ => l
  end.

(** What [decodeLayerData] leaves in a layer. *)
Definition decoded (l : TileLayer.t) : TileLayer.t :=
  match decodeLayerData world l with
  | Return l1 _ => l1
  | Panics => l
  end.

(** A layer with three decoded references, the second made of the
    horizontal flip bit alone. *)
Definition pending : TileLayer.t :=
  decoded (layer "pending" 3 1 (csv "1, 2147483648, 12")).

(** A 4 by 3 layer with its twelve references resolved. *)
Definition grid : TileLayer.t :=
  resolved (layer "grid" 4 3 (csv "1,2,3,4,5,6,7,8,9,10,11,12")) tilesets.

(** A 2 by 2 layer whose payload holds two references only. *)
Definition short : TileLayer.t :=
  resolved (layer "short" 2 2 (csv "1,2")) tilesets.

(** A 2 by 2 layer without encoding, its tiles left to [<tile>] children. *)
Definition children : TileLayer.t :=
  resolved (layer "children" 2 2 (Some (Data.mk "" "" ""))) tilesets.

End Sample.

(** ** Further functions of the package *)

(** The loop shared by the [WithName] methods of [TileLayers], [Tilesets],
    [Properties], [Objects], [ObjectLayers], [ImageLayers] and [Groups]:
    the first element whose name is [name], [nil] if there is none. *)
Fixpoint WithName {A : Type} (Name : A -> string) (l : list A) (name : string)
  : option A :=
  match l with
  | [] => None
  | t :: rest =>
      if (Name t =? name)%string then Some t else WithName Name rest name
  end.

Definition TileLayers_WithName : TileLayers -> string -> option TileLayer.t :=
  WithName TileLayer.Name.

Definition Tilesets_WithName : Tilesets -> string -> option Tileset.t :=
  WithName Tileset.Name.

Definition Properties_WithName : Properties -> string -> option Property.t :=
  WithName Property.Name.

Definition Objects_WithName : Objects -> string -> option Object.t :=
  WithName Object.Name.

Definition ObjectLayers_WithName
  : list ObjectLayer.t -> string -> option ObjectLayer.t :=
  WithName ObjectLayer.Name.

Definition ImageLayers_WithName
  : list ImageLayer.t -> string -> option ImageLayer.t :=
  WithName ImageLayer.Name.

Definition Groups_WithName : Groups -> string -> option Group.t :=
  WithName Group.Name.

(** [strconv.ParseInt(s, 10, bitSize)]: an optional sign, then the digits
    read by [ParseUint]; the magnitude is checked against [2^(bitSize-1)]. *)
Definition strconv_ParseInt (s : string) (bitSize : Z) : result Z :=
  match s with
  | EmptyString => Err strconv_ErrSyntax
  | String c rest =>
      let neg := Ascii.eqb c "-" in
      let digits := if Ascii.eqb c "+" || neg then rest else s in
      let cutoff := 2 ^ (bitSize - 1) in
      match strconv_ParseUint digits bitSize with
      | Err e => Err e
      | Ok un =>
          if negb neg && (un >=? cutoff) then Err strconv_ErrRange
          else if neg && (un >? cutoff) then Err strconv_ErrRange
          else Ok (if neg then - un else un)
      end
  end.

Module Point.
Record t : Type := mk { X : Z; Y : Z }.
End Point.

(** The error [Poly.Points] makes for an item that is not two fields; the
    count and the item printed into its message are left out. *)
Definition unexpectedCoordinates : error :=
  LibError "unexpected number of coordinates in point destructure".

(** The loop of [Poly.Points] over the items not yet visited, [pts] being
    the named result so far. *)
Fixpoint Points_loop (items : list string) (pts : list Point.t)
  : list Point.t * option error :=
  match items with
  | [] => (pts, None)
  | rpt :: rest =>
      match strings_Split rpt "," with
      | [x; y] =>
          match strconv_ParseInt x 32 with
          | Err e => (pts, Some e)
          | Ok x =>
              match strconv_ParseInt y 32 with
              | Err e => (pts, Some e)
              | Ok y => Points_loop rest (pts ++ [Point.mk (int x) (int y)])
              end
          end
      | _ => (pts, Some unexpectedCoordinates)
      end
  end.

(** [Poly.Points]: the named results [(pts, err)]. *)
Definition Poly_Points (p : Poly.t) : list Point.t * option error :=
  Points_loop (strings_Split (Poly.RawPoints p) " ") [].

(** [t.TerrainType = terrain] *)
Definition Tile_set_TerrainType (terrain : option TerrainType.t) (t : Tile.t)
  : Tile.t :=
  Tile.mk (Tile.TileID t) (Tile.X t) (Tile.Y t) (Tile.Width t) (Tile.Height t)
          (Tile.Probability t) (Tile.Type_ t) (Tile.RawTerrainType t)
          (Tile.Properties t) (Tile.Image t) (Tile.Animation t)
          (Tile.ObjectLayer t) terrain.

(** The error [Tile.UnmarshalXML] makes for a terrain attribute that is
    not four fields; the values printed into its message are left out. *)
Definition unexpectedTerrain : error :=
  LibError "unexpected terrain type specifier".

(** [strconv.ParseInt(strings.TrimSpace(types[i]), 10, 32)] and the
    conversion [TileID(id)] of the loop of [Tile.UnmarshalXML]. *)
Definition parseTerrainField (L : Lib) (s : string) : result TileID :=
  match strconv_ParseInt (strings_TrimSpace L s) 32 with
  | Err e => Err e
  | Ok id => Ok (uint32 id)
  end.

(** [Tile.UnmarshalXML]; [decoded] is what [xd.DecodeElement(&tmp, &start)]
    produced.  The loop over the four fields is written out. *)
Definition Tile_UnmarshalXML (L : Lib) (decoded : result Tile.t) (t : Tile.t)
  : outcome Tile.t :=
  match decoded with
  | Err e => Return t (Some (Errorf_ww (Sentinel ErrDecodingTile) e))
  | Ok tmp =>
      let t := tmp in
      if (Tile.RawTerrainType t =? "")%string
      then Return (Tile_set_TerrainType (Some (TerrainType.mk 0 0 0 0)) t) None
      else
        match strings_Split (Tile.RawTerrainType t) "," with
        | [s0; s1; s2; s3] =>
            match parseTerrainField L s0 with
            | Err e => Return t (Some e)
            | Ok tid0 =>
            match parseTerrainField L s1 with
            | Err e => Return t (Some e)
            | Ok tid1 =>
            match parseTerrainField L s2 with
            | Err e => Return t (Some e)
            | Ok tid2 =>
            match parseTerrainField L s3 with
            | Err e => Return t (Some e)
            | Ok tid3 =>
                Return (Tile_set_TerrainType
                          (Some (TerrainType.mk tid0 tid1 tid2 tid3)) t) None
            end end end end
        | _ => Return t (Some unexpectedTerrain)
        end
  end.

(** [Tile.HasTerrainType] *)
Definition Tile_HasTerrainType (tile : Tile.t) : bool :=
  match Tile.TerrainType tile with Some _ => true | None => false end.

(** The loop [for _, x := range xs { if err := f(x); err != nil { return err } }]
    over a slice of pointers: [f] assigns through each pointer in turn and
    the first error ends the loop. *)
Definition forEach {A : Type} (f : A -> outcome A)
  : list A -> outcome (list A) :=
  fix go (xs : list A) : outcome (list A) :=
    match xs with
    | [] => Return [] None
    | x :: rest =>
        match f x with
        | Panics => Panics
        | Return x' (Some e) => Return (x' :: rest) (Some e)
        | Return x' None =>
            match go rest with
            | Panics => Panics
            | Return rest' err => Return (x' :: rest') err
            end
        end
    end.

(** The guard [if p != nil] around such a loop over [*p]. *)
Definition ifNotNil {A : Type} (f : A -> outcome A) (p : option A)
  : outcome (option A) :=
  match p with
  | None => Return None None
  | Some x =>
      match f x with
      | Panics => Panics
      | Return x' err => Return (Some x') err
      end
  end.

(** The body of the loop of [decodeGroupTileDefs] for one group: its tile
    layers, then its subgroups. *)
Fixpoint decodeGroupTileDefs_group (tss : option Tilesets) (g : Group.t)
  : outcome Group.t :=
  match g with
  | Group.mk id name class opacity visible ox oy px py tint props
             layers objects images groups =>
      match ifNotNil (forEach (fun tl => decodeTileDefs tl tss)) layers with
      | Panics => Panics
      | Return layers' (Some e) =>
          Return (Group.mk id name class opacity visible ox oy px py tint
                    props layers' objects images groups) (Some e)
      | Return layers' None =>
          match ifNotNil (forEach (decodeGroupTileDefs_group tss)) groups with
          | Panics => Panics
          | Return groups' err =>
              Return (Group.mk id name class opacity visible ox oy px py tint
                        props layers' objects images groups') err
          end
      end
  end.

(** [decodeGroupTileDefs]: the groups after the call and the error. *)
Definition decodeGroupTileDefs (gl : option Groups) (tss : option Tilesets)
  : outcome (option Groups) :=
  ifNotNil (forEach (decodeGroupTileDefs_group tss)) gl.

(** [*t.Tilesets = tss] *)
Definition Map_set_Tilesets (tss : option Tilesets) (t : Map.t) : Map.t :=
  Map.mk (Map.Version t) (Map.TiledVersion t) (Map.Class t)
         (Map.Orientation t) (Map.RenderOrder t) (Map.Width t) (Map.Height t)
         (Map.TileWidth t) (Map.TileHeight t) (Map.HexSideLength t)
         (Map.StaggerAxis t) (Map.StaggerIndex t) (Map.BackgroundColor t)
         (Map.NextLayerID t) (Map.NextObjectID t) (Map.Infinite t)
         (Map.Properties t) tss (Map.TileLayers t) (Map.ObjectLayers t)
         (Map.ImageLayers t) (Map.Groups t).

(** The tile layers of [t] after assignments through their pointers. *)
Definition Map_set_TileLayers (tls : option TileLayers) (t : Map.t) : Map.t :=
  Map.mk (Map.Version t) (Map.TiledVersion t) (Map.Class t)
         (Map.Orientation t) (Map.RenderOrder t) (Map.Width t) (Map.Height t)
         (Map.TileWidth t) (Map.TileHeight t) (Map.HexSideLength t)
         (Map.StaggerAxis t) (Map.StaggerIndex t) (Map.BackgroundColor t)
         (Map.NextLayerID t) (Map.NextObjectID t) (Map.Infinite t)
         (Map.Properties t) (Map.Tilesets t) tls (Map.ObjectLayers t)
         (Map.ImageLayers t) (Map.Groups t).

(** The groups of [t] after assignments through their pointers. *)
Definition Map_set_Groups (gl : option Groups) (t : Map.t) : Map.t :=
  Map.mk (Map.Version t) (Map.TiledVersion t) (Map.Class t)
         (Map.Orientation t) (Map.RenderOrder t) (Map.Width t) (Map.Height t)
         (Map.TileWidth t) (Map.TileHeight t) (Map.HexSideLength t)
         (Map.StaggerAxis t) (Map.StaggerIndex t) (Map.BackgroundColor t)
         (Map.NextLayerID t) (Map.NextObjectID t) (Map.Infinite t)
         (Map.Properties t) (Map.Tilesets t) (Map.TileLayers t)
         (Map.ObjectLayers t) (Map.ImageLayers t) gl.

(** [Map.UnmarshalXML]; [decoded] is what [xd.DecodeElement(&tmp, &start)]
    produced and [sort_Sort tss] is the slice [tss] after
    [sort.Sort(byFirstGlobalID(tss))]. *)
Definition Map_UnmarshalXML (sort_Sort : Tilesets -> Tilesets)
    (decoded : result Map.t) (t : Map.t) : outcome Map.t :=
  match decoded with
  | Err e => Return t (Some (Errorf_ww (Sentinel ErrDecodingTilemap) e))
  | Ok tmp =>
      let t := tmp in
      match Map.Tilesets t with
      | None => Panics
      | Some tss =>
          let t := Map_set_Tilesets (Some (sort_Sort tss)) t in
          match ifNotNil (forEach (fun tl => decodeTileDefs tl (Map.Tilesets t)))
                         (Map.TileLayers t) with
          | Panics => Panics
          | Return layers (Some e) => Return (Map_set_TileLayers layers t) (Some e)
          | Return layers None =>
              let t := Map_set_TileLayers layers t in
              match decodeGroupTileDefs (Map.Groups t) (Map.Tilesets t) with
              | Panics => Panics
              | Return groups err => Return (Map_set_Groups groups t) err
              end
          end
      end
  end.

(** ** Vocabulary of the further properties *)

Definition byte_of (x : Z) : ascii := ascii_of_nat (Z.to_nat (x mod 2 ^ 8)).

(** [binary.LittleEndian.PutUint32]: the four bytes of [n], low byte first. *)
Definition PutUint32 (n : Z) : string :=
  String (byte_of n)
    (String (byte_of (n / 2 ^ 8))
       (String (byte_of (n / 2 ^ 16))
          (String (byte_of (n / 2 ^ 24)) EmptyString))).

Fixpoint PutUint32s (ns : list Z) : string :=
  match ns with
  | [] => EmptyString
  | n :: rest => (PutUint32 n ++ PutUint32s rest)%string
  end.

Definition orEmpty {A : Type} (p : option (list A)) : list A :=
  match p with
  | Some l => l
  | None => []
  end.

(** The tile layers of a group at any depth: its own, then those of its
    subgroups, in order. *)
Fixpoint Group_allTileLayers (g : Group.t) : TileLayers :=
  match g with
  | Group.mk _ _ _ _ _ _ _ _ _ _ _ layers _ _ groups =>
      orEmpty layers
      ++ match groups with
         | Some gl => flat_map Group_allTileLayers gl
         | None => []
         end
  end.

Definition Groups_allTileLayers (gl : option Groups) : TileLayers :=
  flat_map Group_allTileLayers (orEmpty gl).

(** The tile layers of a map at any depth, in the order [Map.UnmarshalXML]
    visits them. *)
Definition Map_allTileLayers (t : Map.t) : TileLayers :=
  orEmpty (Map.TileLayers t) ++ Groups_allTileLayers (Map.Groups t).

(** [l'] is [l] resolved against [tss]: its references are released and
    its TileDefs have grown by what [decodeTileDef] makes of each
    reference, in order; no other field differs. *)
Definition resolvedFrom (tss : option Tilesets) (l l' : TileLayer.t) : Prop :=
  exists defs,
    Forall2 (fun tgr td => decodeTileDef tss tgr = Return (Some td) None)
            (TileLayer.TileGlobalRefs l) defs
    /\ l' = TileLayer.set_TileGlobalRefs []
              (TileLayer.set_TileDefs (TileLayer.TileDefs l ++ defs) l).

(** What the loop makes of fewer than four bytes. *)
Definition endOfStream (tail : string) (last : option error) : option error :=
  match tail with
  | EmptyString => last
  | _ => Some match last with
              | None => io_ErrUnexpectedEOF
              | Some e => e
              end
  end.

(** The number of bytes [c] in [s]. *)
Fixpoint countByte (c : ascii) (s : string) : nat :=
  match s with
  | EmptyString => 0%nat
  | String a rest => ((if Ascii.eqb a c then 1 else 0) + countByte c rest)%nat
  end.

(** The sign and the digits of a decimal literal: one leading [-] or [+]
    is the sign. *)
Definition splitSign (s : string) : bool * string :=
  match s with
  | EmptyString => (false, EmptyString)
  | String c rest =>
      if Ascii.eqb c "-" then (true, rest)
      else if Ascii.eqb c "+" then (false, rest)
      else (false, s)
  end.

(** The value of a signed decimal literal that fits [bits] bits in two's
    complement; [None] for any other string. *)
Definition signedDecimal (bits : Z) (s : string) : option Z :=
  let (neg, ds) := splitSign s in
  if negb (ds =? "")%string && all_digits ds then
    let v := if neg then - decimal_value ds else decimal_value ds in
    if (- 2 ^ (bits - 1) <=? v) && (v <? 2 ^ (bits - 1)) then Some v else None
  else None.

(** The [TileID] a signed 32-bit value converts to: a negative one wraps. *)
Definition asTileID (v : Z) : TileID := if v <? 0 then v + 2 ^ 32 else v.

(** ** Further sample records *)

Module Fixture.

(** [<tile id=...>] with or without an [<image>] child. *)
Definition tile (id : Z) (img : option Image.t) : Tile.t :=
  Tile.mk id 0 0 0 0 Sample.zero "" "" None img None None
          (Some (TerrainType.mk 0 0 0 0)).

(** A tileset starting at 10 that declares tiles 0 and 6. *)
Definition tiled : Tileset.t :=
  Tileset.mk 10 "" "tiled" "" 0 0 0 0 0 0 ObjectAlignment.Unspecified
             None None (Some (Sample.image "t.png")) None None
             (Some [tile 0 None; tile 6 None]) None.


(** [<group name=...>] with tile layers and subgroups. *)
Definition group (name : string) (layers : option TileLayers)
    (groups : option Groups) : Group.t :=
  Group.mk "" name "" Sample.zero false 0 0 0 0 "" None layers None None groups.

(** A group with one layer and a subgroup with another. *)
Definition tree : Groups :=
  [group "outer"
     (Some [Sample.decoded (Sample.layer "a" 2 1 (Sample.csv "1,12"))])
     (Some [group "inner"
              (Some [Sample.decoded (Sample.layer "b" 1 1 (Sample.csv "50"))])
              None])].

(** Insertion into a slice sorted by [FirstGlobalID], after the elements
    that do not come later. *)
Fixpoint insert (t : Tileset.t) (tss : Tilesets) : Tilesets :=
  match tss with
  | [] => [t]
  | u :: rest =>
      if Tileset.FirstGlobalID t <? Tileset.FirstGlobalID u
      then t :: tss
      else u :: insert t rest
  end.

(** An insertion sort by [FirstGlobalID]. *)
Fixpoint isort (tss : Tilesets) : Tilesets :=
  match tss with
  | [] => []
  | t :: rest => insert t (isort rest)
  end.

(** [<map>] with tilesets, tile layers and groups. *)
Definition map (tss : option Tilesets) (layers : option TileLayers)
    (groups : option Groups) : Map.t :=
  Map.mk "1.10" "" "" Orientation.Orthogonal RenderOrder.RightDown
         2 1 16 16 0 "" "" "" 0 0 false None tss layers None None groups.

(** A map whose tilesets come in the order 10, 50, 1. *)
Definition unsorted : Map.t :=
  map (Some [Sample.tileset 10 "" "second" (Some (Sample.image "b.png"));
             Sample.tileset 50 "" "third" (Some (Sample.image "c.png"));
             Sample.tileset 1 "" "first" (Some (Sample.image "a.png"))])
      (Some [Sample.decoded (Sample.layer "top" 2 1 (Sample.csv "9,49"))])
      (Some tree).

(** The value of a character of the standard base64 alphabet. *)
Definition base64_value (c : ascii) : option Z :=
  let n := Z.of_nat (nat_of_ascii c) in
  if (65 <=? n) && (n <=? 90) then Some (n - 65)
  else if (97 <=? n) && (n <=? 122) then Some (n - 71)
  else if (48 <=? n) && (n <=? 57) then Some (n + 4)
  else if n =? 43 then Some 62
  else if n =? 47 then Some 63
  else None.

Definition byte (x : Z) : ascii := ascii_of_nat (Z.to_nat x).

Definition is_pad (c : ascii) : bool := Ascii.eqb c "=".

(** The bytes of the quadruples of a base64 text, up to its end or to the
    first quadruple that is not well formed. *)
Fixpoint base64_quads (s : list ascii) : string * option error :=
  match s with
  | [] => (EmptyString, None)
  | a :: b :: c :: d :: rest =>
      match base64_value a, base64_value b with
      | Some va, Some vb =>
          let b0 := byte (va * 4 + vb / 16) in
          if is_pad c && is_pad d then
            (String b0 EmptyString,
             match rest with [] => None | _ => Some Unix.ErrCorrupt end)
          else
            match base64_value c with
            | Some vc =>
                let b1 := byte (vb mod 16 * 16 + vc / 4) in
                if is_pad d then
                  (String b0 (String b1 EmptyString),
                   match rest with [] => None | _ => Some Unix.ErrCorrupt end)
                else
                  match base64_value d with
                  | Some vd =>
                      let b2 := byte (vc mod 4 * 64 + vd) in
                      let (bs, e) := base64_quads rest in
                      (String b0 (String b1 (String b2 bs)), e)
                  | None => (EmptyString, Some Unix.ErrCorrupt)
                  end
            | None => (EmptyString, Some Unix.ErrCorrupt)
            end
      | _, _ => (EmptyString, Some Unix.ErrCorrupt)
      end
  | _ => (EmptyString, Some Unix.ErrCorrupt)
  end.

Definition is_newline (c : ascii) : bool :=
  let n := Z.of_nat (nat_of_ascii c) in (n =? 10) || (n =? 13).

(** A reader over the bytes of a padded standard base64 text, line breaks
    skipped. *)
Definition base64 (b : string) : Reader :=
  let (bs, e) :=
    base64_quads (filter (fun c => negb (is_newline c)) (list_ascii_of_string b)) in
  mkReader bs e.

(** The sample world with this base64 decoder. *)
Definition world : Lib :=
  mkLib (strings_TrimSpace Sample.world) (bytes_TrimSpace Sample.world)
        base64
        (zlib_NewReader Sample.world) (gzip_NewReader Sample.world)
        (zstd_NewReader Sample.world) (filepath_Join Sample.world)
        (filepath_Dir Sample.world) (os_Open Sample.world)
        (xml_Decode_Tileset Sample.world) (xml_Decode_Template Sample.world)
        (xml_Unmarshal_Map Sample.world).

(** A triangle, and a polyline whose second item lacks a coordinate. *)
Definition triangle : Poly.t := Poly.mk "0,0 16,-8 +32,0".

Definition broken : Poly.t := Poly.mk "0,0 16 32,0".

(** [<tile id=... terrain=...>] as the element decoder leaves it. *)
Definition terrain_tile (id : Z) (terrain : string) : Tile.t :=
  Tile.mk id 0 0 0 0 Sample.zero "" terrain None None None None None.

End Fixture.

(** A coordinate pair as [Poly.Points] accepts it: two fields around one
    comma, each a signed decimal literal of 32 bits, giving the point [q]. *)
Definition pointOfItem (item : string) (q : Point.t) : Prop :=
  exists x y,
    strings_Split item "," = [x; y]
    /\ signedDecimal 32 x = Some (Point.X q)
    /\ signedDecimal 32 y = Some (Point.Y q).

(** * Properties *)

(** ** Bits of a GlobalID *)

Lemma TileFlipped_testbit (i : Z) :
  0 <= i ->
  Z.testbit TileFlipped i = (i =? 31) || (i =? 30) || (i =? 29).
Proof.
  intros Hi. unfold TileFlipped.
  change TileFlippedHorizontally with (2 ^ 31).
  change TileFlippedVertically with (2 ^ 30).
  change TileFlippedDiagonally with (2 ^ 29).
  rewrite !Z.lor_spec, !Z.pow2_bits_eqb by lia.
  rewrite (Z.eqb_sym 31 i), (Z.eqb_sym 30 i), (Z.eqb_sym 29 i).
  reflexivity.
Qed.

(** [BareID] keeps bit [i] of [g] below bit 29 and clears it from there on. *)
Lemma BareID_testbit (g i : Z) :
  0 <= i ->
  Z.testbit (BareID g) i = Z.testbit g i && (i <? 29).
Proof.
  intros Hi. unfold BareID, uint32.
  rewrite Z.testbit_mod_pow2, Z.ldiff_spec, TileFlipped_testbit by lia.
  destruct (Z.testbit g i); simpl.
  - destruct (Z.ltb_spec i 32), (Z.ltb_spec i 29),
      (Z.eqb_spec i 31), (Z.eqb_spec i 30), (Z.eqb_spec i 29);
      simpl; try reflexivity; lia.
  - apply andb_false_r.
Qed.

Lemma withFlags_testbit (h v d : bool) (n i : Z) :
  0 <= i ->
  Z.testbit (withFlags h v d n) i
  = (h && (i =? 31)) || (v && (i =? 30)) || (d && (i =? 29)) || Z.testbit n i.
Proof.
  intros Hi. unfold withFlags. rewrite !Z.lor_spec.
  change TileFlippedHorizontally with (2 ^ 31).
  change TileFlippedVertically with (2 ^ 30).
  change TileFlippedDiagonally with (2 ^ 29).
  assert (E : forall (b : bool) (k : Z), 0 <= k ->
             Z.testbit (if b then 2 ^ k else 0) i = b && (i =? k)).
  { intros b k Hk. destruct b; simpl.
    - rewrite Z.pow2_bits_eqb by lia. apply Z.eqb_sym.
    - apply Z.bits_0. }
  rewrite !E by lia. reflexivity.
Qed.

Lemma small_testbit (n i : Z) :
  0 <= n < 2 ^ 29 -> 29 <= i -> Z.testbit n i = false.
Proof.
  intros Hn Hi.
  rewrite <- (Z.mod_small n (2 ^ 29)) by lia.
  rewrite Z.mod_pow2_bits_high; [reflexivity | lia].
Qed.

Lemma BareID_withFlags (h v d : bool) (n : Z) :
  0 <= n < 2 ^ 29 -> BareID (withFlags h v d n) = n.
Proof.
  intros Hn. apply Z.bits_inj'. intros i Hi.
  rewrite BareID_testbit, withFlags_testbit by lia.
  destruct (Z.ltb_spec i 29) as [Hlt | Hge].
  - replace (i =? 31) with false by (symmetry; apply Z.eqb_neq; lia).
    replace (i =? 30) with false by (symmetry; apply Z.eqb_neq; lia).
    replace (i =? 29) with false by (symmetry; apply Z.eqb_neq; lia).
    rewrite !andb_false_r, andb_true_r. reflexivity.
  - rewrite andb_false_r. symmetry. apply small_testbit; assumption.
Qed.

Lemma BareID_range (g : Z) : 0 <= BareID g < 2 ^ 29.
Proof.
  assert (E : BareID g = BareID g mod 2 ^ 29).
  { apply Z.bits_inj'. intros i Hi.
    rewrite Z.testbit_mod_pow2, BareID_testbit by lia.
    destruct (Z.testbit g i), (i <? 29); reflexivity. }
  rewrite E. apply Z.mod_pos_bound. lia.
Qed.

(** C7: for every n < 2^29 and every combination of the three flip bits,
    [BareID] of the flagged value is n again; bit by bit, [BareID] clears
    bits 29, 30 and 31 and keeps the 29 bits below. *)
Theorem BareID_strips_flags (n : Z) (h v d : bool) :
  0 <= n < 2 ^ 29 ->
  BareID (withFlags h v d n) = n
  /\ BareID (Z.lor TileFlipped n) = n
  /\ forall i, 0 <= i ->
       Z.testbit (BareID (withFlags h v d n)) i
       = Z.testbit (withFlags h v d n) i && (i <? 29).
Proof.
  intros Hn. split; [| split].
  - apply BareID_withFlags; assumption.
  - change (Z.lor TileFlipped n) with (withFlags true true true n).
    apply BareID_withFlags; assumption.
  - intros i Hi. apply BareID_testbit; assumption.
Qed.

Lemma BareID_strips_flags_witness :
  BareID (withFlags true true true 7) = 7
  /\ BareID (Z.lor TileFlipped 7) = 7
  /\ forall i, 0 <= i ->
       Z.testbit (BareID (withFlags true true true 7)) i
       = Z.testbit (withFlags true true true 7) i && (i <? 29).
Proof.
  apply (BareID_strips_flags 7 true true true). lia.
Defined.

(** ** The tileset range index *)

Lemma last_cons_default {A : Type} (l : list A) (x d : A) :
  last (x :: l) d = last l x.
Proof.
  revert x d. induction l as [| y l IH]; intros x d.
  - reflexivity.
  - change (last (x :: y :: l) d) with (last (y :: l) d).
    rewrite (IH y d), (IH y x). reflexivity.
Qed.

Lemma uint32_wellFormed (t : Tileset.t) :
  wellFormedTileset t -> uint32 (Tileset.FirstGlobalID t) = Tileset.FirstGlobalID t.
Proof.
  intros H. unfold uint32. apply Z.mod_small. exact H.
Qed.

(** While no start exceeds [b] the scan runs to the end and keeps the last
    tileset it saw. *)
Lemma findTileset_all_below (b : Z) (pre : Tilesets) (acc : option Tileset.t) :
  Forall wellFormedTileset pre ->
  (forall p, In p pre -> Tileset.FirstGlobalID p <= b) ->
  findTileset b pre acc = last (map Some pre) acc.
Proof.
  revert acc. induction pre as [| t rest IH]; intros acc Hwf Hle.
  - reflexivity.
  - simpl findTileset. inversion Hwf as [| ? ? Ht Hrest]; subst.
    rewrite uint32_wellFormed by assumption.
    destruct (Z.ltb_spec b (Tileset.FirstGlobalID t)) as [Hlt | Hge].
    + specialize (Hle t (or_introl eq_refl)). lia.
    + rewrite IH; [| assumption | intros p Hp; apply Hle; right; exact Hp].
      change (map Some (t :: rest)) with (Some t :: map Some rest).
      rewrite last_cons_default. reflexivity.
Qed.

(** The scan stops at the first tileset whose start exceeds [b]: what
    follows it is not visited. *)
Lemma findTileset_stops (b : Z) (pre post : Tilesets) (t : Tileset.t)
    (acc : option Tileset.t) :
  Forall wellFormedTileset (pre ++ t :: post) ->
  (forall p, In p pre -> Tileset.FirstGlobalID p <= b) ->
  b < Tileset.FirstGlobalID t ->
  findTileset b (pre ++ t :: post) acc = last (map Some pre) acc.
Proof.
  revert acc. induction pre as [| p rest IH]; intros acc Hwf Hle Hlt.
  - simpl in *. inversion Hwf as [| ? ? Ht _]; subst.
    rewrite uint32_wellFormed by assumption.
    destruct (Z.ltb_spec b (Tileset.FirstGlobalID t)); [reflexivity | lia].
  - simpl app in *. simpl findTileset.
    inversion Hwf as [| ? ? Hp Hrest]; subst.
    rewrite uint32_wellFormed by assumption.
    destruct (Z.ltb_spec b (Tileset.FirstGlobalID p)) as [Hbp | Hbp].
    + specialize (Hle p (or_introl eq_refl)). lia.
    + rewrite IH; [| assumption | intros q Hq; apply Hle; right; exact Hq
                   | assumption].
      change (map Some (p :: rest)) with (Some p :: map Some rest).
      rewrite last_cons_default. reflexivity.
Qed.

(** The loop invariant: either the candidate is unchanged and every start
    exceeds [b], or the result is a tileset of the slice with the greatest
    start not above [b]. *)
Lemma findTileset_sorted (b : Z) (tss : Tilesets) (acc : option Tileset.t) :
  Forall wellFormedTileset tss ->
  sortedByFirstGlobalID tss ->
  (findTileset b tss acc = acc
   /\ forall t, In t tss -> b < Tileset.FirstGlobalID t)
  \/ (exists t, findTileset b tss acc = Some t
        /\ In t tss
        /\ Tileset.FirstGlobalID t <= b
        /\ forall t', In t' tss -> Tileset.FirstGlobalID t' <= b ->
             Tileset.FirstGlobalID t' <= Tileset.FirstGlobalID t).
Proof.
  revert acc. induction tss as [| t rest IH]; intros acc Hwf Hs.
  - left. split; [reflexivity | intros t []].
  - inversion Hwf as [| ? ? Ht Hrest]; subst.
    apply StronglySorted_inv in Hs. destruct Hs as [Hs Hall].
    rewrite Forall_forall in Hall.
    simpl findTileset. rewrite uint32_wellFormed by assumption.
    destruct (Z.ltb_spec b (Tileset.FirstGlobalID t)) as [Hlt | Hge].
    + left. split; [reflexivity |].
      intros t' [<- | Hin]; [assumption |].
      specialize (Hall t' Hin). simpl in Hall. lia.
    + right. destruct (IH (Some t) Hrest Hs) as [[E Habove] | [t2 [E [Hin [Hle Hmax]]]]].
      * exists t. split; [exact E |]. split; [left; reflexivity |].
        split; [assumption |].
        intros t' [<- | Hin] Hle'; [lia |].
        specialize (Habove t' Hin). lia.
      * exists t2. split; [exact E |]. split; [right; exact Hin |].
        split; [assumption |].
        intros t' [<- | Hin'] Hle'.
        -- specialize (Hall t2 Hin). simpl in Hall. exact Hall.
        -- apply Hmax; assumption.
Qed.

Lemma decodeTileDef_nonzero (tss : Tilesets) (g : Z) :
  BareID g <> 0 ->
  decodeTileDef (Some tss) (TileGlobalRef.mk g)
  = match findTileset (BareID g) tss None with
    | None =>
        Return None
          (Some (Errorf_w (Sentinel ErrNoSuitableTileset) (WithGlobalID g)))
    | Some ts =>
        Return (Some (TileDef.mk false (GlobalID_TileID g ts) g (Some ts)
                        match Tileset.Tiles ts with
                        | Some tiles => Tiles_WithID tiles (GlobalID_TileID g ts)
                        | None => None
                        end
                        (IsFlippedHorizontally g) (IsFlippedVertically g)
                        (IsFlippedDiagonally g))) None
    end.
Proof.
  intros Hb. unfold decodeTileDef. simpl TileGlobalRef.GlobalID.
  destruct (Z.eqb_spec (BareID g) 0) as [E | _]; [contradiction | reflexivity].
Qed.

(** C1: over tilesets sorted ascending by FirstGlobalID, the scan returns a
    tileset whose FirstGlobalID is the greatest one not above the bare ID,
    stops at the first tileset whose FirstGlobalID exceeds it, and finds
    nothing exactly when every FirstGlobalID exceeds it; for a reference
    with that bare ID (not 0) the builder then fails with
    ErrNoSuitableTileset, and otherwise emits a TileDef of the tileset
    found. *)
Theorem findTileset_greatest_start (tss : Tilesets) (b : Z) :
  Forall wellFormedTileset tss ->
  sortedByFirstGlobalID tss ->
  (forall t, findTileset b tss None = Some t ->
     In t tss
     /\ Tileset.FirstGlobalID t <= b
     /\ forall t', In t' tss -> Tileset.FirstGlobalID t' <= b ->
          Tileset.FirstGlobalID t' <= Tileset.FirstGlobalID t)
  /\ (findTileset b tss None = None
      <-> forall t, In t tss -> b < Tileset.FirstGlobalID t)
  /\ (forall pre t post,
        tss = pre ++ t :: post ->
        (forall p, In p pre -> Tileset.FirstGlobalID p <= b) ->
        b < Tileset.FirstGlobalID t ->
        findTileset b tss None = lastOf pre)
  /\ (forall g, BareID g = b -> 0 < b ->
        (findTileset b tss None = None ->
           exists e,
             decodeTileDef (Some tss) (TileGlobalRef.mk g) = Return None (Some e)
             /\ errors_Is e ErrNoSuitableTileset = true)
        /\ (forall t, findTileset b tss None = Some t ->
              exists td,
                decodeTileDef (Some tss) (TileGlobalRef.mk g)
                = Return (Some td) None
                /\ TileDef.TileSet td = Some t)).
Proof.
  intros Hwf Hs.
  destruct (findTileset_sorted b tss None Hwf Hs)
    as [[E Habove] | [t0 [E [Hin [Hle Hmax]]]]].
  - split; [| split; [| split]].
    + intros t Ht. rewrite E in Ht. discriminate.
    + split; [intros _; exact Habove | intros _; exact E].
    + intros pre t post -> Hpre Hlt.
      apply findTileset_stops; assumption.
    + intros g Hg Hpos. rewrite decodeTileDef_nonzero by lia.
      rewrite Hg, E. split.
      * intros _. eexists. split; reflexivity.
      * intros t Ht. discriminate.
  - split; [| split; [| split]].
    + intros t Ht. rewrite E in Ht. injection Ht as <-. auto.
    + split.
      * intros HN. rewrite E in HN. discriminate.
      * intros Habove. specialize (Habove t0 Hin). lia.
    + intros pre t post -> Hpre Hlt.
      apply findTileset_stops; assumption.
    + intros g Hg Hpos. rewrite decodeTileDef_nonzero by lia.
      rewrite Hg, E. split.
      * intros HN. discriminate.
      * intros t Ht. injection Ht as <-. eexists. split; reflexivity.
Qed.

Lemma Sample_tilesets_wellFormed : Forall wellFormedTileset Sample.tilesets.
Proof.
  repeat constructor; unfold wellFormedTileset; simpl; lia.
Defined.

Lemma Sample_tilesets_sorted : sortedByFirstGlobalID Sample.tilesets.
Proof.
  unfold sortedByFirstGlobalID, Sample.tilesets.
  repeat constructor; simpl; lia.
Defined.

Lemma findTileset_greatest_start_witness :
  Forall wellFormedTileset Sample.tilesets
  /\ sortedByFirstGlobalID Sample.tilesets
  /\ (findTileset 9 Sample.tilesets None = None
      <-> forall t, In t Sample.tilesets -> 9 < Tileset.FirstGlobalID t).
Proof.
  split; [exact Sample_tilesets_wellFormed |].
  split; [exact Sample_tilesets_sorted |].
  exact (proj1 (proj2 (findTileset_greatest_start Sample.tilesets 9
                         Sample_tilesets_wellFormed Sample_tilesets_sorted))).
Defined.

(** Starts 1, 10 and 50: bare ID 9 belongs to the tileset starting at 1,
    49 to the one starting at 10, and 0 to none. *)
Example findTileset_1_10_50 :
  option_map Tileset.FirstGlobalID (findTileset 9 Sample.tilesets None) = Some 1
  /\ option_map Tileset.FirstGlobalID (findTileset 49 Sample.tilesets None) = Some 10
  /\ option_map Tileset.FirstGlobalID (findTileset 50 Sample.tilesets None) = Some 50
  /\ findTileset 0 Sample.tilesets None = None.
Proof.
  repeat split; reflexivity.
Qed.

(** ** The tile definition builder *)

(** An iteration appends a TileDef, or returns an error, or panics. *)
Lemma decodeTileDef_cases (tss : option Tilesets) (tgr : TileGlobalRef.t) :
  decodeTileDef tss tgr = Panics
  \/ (exists td, decodeTileDef tss tgr = Return (Some td) None)
  \/ (exists e, decodeTileDef tss tgr = Return None (Some e)).
Proof.
  unfold decodeTileDef.
  destruct (BareID (TileGlobalRef.GlobalID tgr) =? 0).
  - right; left. eexists. reflexivity.
  - destruct tss as [tilesets |]; [| left; reflexivity].
    destruct (findTileset _ tilesets None).
    + right; left. eexists. reflexivity.
    + right; right. eexists. reflexivity.
Qed.

Lemma decodeTileDef_zero (tss : option Tilesets) (g : Z) :
  BareID g = 0 ->
  decodeTileDef tss (TileGlobalRef.mk g) = Return (Some nilTileDef) None.
Proof.
  intros Hb. unfold decodeTileDef. simpl TileGlobalRef.GlobalID.
  rewrite Hb. reflexivity.
Qed.

(** C6: a reference whose bare ID is 0 yields the nil TileDef whatever its
    flag bits and whatever the tilesets, a nil tileset pointer included: the
    tilesets are not consulted, and the loop goes on to the next
    reference. *)
Theorem zero_bare_id_is_nil_tile (g : Z) :
  BareID g = 0 ->
  forall tss : option Tilesets,
    decodeTileDef tss (TileGlobalRef.mk g) = Return (Some nilTileDef) None
    /\ TileDef.Nil nilTileDef = true
    /\ forall rest l,
         decodeTileDefs_loop tss (TileGlobalRef.mk g :: rest) l
         = decodeTileDefs_loop tss rest
             (TileLayer.set_TileDefs (TileLayer.TileDefs l ++ [nilTileDef]) l).
Proof.
  intros Hb tss. split; [| split].
  - apply decodeTileDef_zero; assumption.
  - reflexivity.
  - intros rest l. simpl decodeTileDefs_loop.
    rewrite decodeTileDef_zero by assumption. reflexivity.
Qed.

Lemma zero_bare_id_is_nil_tile_witness :
  BareID 0x80000000 = 0
  /\ decodeTileDef None (TileGlobalRef.mk 0x80000000)
     = Return (Some nilTileDef) None.
Proof.
  split; [reflexivity |].
  exact (proj1 (zero_bare_id_is_nil_tile 0x80000000 eq_refl None)).
Defined.

(** Flag bits alone never make a tile. *)
Lemma flags_only_bare_id (h v d : bool) : BareID (withFlags h v d 0) = 0.
Proof.
  apply BareID_withFlags. lia.
Qed.

Lemma set_TileDefs_app (l : TileLayer.t) (a b : list TileDef.t) :
  TileLayer.set_TileDefs
    (TileLayer.TileDefs (TileLayer.set_TileDefs (TileLayer.TileDefs l ++ a) l) ++ b)
    (TileLayer.set_TileDefs (TileLayer.TileDefs l ++ a) l)
  = TileLayer.set_TileDefs (TileLayer.TileDefs l ++ a ++ b) l.
Proof.
  destruct l. unfold TileLayer.set_TileDefs. simpl.
  rewrite app_assoc. reflexivity.
Qed.

(** A run of the loop that ends without error has appended one TileDef per
    reference and cleared the references; nothing else is assigned. *)
Lemma decodeTileDefs_loop_success (tss : option Tilesets)
    (refs : list TileGlobalRef.t) (l l' : TileLayer.t) :
  decodeTileDefs_loop tss refs l = Return l' None ->
  exists defs,
    List.length defs = List.length refs
    /\ l' = TileLayer.set_TileGlobalRefs []
              (TileLayer.set_TileDefs (TileLayer.TileDefs l ++ defs) l).
Proof.
  revert l. induction refs as [| tgr rest IH]; intros l H.
  - simpl in H. injection H as <-. exists []. split; [reflexivity |].
    rewrite app_nil_r. destruct l; reflexivity.
  - simpl in H.
    destruct (decodeTileDef_cases tss tgr) as [E | [[td E] | [e E]]];
      rewrite E in H; try discriminate.
    apply IH in H. destruct H as [defs [Hlen ->]].
    exists (td :: defs). split; [simpl; rewrite Hlen; reflexivity |].
    rewrite set_TileDefs_app. reflexivity.
Qed.

(** C9: when the builder returns without error the layer's TileGlobalRefs
    is empty, its TileDefs has grown by one entry per reference, and every
    other field (width, height, name, properties among them) is as
    before. *)
Theorem decodeTileDefs_clears_refs (l l' : TileLayer.t) (tss : option Tilesets) :
  decodeTileDefs l tss = Return l' None ->
  TileLayer.TileGlobalRefs l' = []
  /\ (exists defs,
        List.length defs = List.length (TileLayer.TileGlobalRefs l)
        /\ TileLayer.TileDefs l' = TileLayer.TileDefs l ++ defs
        /\ l' = TileLayer.set_TileGlobalRefs []
                  (TileLayer.set_TileDefs (TileLayer.TileDefs l ++ defs) l))
  /\ TileLayer.Width l' = TileLayer.Width l
  /\ TileLayer.Height l' = TileLayer.Height l
  /\ TileLayer.Name l' = TileLayer.Name l
  /\ TileLayer.Properties l' = TileLayer.Properties l
  /\ TileLayer.ID l' = TileLayer.ID l
  /\ TileLayer.Class l' = TileLayer.Class l
  /\ TileLayer.X l' = TileLayer.X l
  /\ TileLayer.Y l' = TileLayer.Y l
  /\ TileLayer.Opacity l' = TileLayer.Opacity l
  /\ TileLayer.Visible l' = TileLayer.Visible l
  /\ TileLayer.TintColor l' = TileLayer.TintColor l
  /\ TileLayer.OffsetX l' = TileLayer.OffsetX l
  /\ TileLayer.OffsetY l' = TileLayer.OffsetY l
  /\ TileLayer.ParallaxX l' = TileLayer.ParallaxX l
  /\ TileLayer.ParallaxY l' = TileLayer.ParallaxY l
  /\ TileLayer.RawData l' = TileLayer.RawData l.
Proof.
  unfold decodeTileDefs. intros H.
  apply decodeTileDefs_loop_success in H. destruct H as [defs [Hlen ->]].
  split; [reflexivity |].
  split; [exists defs; repeat split; assumption |].
  repeat split; reflexivity.
Qed.

Lemma decodeTileDefs_clears_refs_witness :
  decodeTileDefs Sample.pending (Some Sample.tilesets)
  = Return (Sample.resolved
              (Sample.layer "pending" 3 1 (Sample.csv "1, 2147483648, 12"))
              Sample.tilesets) None
  /\ TileLayer.TileGlobalRefs
       (Sample.resolved
          (Sample.layer "pending" 3 1 (Sample.csv "1, 2147483648, 12"))
          Sample.tilesets) = [].
Proof.
  assert (H : decodeTileDefs Sample.pending (Some Sample.tilesets)
              = Return (Sample.resolved
                          (Sample.layer "pending" 3 1
                             (Sample.csv "1, 2147483648, 12"))
                          Sample.tilesets) None)
    by reflexivity.
  split; [exact H |].
  exact (proj1 (decodeTileDefs_clears_refs _ _ _ H)).
Defined.

(** The three references of the sample are released and three TileDefs
    take their place, the middle one nil. *)
Example pending_resolved :
  List.length (TileLayer.TileGlobalRefs Sample.pending) = 3%nat
  /\ map TileDef.Nil
       (TileLayer.TileDefs
          (Sample.resolved
             (Sample.layer "pending" 3 1 (Sample.csv "1, 2147483648, 12"))
             Sample.tilesets))
     = [false; true; false].
Proof.
  split; reflexivity.
Qed.

(** ** Random access *)

Lemma int_small (x : Z) : - 2 ^ 63 <= x < 2 ^ 63 -> int x = x.
Proof.
  intros H. unfold int. rewrite Z.mod_small; lia.
Qed.

Lemma GetTileDefAtIndex_outside (l : TileLayer.t) (i : Z) :
  i < 0 \/ int (TileLayer.Width l * TileLayer.Height l) <= i ->
  GetTileDefAtIndex l i
  = Return None (Some (Errorf_w (Sentinel ErrTileDefOutOfBounds) (AtIndex i))).
Proof.
  intros H. unfold GetTileDefAtIndex.
  destruct (Z.ltb_spec i 0); [reflexivity |].
  destruct (Z.geb_spec i (int (TileLayer.Width l * TileLayer.Height l)));
    [reflexivity | lia].
Qed.

Lemma GetTileDefAtIndex_inside (l : TileLayer.t) (i : Z) :
  0 <= i < int (TileLayer.Width l * TileLayer.Height l) ->
  GetTileDefAtIndex l i
  = match nth_error (TileLayer.TileDefs l) (Z.to_nat i) with
    | Some td => Return (Some td) None
    | None => Panics
    end.
Proof.
  intros H. unfold GetTileDefAtIndex.
  destruct (Z.ltb_spec i 0); [lia |].
  destruct (Z.geb_spec i (int (TileLayer.Width l * TileLayer.Height l)));
    [lia | reflexivity].
Qed.

Lemma nth_error_Z {A : Type} (l : list A) (i : Z) :
  0 <= i ->
  (i < Z.of_nat (List.length l) -> exists x, nth_error l (Z.to_nat i) = Some x)
  /\ (Z.of_nat (List.length l) <= i -> nth_error l (Z.to_nat i) = None).
Proof.
  intros Hi. split; intros H.
  - destruct (nth_error l (Z.to_nat i)) eqn:E; [eexists; reflexivity |].
    apply nth_error_None in E. lia.
  - apply nth_error_None. lia.
Qed.

(** The index panics exactly between the number of TileDefs and the
    declared extent. *)
Lemma GetTileDefAtIndex_Panics_iff (l : TileLayer.t) (i : Z) :
  GetTileDefAtIndex l i = Panics
  <-> Z.of_nat (List.length (TileLayer.TileDefs l)) <= i
      < int (TileLayer.Width l * TileLayer.Height l).
Proof.
  destruct (Z.lt_ge_cases i 0) as [Hneg | Hpos].
  { rewrite GetTileDefAtIndex_outside by lia. split; [discriminate | lia]. }
  destruct (Z.lt_ge_cases i (int (TileLayer.Width l * TileLayer.Height l)))
    as [Hin | Hout].
  - rewrite GetTileDefAtIndex_inside by lia.
    destruct (nth_error_Z (TileLayer.TileDefs l) i Hpos) as [Hsome Hnone].
    destruct (Z.lt_ge_cases i (Z.of_nat (List.length (TileLayer.TileDefs l))))
      as [Hlt | Hge].
    + destruct (Hsome Hlt) as [td ->]. split; [discriminate | lia].
    + rewrite (Hnone Hge). split; [lia | reflexivity].
  - rewrite GetTileDefAtIndex_outside by lia. split; [discriminate | lia].
Qed.

(** C5: for a layer that holds as many TileDefs as its declared extent,
    GetTileDefAtIndex returns the TileDef at the index exactly for the
    indices of [0, width*height) and the out-of-bounds error for every
    other index; GetTileDefAtPosition(row, col) is GetTileDefAtIndex at
    row*width+col, as Go's int computes it, with the same TileDef inside
    the extent and the out-of-bounds error outside; without overflow the
    index and the extent are the products and sums of the integers. *)
Theorem GetTileDefAt_bounds (l : TileLayer.t) :
  Z.of_nat (List.length (TileLayer.TileDefs l))
  = int (TileLayer.Width l * TileLayer.Height l) ->
  (forall i,
     (0 <= i < int (TileLayer.Width l * TileLayer.Height l) ->
        exists td,
          GetTileDefAtIndex l i = Return (Some td) None
          /\ nth_error (TileLayer.TileDefs l) (Z.to_nat i) = Some td)
     /\ (~ 0 <= i < int (TileLayer.Width l * TileLayer.Height l) ->
           exists e,
             GetTileDefAtIndex l i = Return None (Some e)
             /\ errors_Is e ErrTileDefOutOfBounds = true))
  /\ (forall row col,
        (0 <= int (int (row * int (TileLayer.Width l)) + col)
           < int (TileLayer.Width l * TileLayer.Height l) ->
           GetTileDefAtPosition l row col
           = GetTileDefAtIndex l (int (int (row * int (TileLayer.Width l)) + col)))
        /\ (~ 0 <= int (int (row * int (TileLayer.Width l)) + col)
              < int (TileLayer.Width l * TileLayer.Height l) ->
              exists e,
                GetTileDefAtPosition l row col = Return None (Some e)
                /\ errors_Is e ErrTileDefOutOfBounds = true)
        /\ (- 2 ^ 63 <= TileLayer.Width l < 2 ^ 63 ->
            - 2 ^ 63 <= row * TileLayer.Width l < 2 ^ 63 ->
            - 2 ^ 63 <= row * TileLayer.Width l + col < 2 ^ 63 ->
            int (int (row * int (TileLayer.Width l)) + col)
            = row * TileLayer.Width l + col))
  /\ (- 2 ^ 63 <= TileLayer.Width l * TileLayer.Height l < 2 ^ 63 ->
      int (TileLayer.Width l * TileLayer.Height l)
      = TileLayer.Width l * TileLayer.Height l).
Proof.
  intros Hlen.
  assert (Hidx : forall i,
            0 <= i < int (TileLayer.Width l * TileLayer.Height l) ->
            exists td,
              GetTileDefAtIndex l i = Return (Some td) None
              /\ nth_error (TileLayer.TileDefs l) (Z.to_nat i) = Some td).
  { intros i Hi. rewrite GetTileDefAtIndex_inside by assumption.
    destruct (nth_error_Z (TileLayer.TileDefs l) i (proj1 Hi)) as [Hsome _].
    destruct Hsome as [td E]; [lia |].
    exists td. rewrite E. split; reflexivity. }
  split; [| split; [| apply int_small]].
  - intros i. split; [apply Hidx |].
    intros Hout. eexists.
    rewrite GetTileDefAtIndex_outside by lia. split; reflexivity.
  - intros row col. split; [| split].
    + intros Hin. unfold GetTileDefAtPosition.
      destruct (Hidx _ Hin) as [td [E _]]. rewrite E. reflexivity.
    + intros Hout. unfold GetTileDefAtPosition.
      rewrite GetTileDefAtIndex_outside by lia.
      eexists. split; reflexivity.
    + intros Hw Hrw Hsum.
      rewrite (int_small (TileLayer.Width l)) by assumption.
      rewrite (int_small (row * TileLayer.Width l)) by assumption.
      apply int_small. assumption.
Qed.

Lemma GetTileDefAt_bounds_witness :
  Z.of_nat (List.length (TileLayer.TileDefs Sample.grid))
  = int (TileLayer.Width Sample.grid * TileLayer.Height Sample.grid)
  /\ GetTileDefAtPosition Sample.grid 2 3 = GetTileDefAtIndex Sample.grid 11.
Proof.
  split; [reflexivity |].
  refine (proj1 (proj1 (proj2 (GetTileDefAt_bounds Sample.grid eq_refl)) 2 3) _).
  vm_compute. split; [discriminate | reflexivity].
Defined.

(** Width 4, height 3, twelve TileDefs: index 11 is position (2, 3) and
    holds the twelfth reference; index 12 and position (3, 0) are out of
    bounds. *)
Example grid_4_by_3 :
  (exists td,
     GetTileDefAtIndex Sample.grid 11 = Return (Some td) None
     /\ GetTileDefAtPosition Sample.grid 2 3 = Return (Some td) None
     /\ TileDef.GlobalID td = 12)
  /\ (exists e, GetTileDefAtIndex Sample.grid 12 = Return None (Some e)
                /\ errors_Is e ErrTileDefOutOfBounds = true)
  /\ (exists e, GetTileDefAtPosition Sample.grid 3 0 = Return None (Some e)
                /\ errors_Is e ErrTileDefOutOfBounds = true).
Proof.
  split; [| split]; eexists; repeat split; reflexivity.
Qed.

(** C10: GetTileDefAtIndex compares the index with the declared
    width*height only.  It panics exactly for the indices from the number
    of TileDefs up to width*height; outside the declared extent it returns
    the out-of-bounds error whatever the number of TileDefs; with as many
    TileDefs as the declared extent it never panics, and with fewer it
    panics at the first index past them. *)
Theorem GetTileDefAtIndex_unchecked_length (l : TileLayer.t) :
  (forall i,
     GetTileDefAtIndex l i = Panics
     <-> Z.of_nat (List.length (TileLayer.TileDefs l)) <= i
         < int (TileLayer.Width l * TileLayer.Height l))
  /\ (forall i,
        i < 0 \/ int (TileLayer.Width l * TileLayer.Height l) <= i ->
        GetTileDefAtIndex l i
        = Return None
            (Some (Errorf_w (Sentinel ErrTileDefOutOfBounds) (AtIndex i))))
  /\ (Z.of_nat (List.length (TileLayer.TileDefs l))
      = int (TileLayer.Width l * TileLayer.Height l) ->
      forall i, GetTileDefAtIndex l i <> Panics)
  /\ (Z.of_nat (List.length (TileLayer.TileDefs l))
      < int (TileLayer.Width l * TileLayer.Height l) ->
      GetTileDefAtIndex l (Z.of_nat (List.length (TileLayer.TileDefs l)))
      = Panics).
Proof.
  split; [| split; [| split]].
  - apply GetTileDefAtIndex_Panics_iff.
  - apply GetTileDefAtIndex_outside.
  - intros Hlen i H. apply GetTileDefAtIndex_Panics_iff in H. lia.
  - intros Hlt. apply GetTileDefAtIndex_Panics_iff. lia.
Qed.

(** A 2 by 2 layer whose csv payload holds two references, and one without
    encoding: the indices past the TileDefs and inside the extent panic. *)
Example short_layer_panics :
  List.length (TileLayer.TileDefs Sample.short) = 2%nat
  /\ GetTileDefAtIndex Sample.short 2 = Panics
  /\ GetTileDefAtIndex Sample.short 3 = Panics
  /\ GetTileDefAtPosition Sample.short 1 0 = Panics
  /\ TileLayer.TileDefs Sample.children = []
  /\ GetTileDefAtIndex Sample.children 0 = Panics
  /\ (exists e, GetTileDefAtIndex Sample.short 4 = Return None (Some e)
                /\ errors_Is e ErrTileDefOutOfBounds = true).
Proof.
  repeat split. eexists. split; reflexivity.
Qed.

(** ** The csv payload *)

Lemma is_digit_value (c : ascii) :
  is_digit c = true -> 0 <= digit_value c <= 9.
Proof.
  unfold is_digit, digit_value. intros H.
  apply andb_prop in H. destruct H as [H1 H2].
  apply Z.leb_le in H1. apply Z.leb_le in H2. lia.
Qed.

Lemma digits_from_grows (l : list ascii) (n : Z) :
  0 <= n -> forallb is_digit l = true -> n <= digits_from l n.
Proof.
  revert n. induction l as [| c l IH]; intros n Hn Hd.
  - simpl. lia.
  - simpl in Hd. apply andb_prop in Hd. destruct Hd as [Hc Hl].
    apply is_digit_value in Hc.
    change (digits_from (c :: l) n) with (digits_from l (n * 10 + digit_value c)).
    assert (H : n * 10 + digit_value c <= digits_from l (n * 10 + digit_value c))
      by (apply IH; [lia | assumption]).
    lia.
Qed.

(** The digit loop succeeds exactly on digits whose value stays within
    [maxVal], and then returns that value. *)
Lemma ParseUint_loop_spec (s : string) (maxVal n : Z) :
  0 <= n <= maxVal ->
  (forallb is_digit (list_ascii_of_string s) = true
   /\ digits_from (list_ascii_of_string s) n <= maxVal ->
   ParseUint_loop s maxVal n = Ok (digits_from (list_ascii_of_string s) n))
  /\ (forallb is_digit (list_ascii_of_string s) = false
      \/ maxVal < digits_from (list_ascii_of_string s) n ->
      exists e, ParseUint_loop s maxVal n = Err e).
Proof.
  revert n. induction s as [| c s IH]; intros n Hn.
  - simpl. split.
    + intros _. reflexivity.
    + intros [H | H]; [discriminate | unfold digits_from in H; simpl in H; lia].
  - simpl list_ascii_of_string. simpl forallb. simpl ParseUint_loop.
    change (digits_from (c :: list_ascii_of_string s) n)
      with (digits_from (list_ascii_of_string s) (n * 10 + digit_value c)).
    destruct (is_digit c) eqn:Hc; simpl.
    + pose proof (is_digit_value c Hc) as Hv.
      destruct (Z.gtb_spec (n * 10 + digit_value c) maxVal) as [Hgt | Hle].
      * split.
        -- intros [Hd Hmax].
           pose proof (digits_from_grows (list_ascii_of_string s)
                         (n * 10 + digit_value c) ltac:(lia) Hd).
           lia.
        -- intros _. eexists. reflexivity.
      * apply IH. lia.
    + split.
      * intros [Hd _]. discriminate.
      * intros _. eexists. reflexivity.
Qed.

(** A numeric token parses to its decimal value. *)
Lemma ParseUint_numeric (L : Lib) (tok : string) :
  numericToken L tok = true ->
  strconv_ParseUint (strings_TrimSpace L tok) 32 = Ok (tokenValue L tok)
  /\ 0 <= tokenValue L tok < 2 ^ 32.
Proof.
  unfold numericToken, tokenValue, decimal_value, all_digits.
  set (s := strings_TrimSpace L tok). intros H.
  apply andb_prop in H. destruct H as [H Hlt].
  apply andb_prop in H. destruct H as [Hne Hd].
  apply Z.ltb_lt in Hlt.
  destruct (ParseUint_loop_spec s (2 ^ 32 - 1) 0 ltac:(lia)) as [Hok _].
  split.
  - destruct s as [| c s'] eqn:Es; [discriminate |].
    unfold strconv_ParseUint. apply Hok. split; [assumption | lia].
  - split; [| assumption].
    apply (digits_from_grows (list_ascii_of_string s) 0); [lia | assumption].
Qed.

(** Any other token is rejected. *)
Lemma ParseUint_not_numeric (L : Lib) (tok : string) :
  numericToken L tok = false ->
  exists e, strconv_ParseUint (strings_TrimSpace L tok) 32 = Err e.
Proof.
  unfold numericToken, decimal_value, all_digits.
  set (s := strings_TrimSpace L tok). intros H.
  destruct s as [| c s'] eqn:Es.
  - eexists. reflexivity.
  - rewrite <- Es in *. 
    assert (Hne : negb (s =? "")%string = true) by (rewrite Es; reflexivity).
    rewrite Hne in H. simpl in H.
    destruct (ParseUint_loop_spec s (2 ^ 32 - 1) 0 ltac:(lia)) as [_ Herr].
    assert (E : strconv_ParseUint s 32 = ParseUint_loop s (2 ^ 32 - 1) 0)
      by (rewrite Es; reflexivity).
    rewrite E. apply Herr.
    apply andb_false_iff in H. destruct H as [H | H].
    + left. exact H.
    + right. apply Z.ltb_ge in H. lia.
Qed.

Lemma appendTileGlobalRef_set (l : TileLayer.t) (refs : list TileGlobalRef.t)
    (n : Z) :
  appendTileGlobalRef
    (TileLayer.set_TileGlobalRefs (TileLayer.TileGlobalRefs l ++ refs) l) n
  = TileLayer.set_TileGlobalRefs
      (TileLayer.TileGlobalRefs l ++ refs ++ [TileGlobalRef.mk n]) l.
Proof.
  destruct l. unfold appendTileGlobalRef, TileLayer.set_TileGlobalRefs. simpl.
  rewrite <- app_assoc. reflexivity.
Qed.

Lemma set_TileGlobalRefs_same (l : TileLayer.t) :
  TileLayer.set_TileGlobalRefs (TileLayer.TileGlobalRefs l ++ []) l = l.
Proof.
  destruct l. unfold TileLayer.set_TileGlobalRefs. simpl.
  rewrite app_nil_r. reflexivity.
Qed.

(** The csv loop from a layer that already holds [refs] more references
    than [l]: with numeric tokens only it appends one reference per token. *)
Lemma decode_csv_numeric (L : Lib) (tokens : list string) (l : TileLayer.t)
    (refs : list TileGlobalRef.t) :
  forallb (numericToken L) tokens = true ->
  decode_csv L tokens
    (TileLayer.set_TileGlobalRefs (TileLayer.TileGlobalRefs l ++ refs) l)
  = Return (TileLayer.set_TileGlobalRefs
              (TileLayer.TileGlobalRefs l ++ refs ++ map (refOfToken L) tokens) l)
           None.
Proof.
  revert refs. induction tokens as [| tok rest IH]; intros refs H.
  - simpl. rewrite app_nil_r. reflexivity.
  - simpl in H. apply andb_prop in H. destruct H as [Htok Hrest].
    destruct (ParseUint_numeric L tok Htok) as [E Hrange].
    simpl decode_csv. rewrite E.
    unfold uint32. rewrite Z.mod_small by assumption.
    rewrite appendTileGlobalRef_set, IH by assumption.
    rewrite <- app_assoc. reflexivity.
Qed.

(** With a token that is not numeric the loop returns the parse error of
    the first such token; the tokens after it are not visited. *)
Lemma decode_csv_rejects (L : Lib) (tokens : list string) (l : TileLayer.t)
    (refs : list TileGlobalRef.t) :
  forallb (numericToken L) tokens = false ->
  exists pre bad post e,
    tokens = pre ++ bad :: post
    /\ forallb (numericToken L) pre = true
    /\ numericToken L bad = false
    /\ strconv_ParseUint (strings_TrimSpace L bad) 32 = Err e
    /\ decode_csv L tokens
         (TileLayer.set_TileGlobalRefs (TileLayer.TileGlobalRefs l ++ refs) l)
       = Return (TileLayer.set_TileGlobalRefs
                   (TileLayer.TileGlobalRefs l ++ refs ++ map (refOfToken L) pre) l)
                (Some e).
Proof.
  revert refs. induction tokens as [| tok rest IH]; intros refs H.
  - discriminate.
  - simpl in H. destruct (numericToken L tok) eqn:Htok.
    + simpl in H. destruct (ParseUint_numeric L tok Htok) as [E Hrange].
      destruct (IH (refs ++ [TileGlobalRef.mk (tokenValue L tok)]) H)
        as [pre [bad [post [e [-> [Hpre [Hbad [Ee Hrun]]]]]]]].
      exists (tok :: pre), bad, post, e.
      split; [reflexivity |].
      split; [simpl; rewrite Htok; exact Hpre |].
      split; [exact Hbad |]. split; [exact Ee |].
      simpl decode_csv. rewrite E.
      unfold uint32. rewrite Z.mod_small by assumption.
      rewrite appendTileGlobalRef_set, Hrun.
      rewrite <- app_assoc. reflexivity.
    + destruct (ParseUint_not_numeric L tok Htok) as [e E].
      exists [], tok, rest, e.
      split; [reflexivity |]. split; [reflexivity |].
      split; [exact Htok |]. split; [exact E |].
      simpl decode_csv. rewrite E. rewrite app_nil_r. reflexivity.
Qed.

(** With encoding ["csv"] the payload goes to the csv loop whatever the
    compression tag. *)
Lemma decodeLayerData_csv (L : Lib) (l : TileLayer.t) (d : Data.t) :
  TileLayer.RawData l = Some d ->
  Data.Encoding d = "csv"%string ->
  decodeLayerData L l = decode_csv L (strings_Split (Data.RawBytes d) ",") l.
Proof.
  intros Hd He. unfold decodeLayerData. rewrite Hd, He. reflexivity.
Qed.

(** [New] never returns a map next to an error. *)
Lemma New_error_no_map (L : Lib) (path : string) (G : Globals) :
  snd (fst (New L path G)) <> None -> fst (fst (New L path G)) = None.
Proof.
  unfold New.
  destruct (path =? "")%string; [reflexivity |].
  destruct (os_Open L path) as [f | e]; [| reflexivity].
  destruct (io_ReadAll f) as [buf | e]; [| reflexivity].
  destruct (xml_Unmarshal_Map L _ buf) as [m [e |]]; simpl.
  - reflexivity.
  - intros H. contradiction H. reflexivity.
Qed.

(** C4: with encoding "csv", whatever the compression tag, the payload is
    split at commas and every token, white space trimmed, is read as a
    decimal unsigned 32-bit integer.  When all tokens are numeric the
    layer gains one reference per token, in order, and no error is
    returned.  When some token is not numeric the operation fails:
    decodeLayerData returns the parse error of the first such token and
    TileLayer.UnmarshalXML returns it wrapped in ErrDecodingTileLayerData.
    What is handed back is the error alone: the layer record that was being
    filled stops at the references of the tokens before the offending one,
    no TileDef is built from it, and New hands out no map together with an
    error. *)
Theorem csv_payload_all_or_error (L : Lib) (l : TileLayer.t) (d : Data.t) :
  TileLayer.RawData l = Some d ->
  Data.Encoding d = "csv"%string ->
  (forallb (numericToken L) (strings_Split (Data.RawBytes d) ",") = true ->
     decodeLayerData L l
     = Return (TileLayer.set_TileGlobalRefs
                 (TileLayer.TileGlobalRefs l
                  ++ map (refOfToken L) (strings_Split (Data.RawBytes d) ","))
                 l)
              None)
  /\ (forallb (numericToken L) (strings_Split (Data.RawBytes d) ",") = false ->
        exists l' e pre bad post,
          decodeLayerData L l = Return l' (Some e)
          /\ (forall receiver,
                TileLayer_UnmarshalXML L (Ok l) receiver
                = Return l' (Some (Errorf_ww (Sentinel ErrDecodingTileLayerData) e)))
          /\ strings_Split (Data.RawBytes d) "," = pre ++ bad :: post
          /\ forallb (numericToken L) pre = true
          /\ numericToken L bad = false
          /\ strconv_ParseUint (strings_TrimSpace L bad) 32 = Err e
          /\ TileLayer.TileGlobalRefs l'
             = TileLayer.TileGlobalRefs l ++ map (refOfToken L) pre
          /\ TileLayer.TileDefs l' = TileLayer.TileDefs l)
  /\ (forall path G,
        snd (fst (New L path G)) <> None -> fst (fst (New L path G)) = None).
Proof.
  intros Hd He. rewrite (decodeLayerData_csv L l d Hd He).
  split; [| split].
  - intros Hall.
    rewrite <- (set_TileGlobalRefs_same l) at 1.
    rewrite decode_csv_numeric by assumption. reflexivity.
  - intros Hbad.
    destruct (decode_csv_rejects L _ l [] Hbad)
      as [pre [bad [post [e [Hsplit [Hpre [Hno [Hparse Hrun]]]]]]]].
    rewrite set_TileGlobalRefs_same in Hrun.
    eexists. exists e, pre, bad, post. split; [exact Hrun |]. split.
    { intros receiver. unfold TileLayer_UnmarshalXML.
      rewrite (decodeLayerData_csv L l d Hd He), Hrun. reflexivity. }
    split; [exact Hsplit |]. split; [exact Hpre |]. split; [exact Hno |].
    split; [exact Hparse |].
    split; destruct l; reflexivity.
  - intros path G. apply New_error_no_map.
Qed.

Lemma csv_payload_all_or_error_witness :
  decodeLayerData Sample.world (Sample.layer "w" 2 2 (Sample.csv "1, 2,3,4"))
  = Return (TileLayer.set_TileGlobalRefs
              [TileGlobalRef.mk 1; TileGlobalRef.mk 2; TileGlobalRef.mk 3;
               TileGlobalRef.mk 4]
              (Sample.layer "w" 2 2 (Sample.csv "1, 2,3,4")))
           None.
Proof.
  exact (proj1 (csv_payload_all_or_error Sample.world
                  (Sample.layer "w" 2 2 (Sample.csv "1, 2,3,4"))
                  (Data.mk "csv" "" "1, 2,3,4") eq_refl eq_refl)
               eq_refl).
Defined.

(** A payload with a token that is not a number, with a number too large
    for 32 bits, with a trailing comma, and an empty payload: each is
    rejected; the compression tag plays no part. *)
Example csv_rejected :
  (exists l' e,
     decodeLayerData Sample.world (Sample.layer "w" 2 2 (Sample.csv "1,2,x,4"))
     = Return l' (Some e))
  /\ (exists l' e,
        decodeLayerData Sample.world
          (Sample.layer "w" 2 2 (Sample.csv "1,4294967296"))
        = Return l' (Some e))
  /\ (exists l' e,
        decodeLayerData Sample.world (Sample.layer "w" 2 2 (Sample.csv "1,2,"))
        = Return l' (Some e))
  /\ (exists l' e,
        decodeLayerData Sample.world (Sample.layer "w" 2 2 (Sample.csv ""))
        = Return l' (Some e))
  /\ decodeLayerData Sample.world
       (Sample.layer "w" 2 1 (Some (Data.mk "csv" "zlib" "7,8")))
     = Return (TileLayer.set_TileGlobalRefs
                 [TileGlobalRef.mk 7; TileGlobalRef.mk 8]
                 (Sample.layer "w" 2 1 (Some (Data.mk "csv" "zlib" "7,8"))))
              None.
Proof.
  repeat split; try (eexists; eexists; reflexivity). 
Qed.

(** ** External references *)

Lemma string_eqb_false (a b : string) : a <> b -> (a =? b)%string = false.
Proof.
  intros H. apply String.eqb_neq. exact H.
Qed.

(** C8: a tileset element with a source reference and a nonzero
    FirstGlobalID, whose external document opens and decodes, ends with
    its own FirstGlobalID whatever the document assigned; the call returns
    no error exactly when the merged record has an image or one of its
    tiles has. *)
Theorem external_tileset_keeps_FirstGlobalID (L : Lib) (G : Globals)
    (tmp t : Tileset.t) (f : Reader) (doc : Tileset.t) :
  Tileset.Source tmp <> EmptyString ->
  Tileset.FirstGlobalID tmp <> 0 ->
  os_Open L (filepath_Join L (ResourcePath G) (Tileset.Source tmp)) = Ok f ->
  xml_Decode_Tileset L G f tmp = Ok doc ->
  exists t' err,
    Tileset_UnmarshalXML L G (Ok tmp) t = Return t' err
    /\ Tileset.FirstGlobalID t' = Tileset.FirstGlobalID tmp
    /\ (err = None
        <-> Tileset.HasImage doc = true
            \/ exists tiles image,
                 Tileset.Tiles doc = Some tiles
                 /\ firstTileImage tiles = Some image).
Proof.
  intros Hsrc Hgid Hopen Hdec. unfold Tileset_UnmarshalXML.
  rewrite (string_eqb_false _ _ Hsrc), Hopen, Hdec.
  destruct (Z.eqb_spec (Tileset.FirstGlobalID tmp) 0) as [E | _];
    [contradiction |].
  simpl negb. cbv iota.
  destruct doc as [fg src nm cl tw th sp mg tc co oa pr off img tt ws tiles tr].
  unfold Tileset.HasImage, Tileset.set_FirstGlobalID. simpl.
  destruct img as [img |].
  - eexists. eexists. split; [reflexivity |]. split; [reflexivity |].
    split; [intros _; left; reflexivity | reflexivity].
  - destruct tiles as [tiles |].
    + destruct (firstTileImage tiles) as [image |] eqn:Eimg.
      * eexists. eexists. split; [reflexivity |]. split; [reflexivity |].
        split; [| reflexivity].
        intros _. right. exists tiles, image. split; [reflexivity | assumption].
      * eexists. eexists. split; [reflexivity |]. split; [reflexivity |].
        split; [discriminate |].
        intros [H | [tiles' [image [Ht Hi]]]]; [discriminate |].
        injection Ht as <-. rewrite Eimg in Hi. discriminate.
    + eexists. eexists. split; [reflexivity |]. split; [reflexivity |].
      split; [discriminate |].
      intros [H | [tiles' [image [Ht _]]]]; discriminate.
Qed.

Lemma external_tileset_keeps_FirstGlobalID_witness :
  exists t' err,
    Tileset_UnmarshalXML Sample.world (mkGlobals "maps")
      (Ok (Sample.tileset 5 "tiles.tsx" "" None)) (Sample.tileset 0 "" "" None)
    = Return t' err
    /\ Tileset.FirstGlobalID t' = 5
    /\ (err = None
        <-> Tileset.HasImage
              (Sample.tilesDocument (Sample.tileset 5 "tiles.tsx" "" None)) = true
            \/ exists tiles image,
                 Tileset.Tiles
                   (Sample.tilesDocument (Sample.tileset 5 "tiles.tsx" "" None))
                 = Some tiles
                 /\ firstTileImage tiles = Some image).
Proof.
  refine (external_tileset_keeps_FirstGlobalID Sample.world (mkGlobals "maps")
            (Sample.tileset 5 "tiles.tsx" "" None) (Sample.tileset 0 "" "" None)
            (bytes_NewReader "tiles")
            (Sample.tilesDocument (Sample.tileset 5 "tiles.tsx" "" None))
            _ _ eq_refl eq_refl).
  - discriminate.
  - discriminate.
Defined.

(** An element with [firstgid="5"] and [source="tiles.tsx"], the document
    declaring [firstgid="1"]: the tileset starts at 5 and has the
    document's name and image. *)
Example external_tileset_5_over_1 :
  Tileset.FirstGlobalID
    (Sample.tilesDocument (Sample.tileset 5 "tiles.tsx" "" None)) = 1
  /\ Tileset_UnmarshalXML Sample.world (mkGlobals "maps")
       (Ok (Sample.tileset 5 "tiles.tsx" "" None)) (Sample.tileset 0 "" "" None)
     = Return (Sample.tileset 5 "tiles.tsx" "tiles"
                 (Some (Sample.image "tiles.png"))) None.
Proof.
  split; reflexivity.
Qed.

(** Every assignment of the merge reads the record it assigns to. *)
Lemma mergeObject_self (o : Object.t) : mergeObject o o = o.
Proof.
  destruct o as [id nm ty x y w h r vis tpl gid pr img pg pl tx pt el].
  unfold mergeObject. simpl.
  destruct (nm =? "")%string, (ty =? "")%string, (float32_is_zero x),
    (float32_is_zero y), (float32_is_zero w), (float32_is_zero h),
    (float32_is_zero r), vis, (gid =? 0), pr, img, pg, tx, pt, el;
    reflexivity.
Qed.

(** Whatever the template holds, an object that [Object.UnmarshalXML]
    returns without error is the element as decoded. *)
Lemma Object_UnmarshalXML_ignores_template (L : Lib) (G : Globals)
    (tmp o o' : Object.t) :
  Object_UnmarshalXML L G (Ok tmp) o = Return o' None -> o' = tmp.
Proof.
  unfold Object_UnmarshalXML.
  destruct (Object.Template tmp =? "")%string.
  - intros H. injection H as <-. reflexivity.
  - destruct (os_Open L _) as [f | e]; [| discriminate].
    destruct (xml_Decode_Template L G f) as [template | e]; [| discriminate].
    rewrite mergeObject_self. intros H. injection H as <-. reflexivity.
Qed.

(** C2, at an object without a name whose template declares
    [name="Default"]: the template opens and decodes, the call returns no
    error, and the object's name is still empty; an object named "Custom"
    keeps its name. *)
Theorem template_name_not_adopted :
  os_Open Sample.world
    (filepath_Join Sample.world "maps" "default.tx")
  = Ok (bytes_NewReader "default")
  /\ xml_Decode_Template Sample.world (mkGlobals "maps") (bytes_NewReader "default")
     = Ok (Template.mk None (Some (Sample.object "Default" "")))
  /\ (exists o',
        Object_UnmarshalXML Sample.world (mkGlobals "maps")
          (Ok (Sample.object "" "default.tx")) (Sample.object "" "")
        = Return o' None
        /\ Object.Name o' = EmptyString)
  /\ (exists o',
        Object_UnmarshalXML Sample.world (mkGlobals "maps")
          (Ok (Sample.object "Custom" "default.tx")) (Sample.object "" "")
        = Return o' None
        /\ Object.Name o' = "Custom"%string).
Proof.
  split; [reflexivity |]. split; [reflexivity |].
  split; eexists; split; reflexivity.
Qed.

(** C3 as stated does not hold: the same tileset element resolves
    differently under two values of [ResourcePath]. *)
Lemma resolution_reads_ResourcePath :
  ~ (forall (L : Lib) (G1 G2 : Globals) (decoded : result Tileset.t)
            (t : Tileset.t),
       Tileset_UnmarshalXML L G1 decoded t = Tileset_UnmarshalXML L G2 decoded t).
Proof.
  intros H.
  specialize (H Sample.world (mkGlobals "maps") (mkGlobals "elsewhere")
                (Ok (Sample.tileset 5 "tiles.tsx" "" None))
                (Sample.tileset 0 "" "" None)).
  vm_compute in H. discriminate H.
Qed.

(** C3, amended: the document opened for a reference is the one at
    filepath.Join(ResourcePath, reference), ResourcePath being the package
    variable; resolutions under the same value of ResourcePath agree.  New
    assigns filepath.Dir(path) to ResourcePath before it decodes, so what
    New returns does not depend on the value ResourcePath held before the
    call, and a map is returned only with ResourcePath left at
    filepath.Dir(path). *)
Theorem New_assigns_ResourcePath (L : Lib) (path : string) (G1 G2 : Globals) :
  fst (New L path G1) = fst (New L path G2)
  /\ (snd (New L path G1) = G1
      \/ snd (New L path G1) = mkGlobals (filepath_Dir L path))
  /\ (forall m,
        fst (fst (New L path G1)) = Some m ->
        snd (New L path G1) = mkGlobals (filepath_Dir L path)
        /\ exists buf,
             xml_Unmarshal_Map L (mkGlobals (filepath_Dir L path)) buf = (m, None))
  /\ (forall decoded t,
        ResourcePath G1 = ResourcePath G2 ->
        Tileset_UnmarshalXML L G1 decoded t = Tileset_UnmarshalXML L G2 decoded t)
  /\ (forall decoded o,
        ResourcePath G1 = ResourcePath G2 ->
        Object_UnmarshalXML L G1 decoded o = Object_UnmarshalXML L G2 decoded o)
  /\ (forall tmp t,
        Tileset.Source tmp <> EmptyString ->
        forall e,
          os_Open L (filepath_Join L (ResourcePath G1) (Tileset.Source tmp)) = Err e ->
          Tileset_UnmarshalXML L G1 (Ok tmp) t
          = Return tmp (Some (Errorf_msg_w "failed to open Tileset file" e))).
Proof.
  split; [| split; [| split; [| split; [| split]]]].
  - unfold New. destruct (path =? "")%string; [reflexivity |].
    destruct (os_Open L path) as [f | e]; [| reflexivity].
    destruct (io_ReadAll f) as [buf | e]; [| reflexivity].
    destruct (xml_Unmarshal_Map L _ buf) as [m [e |]]; reflexivity.
  - unfold New. destruct (path =? "")%string; [left; reflexivity |].
    destruct (os_Open L path) as [f | e]; [| left; reflexivity].
    destruct (io_ReadAll f) as [buf | e]; [| left; reflexivity].
    destruct (xml_Unmarshal_Map L _ buf) as [m [e |]]; right; reflexivity.
  - intros m. unfold New. destruct (path =? "")%string; [discriminate |].
    destruct (os_Open L path) as [f | e]; [| discriminate].
    destruct (io_ReadAll f) as [buf | e]; [| discriminate].
    destruct (xml_Unmarshal_Map L _ buf) as [m' [e |]] eqn:E; simpl;
      [discriminate |].
    intros H. injection H as <-. split; [reflexivity |].
    exists buf. exact E.
  - intros decoded t HG. destruct G1, G2. simpl in HG. subst. reflexivity.
  - intros decoded o HG. destruct G1, G2. simpl in HG. subst. reflexivity.
  - intros tmp t Hsrc e Hopen. unfold Tileset_UnmarshalXML.
    rewrite (string_eqb_false _ _ Hsrc), Hopen. reflexivity.
Qed.

(** * Further properties *)

(** ** Orientation flags and local IDs *)

Lemma land_pow2_eqb (g k : Z) :
  0 <= k -> (Z.land g (2 ^ k) =? 0) = negb (Z.testbit g k).
Proof.
  intros Hk. destruct (Z.testbit g k) eqn:E; simpl.
  - apply Z.eqb_neq. intros H.
    assert (B : Z.testbit (Z.land g (2 ^ k)) k = true).
    { rewrite Z.land_spec, E, Z.pow2_bits_true by lia. reflexivity. }
    rewrite H, Z.bits_0 in B. discriminate.
  - apply Z.eqb_eq. apply Z.bits_inj'. intros i Hi.
    rewrite Z.land_spec, Z.bits_0, Z.pow2_bits_eqb by lia.
    destruct (Z.eqb_spec k i) as [<- | _].
    + rewrite E. reflexivity.
    + apply andb_false_r.
Qed.

Lemma IsFlipped_testbit (g : Z) :
  IsFlippedHorizontally g = Z.testbit g 31
  /\ IsFlippedVertically g = Z.testbit g 30
  /\ IsFlippedDiagonally g = Z.testbit g 29.
Proof.
  unfold IsFlippedHorizontally, IsFlippedVertically, IsFlippedDiagonally.
  change TileFlippedHorizontally with (2 ^ 31).
  change TileFlippedVertically with (2 ^ 30).
  change TileFlippedDiagonally with (2 ^ 29).
  rewrite !land_pow2_eqb, !negb_involutive by lia.
  repeat split.
Qed.

Lemma BareID_small (n : Z) : 0 <= n < 2 ^ 29 -> BareID n = n.
Proof.
  intros Hn. change (BareID n) with (BareID (withFlags false false false n)).
  apply BareID_withFlags. assumption.
Qed.

(** X1: the three flip tests read one bit each, so a GlobalID made of a
    bare ID below 2^29 and any choice of flags reports exactly the flags
    chosen, and the flags never change the bare ID. *)
Theorem flip_flags_are_independent (n : Z) (h v d : bool) :
  0 <= n < 2 ^ 29 ->
  IsFlippedHorizontally (withFlags h v d n) = h
  /\ IsFlippedVertically (withFlags h v d n) = v
  /\ IsFlippedDiagonally (withFlags h v d n) = d
  /\ BareID (withFlags h v d n) = BareID n.
Proof.
  intros Hn.
  destruct (IsFlipped_testbit (withFlags h v d n)) as [-> [-> ->]].
  rewrite !withFlags_testbit by lia.
  rewrite !(small_testbit n) by lia.
  rewrite BareID_withFlags, BareID_small by assumption.
  destruct h, v, d; repeat split.
Qed.

Lemma flip_flags_are_independent_witness :
  IsFlippedHorizontally (withFlags true false false 5) = true
  /\ IsFlippedVertically (withFlags true false false 5) = false
  /\ IsFlippedDiagonally (withFlags true false false 5) = false
  /\ BareID (withFlags true false false 5) = BareID 5.
Proof.
  apply (flip_flags_are_independent 5 true false false). lia.
Defined.

(** ** The scan and the builder, beyond sorted tilesets *)

Lemma findTileset_from_candidate (b : Z) (tss : Tilesets) (a : Tileset.t) :
  exists t, findTileset b tss (Some a) = Some t.
Proof.
  revert a. induction tss as [| t rest IH]; intros a.
  - exists a. reflexivity.
  - simpl. destruct (b <? uint32 (Tileset.FirstGlobalID t)).
    + exists a. reflexivity.
    + apply IH.
Qed.

Lemma findTileset_result (b : Z) (tss : Tilesets) (acc : option Tileset.t)
    (t : Tileset.t) :
  findTileset b tss acc = Some t ->
  acc = Some t \/ (In t tss /\ uint32 (Tileset.FirstGlobalID t) <= b).
Proof.
  revert acc. induction tss as [| t0 rest IH]; intros acc H.
  - left. exact H.
  - simpl in H.
    destruct (Z.ltb_spec b (uint32 (Tileset.FirstGlobalID t0))) as [Hlt | Hge].
    + left. exact H.
    + apply IH in H. destruct H as [H | [Hin Hle]].
      * injection H as <-. right. split; [left; reflexivity | assumption].
      * right. split; [right; assumption | assumption].
Qed.

(** X2: whether a bare ID finds a tileset depends on the first tileset
    alone: the scan finds none exactly when there is no tileset or the
    bare ID is below the first tileset's start.  Every bare ID from that
    start on is given a tileset, whatever the tile counts. *)
Theorem findTileset_fails_below_first_start (b : Z) (tss : Tilesets) :
  (findTileset b tss None = None
   <-> tss = []
       \/ exists t rest,
            tss = t :: rest /\ b < uint32 (Tileset.FirstGlobalID t))
  /\ (forall t rest,
        tss = t :: rest ->
        uint32 (Tileset.FirstGlobalID t) <= b ->
        exists ts,
          findTileset b tss None = Some ts
          /\ In ts tss
          /\ uint32 (Tileset.FirstGlobalID ts) <= b).
Proof.
  split.
  - destruct tss as [| t rest].
    + split; [intros _; left; reflexivity | reflexivity].
    + simpl.
      destruct (Z.ltb_spec b (uint32 (Tileset.FirstGlobalID t))) as [Hlt | Hge].
      * split; [| reflexivity].
        intros _. right. exists t, rest. split; [reflexivity | assumption].
      * destruct (findTileset_from_candidate b rest t) as [ts E]. rewrite E.
        split; [discriminate |].
        intros [H | [t' [rest' [H Hlt]]]]; [discriminate |].
        injection H as <- <-. lia.
  - intros t rest -> Hle. simpl.
    destruct (Z.ltb_spec b (uint32 (Tileset.FirstGlobalID t))) as [Hlt | _];
      [lia |].
    destruct (findTileset_from_candidate b rest t) as [ts E].
    exists ts. split; [exact E |].
    apply findTileset_result in E. destruct E as [E | [Hin Hle']].
    + injection E as <-. split; [left; reflexivity | assumption].
    + split; [right; assumption | assumption].
Qed.

(** What [decodeTileDef] builds for a reference with a bare ID other
    than 0. *)
Lemma decodeTileDef_built (tss : Tilesets) (tgr : TileGlobalRef.t)
    (td : TileDef.t) :
  BareID (TileGlobalRef.GlobalID tgr) <> 0 ->
  decodeTileDef (Some tss) tgr = Return (Some td) None ->
  exists ts,
    findTileset (BareID (TileGlobalRef.GlobalID tgr)) tss None = Some ts
    /\ td = TileDef.mk false
              (GlobalID_TileID (TileGlobalRef.GlobalID tgr) ts)
              (TileGlobalRef.GlobalID tgr) (Some ts)
              match Tileset.Tiles ts with
              | Some tiles =>
                  Tiles_WithID tiles
                    (GlobalID_TileID (TileGlobalRef.GlobalID tgr) ts)
              | None => None
              end
              (IsFlippedHorizontally (TileGlobalRef.GlobalID tgr))
              (IsFlippedVertically (TileGlobalRef.GlobalID tgr))
              (IsFlippedDiagonally (TileGlobalRef.GlobalID tgr)).
Proof.
  intros Hb H. destruct tgr as [g]. simpl in *.
  rewrite decodeTileDef_nonzero in H by assumption.
  destruct (findTileset (BareID g) tss None) as [ts |]; [| discriminate].
  exists ts. split; [reflexivity |]. injection H as <-. reflexivity.
Qed.

(** X3: a TileDef built for a reference with a bare ID other than 0 is
    not nil, keeps the reference's GlobalID with its flags, points to a
    tileset of the collection that starts at or below the bare ID, and its
    local ID is the bare ID less that start, without wrap-around: start
    plus local ID is the bare ID again. *)
Theorem TileDef_local_id (tss : Tilesets) (g : GlobalID) (td : TileDef.t) :
  Forall wellFormedTileset tss ->
  BareID g <> 0 ->
  decodeTileDef (Some tss) (TileGlobalRef.mk g) = Return (Some td) None ->
  exists ts,
    TileDef.TileSet td = Some ts
    /\ In ts tss
    /\ Tileset.FirstGlobalID ts <= BareID g
    /\ TileDef.ID td = BareID g - Tileset.FirstGlobalID ts
    /\ Tileset.FirstGlobalID ts + TileDef.ID td = BareID g
    /\ 0 <= TileDef.ID td < 2 ^ 29
    /\ TileDef.Nil td = false
    /\ TileDef.GlobalID td = g
    /\ TileDef.HorizontallyFlipped td = Z.testbit g 31
    /\ TileDef.VerticallyFlipped td = Z.testbit g 30
    /\ TileDef.DiagonallyFlipped td = Z.testbit g 29.
Proof.
  intros Hwf Hb H.
  destruct (decodeTileDef_built tss (TileGlobalRef.mk g) td Hb H)
    as [ts [Hfind ->]].
  simpl in Hfind. simpl.
  apply findTileset_result in Hfind. destruct Hfind as [E | [Hin Hle]];
    [discriminate |].
  rewrite Forall_forall in Hwf. pose proof (Hwf ts Hin) as Hts.
  rewrite (uint32_wellFormed ts Hts) in Hle.
  pose proof (BareID_range g) as Hr. unfold wellFormedTileset in Hts.
  assert (Eid : GlobalID_TileID g ts = BareID g - Tileset.FirstGlobalID ts).
  { unfold GlobalID_TileID. rewrite (uint32_wellFormed ts (Hwf ts Hin)).
    unfold uint32. apply Z.mod_small. lia. }
  destruct (IsFlipped_testbit g) as [-> [-> ->]].
  exists ts. rewrite Eid.
  repeat split; try reflexivity; try assumption; lia.
Qed.

Lemma TileDef_local_id_witness :
  exists ts,
    TileDef.TileSet
      (TileDef.mk false 2 (withFlags true false false 12)
         (Some (Sample.tileset 10 "" "second" (Some (Sample.image "b.png"))))
         None true false false) = Some ts
    /\ In ts Sample.tilesets
    /\ Tileset.FirstGlobalID ts <= BareID (withFlags true false false 12).
Proof.
  destruct (TileDef_local_id Sample.tilesets (withFlags true false false 12)
              (TileDef.mk false 2 (withFlags true false false 12)
                 (Some (Sample.tileset 10 "" "second"
                          (Some (Sample.image "b.png"))))
                 None true false false)
              Sample_tilesets_wellFormed
              ltac:(vm_compute; discriminate) eq_refl)
    as [ts [H1 [H2 [H3 _]]]].
  exists ts. split; [exact H1 |]. split; [exact H2 | exact H3].
Defined.

(** The loop of the builder, whatever its end: the references before the
    one that ends it have each given a TileDef, in order. *)
Lemma decodeTileDefs_loop_spec (tss : option Tilesets)
    (refs : list TileGlobalRef.t) (l : TileLayer.t) :
  match decodeTileDefs_loop tss refs l with
  | Return l' None =>
      exists defs,
        Forall2 (fun tgr td => decodeTileDef tss tgr = Return (Some td) None)
                refs defs
        /\ l' = TileLayer.set_TileGlobalRefs []
                  (TileLayer.set_TileDefs (TileLayer.TileDefs l ++ defs) l)
  | Return l' (Some e) =>
      exists pre bad post defs,
        refs = pre ++ bad :: post
        /\ Forall2 (fun tgr td => decodeTileDef tss tgr = Return (Some td) None)
                   pre defs
        /\ decodeTileDef tss bad = Return None (Some e)
        /\ l' = TileLayer.set_TileDefs (TileLayer.TileDefs l ++ defs) l
  | Panics =>
      exists pre bad post,
        refs = pre ++ bad :: post /\ decodeTileDef tss bad = Panics
  end.
Proof.
  revert l. induction refs as [| tgr rest IH]; intros l.
  - simpl. exists []. split; [constructor |].
    rewrite app_nil_r. destruct l; reflexivity.
  - simpl.
    destruct (decodeTileDef_cases tss tgr) as [E | [[td E] | [e E]]];
      rewrite E.
    + exists [], tgr, rest. split; [reflexivity | exact E].
    + specialize (IH (TileLayer.set_TileDefs (TileLayer.TileDefs l ++ [td]) l)).
      destruct (decodeTileDefs_loop tss rest _) as [l' [e |] |].
      * destruct IH as [pre [bad [post [defs [-> [Hpre [Hbad ->]]]]]]].
        exists (tgr :: pre), bad, post, (td :: defs).
        split; [reflexivity |]. split; [constructor; assumption |].
        split; [exact Hbad |].
        rewrite set_TileDefs_app. reflexivity.
      * destruct IH as [defs [Hall ->]].
        exists (td :: defs). split; [constructor; assumption |].
        rewrite set_TileDefs_app. reflexivity.
      * destruct IH as [pre [bad [post [-> Hbad]]]].
        exists (tgr :: pre), bad, post. split; [reflexivity | exact Hbad].
    + exists [], tgr, rest, []. split; [reflexivity |].
      split; [constructor |]. split; [exact E |].
      rewrite app_nil_r. destruct l; reflexivity.
Qed.

Lemma decodeTileDef_never_panics (tss : Tilesets) (tgr : TileGlobalRef.t) :
  decodeTileDef (Some tss) tgr <> Panics.
Proof.
  unfold decodeTileDef.
  destruct (BareID (TileGlobalRef.GlobalID tgr) =? 0); [discriminate |].
  destruct (findTileset _ tss None); discriminate.
Qed.

Lemma decodeTileDef_error (tss : option Tilesets) (tgr : TileGlobalRef.t)
    (e : error) :
  decodeTileDef tss tgr = Return None (Some e) ->
  e = Errorf_w (Sentinel ErrNoSuitableTileset)
               (WithGlobalID (TileGlobalRef.GlobalID tgr))
  /\ BareID (TileGlobalRef.GlobalID tgr) <> 0.
Proof.
  unfold decodeTileDef.
  destruct (Z.eqb_spec (BareID (TileGlobalRef.GlobalID tgr)) 0) as [E | Hne];
    [discriminate |].
  destruct tss as [tilesets |]; [| discriminate].
  destruct (findTileset _ tilesets None); [discriminate |].
  intros H. injection H as <-. split; [reflexivity | assumption].
Qed.

Lemma Forall2_at {A B : Type} (R : A -> B -> Prop) (xs : list A)
    (ys : list B) (i : nat) (x : A) :
  Forall2 R xs ys ->
  nth_error xs i = Some x ->
  exists y, nth_error ys i = Some y /\ R x y.
Proof.
  intros H. revert i. induction H as [| x0 y0 xs ys H0 H IH]; intros i Hi.
  - destruct i; discriminate.
  - destruct i as [| i].
    + simpl in Hi. injection Hi as <-. exists y0. split; [reflexivity | exact H0].
    + simpl in Hi. simpl. apply IH. exact Hi.
Qed.

(** X4: the TileDefs the builder appends follow the references one for
    one and in order: the i-th new TileDef is what the i-th reference
    resolves to, nil for a bare ID of 0. *)
Theorem decodeTileDefs_in_order (l l' : TileLayer.t) (tss : option Tilesets) :
  decodeTileDefs l tss = Return l' None ->
  exists defs,
    TileLayer.TileDefs l' = TileLayer.TileDefs l ++ defs
    /\ List.length defs = List.length (TileLayer.TileGlobalRefs l)
    /\ forall i tgr,
         nth_error (TileLayer.TileGlobalRefs l) i = Some tgr ->
         exists td,
           nth_error defs i = Some td
           /\ decodeTileDef tss tgr = Return (Some td) None
           /\ (BareID (TileGlobalRef.GlobalID tgr) = 0 -> td = nilTileDef)
           /\ (BareID (TileGlobalRef.GlobalID tgr) <> 0 ->
                 TileDef.Nil td = false
                 /\ TileDef.GlobalID td = TileGlobalRef.GlobalID tgr).
Proof.
  unfold decodeTileDefs. intros H.
  pose proof (decodeTileDefs_loop_spec tss (TileLayer.TileGlobalRefs l) l) as S.
  rewrite H in S. destruct S as [defs [Hall ->]].
  exists defs. split; [destruct l; reflexivity |].
  split; [symmetry; eapply Forall2_length; exact Hall |].
  intros i tgr Hi.
  destruct (Forall2_at _ _ _ i tgr Hall Hi) as [td [Hnth H0]].
  exists td. split; [exact Hnth |]. split; [exact H0 |]. split.
  - intros Hz. destruct tgr as [g]. simpl in Hz.
    rewrite (decodeTileDef_zero tss g Hz) in H0.
    injection H0 as <-. reflexivity.
  - intros Hnz. destruct tss as [tilesets |].
    + destruct (decodeTileDef_built tilesets tgr td Hnz H0) as [ts [_ ->]].
      split; reflexivity.
    + unfold decodeTileDef in H0.
      destruct (Z.eqb_spec (BareID (TileGlobalRef.GlobalID tgr)) 0);
        [contradiction | discriminate].
Qed.

Lemma decodeTileDefs_in_order_witness :
  exists defs,
    TileLayer.TileDefs
      (Sample.resolved
         (Sample.layer "pending" 3 1 (Sample.csv "1, 2147483648, 12"))
         Sample.tilesets)
    = TileLayer.TileDefs Sample.pending ++ defs
    /\ List.length defs = List.length (TileLayer.TileGlobalRefs Sample.pending).
Proof.
  destruct (decodeTileDefs_in_order Sample.pending
              (Sample.resolved
                 (Sample.layer "pending" 3 1 (Sample.csv "1, 2147483648, 12"))
                 Sample.tilesets)
              (Some Sample.tilesets) eq_refl) as [defs [H1 [H2 _]]].
  exists defs. split; assumption.
Defined.



Lemma decodeTileDefs_clears_refs_core (l l' : TileLayer.t)
    (tss : option Tilesets) :
  decodeTileDefs l tss = Return l' None -> TileLayer.TileGlobalRefs l' = [].
Proof.
  unfold decodeTileDefs. intros H.
  apply decodeTileDefs_loop_success in H. destruct H as [defs [_ ->]].
  reflexivity.
Qed.

(** X6: resolution is idempotent: a layer the builder has resolved holds
    no reference, so a further run, against any tilesets or none, returns
    it as it is. *)
Theorem decodeTileDefs_idempotent (l l' : TileLayer.t)
    (tss tss' : option Tilesets) :
  decodeTileDefs l tss = Return l' None ->
  decodeTileDefs l' tss' = Return l' None.
Proof.
  intros H. apply decodeTileDefs_clears_refs_core in H.
  unfold decodeTileDefs. rewrite H. simpl.
  destruct l'. simpl in H. subst. reflexivity.
Qed.

Lemma decodeTileDefs_idempotent_witness :
  decodeTileDefs
    (Sample.resolved
       (Sample.layer "pending" 3 1 (Sample.csv "1, 2147483648, 12"))
       Sample.tilesets)
    None
  = Return
      (Sample.resolved
         (Sample.layer "pending" 3 1 (Sample.csv "1, 2147483648, 12"))
         Sample.tilesets)
      None.
Proof.
  exact (decodeTileDefs_idempotent Sample.pending _ (Some Sample.tilesets) None
           eq_refl).
Defined.

(** ** Lookups *)

Lemma Tiles_WithID_spec (tl : Tiles) (id : TileID) :
  match Tiles_WithID tl id with
  | Some t =>
      exists pre post,
        tl = pre ++ t :: post
        /\ Tile.TileID t = id
        /\ Forall (fun x => Tile.TileID x <> id) pre
  | None => Forall (fun x => Tile.TileID x <> id) tl
  end.
Proof.
  induction tl as [| t rest IH].
  - constructor.
  - simpl. destruct (Z.eqb_spec (Tile.TileID t) id) as [E | Hne].
    + exists [], rest. split; [reflexivity |]. split; [exact E | constructor].
    + destruct (Tiles_WithID rest id) as [t' |].
      * destruct IH as [pre [post [-> [E Hpre]]]].
        exists (t :: pre), post. split; [reflexivity |].
        split; [exact E | constructor; assumption].
      * constructor; assumption.
Qed.

(** X7: the tile a TileDef carries is the first tile of its tileset
    whose TileID is the TileDef's local ID; it carries none exactly when
    the tileset declares no tiles or no tile with that ID, and that is no
    error. *)
Theorem TileDef_tile_lookup (tss : Tilesets) (g : GlobalID) (td : TileDef.t) :
  BareID g <> 0 ->
  decodeTileDef (Some tss) (TileGlobalRef.mk g) = Return (Some td) None ->
  exists ts,
    TileDef.TileSet td = Some ts
    /\ match TileDef.Tile td with
       | Some tile =>
           exists tiles pre post,
             Tileset.Tiles ts = Some tiles
             /\ tiles = pre ++ tile :: post
             /\ Tile.TileID tile = TileDef.ID td
             /\ Forall (fun x => Tile.TileID x <> TileDef.ID td) pre
       | None =>
           Tileset.Tiles ts = None
           \/ exists tiles,
                Tileset.Tiles ts = Some tiles
                /\ Forall (fun x => Tile.TileID x <> TileDef.ID td) tiles
       end.
Proof.
  intros Hb H.
  destruct (decodeTileDef_built tss (TileGlobalRef.mk g) td Hb H)
    as [ts [_ ->]].
  exists ts. split; [reflexivity |]. simpl.
  destruct (Tileset.Tiles ts) as [tiles |]; [| left; reflexivity].
  pose proof (Tiles_WithID_spec tiles (GlobalID_TileID g ts)) as S.
  destruct (Tiles_WithID tiles (GlobalID_TileID g ts)) as [tile |].
  - destruct S as [pre [post [E [Hid Hpre]]]].
    exists tiles, pre, post. repeat split; assumption.
  - right. exists tiles. split; [reflexivity | exact S].
Qed.

Lemma TileDef_tile_lookup_witness :
  exists ts,
    TileDef.TileSet
      (TileDef.mk false 6 16 (Some Fixture.tiled)
         (Some (Fixture.tile 6 None)) false false false) = Some ts
    /\ exists tiles pre post,
         Tileset.Tiles ts = Some tiles
         /\ tiles = pre ++ Fixture.tile 6 None :: post
         /\ Tile.TileID (Fixture.tile 6 None) = 6
         /\ Forall (fun x => Tile.TileID x <> 6) pre.
Proof.
  exact (TileDef_tile_lookup [Fixture.tiled] 16
           (TileDef.mk false 6 16 (Some Fixture.tiled)
              (Some (Fixture.tile 6 None)) false false false)
           ltac:(vm_compute; discriminate) eq_refl).
Defined.

(** X8: each WithName method (of TileLayers, Tilesets, Properties,
    Objects, ObjectLayers, ImageLayers and Groups) returns the first
    element of the slice with the name asked for, so that a later element
    of the same name is never returned, and nil exactly when no element
    has that name. *)
Theorem WithName_first_match {A : Type} (Name : A -> string) (l : list A)
    (name : string) :
  (forall t,
     WithName Name l name = Some t
     <-> exists pre post,
           l = pre ++ t :: post
           /\ Name t = name
           /\ Forall (fun x => Name x <> name) pre)
  /\ (WithName Name l name = None <-> Forall (fun x => Name x <> name) l)
  /\ TileLayers_WithName = WithName TileLayer.Name
  /\ Tilesets_WithName = WithName Tileset.Name
  /\ Properties_WithName = WithName Property.Name
  /\ Objects_WithName = WithName Object.Name
  /\ ObjectLayers_WithName = WithName ObjectLayer.Name
  /\ ImageLayers_WithName = WithName ImageLayer.Name
  /\ Groups_WithName = WithName Group.Name.
Proof.
  split; [| split; [| repeat split]].
  - induction l as [| x rest IH]; intros t.
    + simpl. split; [discriminate |].
      intros [pre [post [H _]]]. destruct pre; discriminate.
    + simpl. destruct (String.eqb_spec (Name x) name) as [E | Hne].
      * split.
        -- intros H. injection H as <-. exists [], rest.
           split; [reflexivity |]. split; [exact E | constructor].
        -- intros [pre [post [H [Ht Hpre]]]].
           destruct pre as [| p pre].
           ++ injection H as <- _. reflexivity.
           ++ injection H as <- _. apply Forall_inv in Hpre. contradiction.
      * rewrite IH. split.
        -- intros [pre [post [-> [Ht Hpre]]]]. exists (x :: pre), post.
           split; [reflexivity |]. split; [exact Ht |].
           constructor; assumption.
        -- intros [pre [post [H [Ht Hpre]]]].
           destruct pre as [| p pre].
           ++ injection H as <- _. contradiction.
           ++ injection H as <- ->. apply Forall_inv_tail in Hpre.
              exists pre, post. split; [reflexivity |]. split; assumption.
  - induction l as [| x rest IH].
    + simpl. split; [constructor | reflexivity].
    + simpl. destruct (String.eqb_spec (Name x) name) as [E | Hne].
      * split; [discriminate |]. intros H. apply Forall_inv in H.
        contradiction.
      * rewrite IH. split.
        -- intros H. constructor; assumption.
        -- intros H. apply Forall_inv_tail in H. assumption.
Qed.

(** ** The layer tree walker *)

Lemma forEach_success {A : Type} (f : A -> outcome A) (xs ys : list A) :
  forEach f xs = Return ys None ->
  Forall2 (fun x y => f x = Return y None) xs ys.
Proof.
  revert ys. induction xs as [| x rest IH]; intros ys H.
  - simpl in H. injection H as <-. constructor.
  - simpl in H. destruct (f x) as [x' [e |] |] eqn:E; try discriminate.
    fold (forEach f) in H.
    destruct (forEach f rest) as [rest' err |]; [| discriminate].
    injection H as <- ->. constructor; [exact E | apply IH; reflexivity].
Qed.

Lemma forEach_failure {A : Type} (f : A -> outcome A) (xs ys : list A)
    (e : error) :
  forEach f xs = Return ys (Some e) ->
  exists x x', In x xs /\ f x = Return x' (Some e).
Proof.
  revert ys. induction xs as [| x rest IH]; intros ys H.
  - discriminate.
  - simpl in H. destruct (f x) as [x' [e' |] |] eqn:E; try discriminate.
    + injection H as _ <-. exists x, x'. split; [left; reflexivity | exact E].
    + fold (forEach f) in H.
      destruct (forEach f rest) as [rest' err |] eqn:Er; [| discriminate].
      injection H as _ ->.
      destruct (IH rest' eq_refl) as [y [y' [Hin Hy]]].
      exists y, y'. split; [right; exact Hin | exact Hy].
Qed.

Lemma forEach_panic {A : Type} (f : A -> outcome A) (xs : list A) :
  forEach f xs = Panics -> exists x, In x xs /\ f x = Panics.
Proof.
  induction xs as [| x rest IH]; intros H.
  - discriminate.
  - simpl in H. destruct (f x) as [x' [e' |] |] eqn:E; try discriminate.
    + fold (forEach f) in H.
      destruct (forEach f rest) as [rest' err |] eqn:Er; [discriminate |].
      destruct (IH eq_refl) as [y [Hin Hy]].
      exists y. split; [right; exact Hin | exact Hy].
    + exists x. split; [left; reflexivity | exact E].
Qed.

Lemma forEach_Forall2_complete {A : Type} (f : A -> outcome A)
    (xs ys : list A) :
  Forall2 (fun x y => f x = Return y None) xs ys ->
  forEach f xs = Return ys None.
Proof.
  intros H. induction H as [| x y xs ys E H IH].
  - reflexivity.
  - simpl. rewrite E. fold (forEach f). rewrite IH. reflexivity.
Qed.

(** Induction over a group tree: a property holds of every group once it
    holds of a group whose subgroups have it. *)
Lemma Group_tree_ind (P : Group.t -> Prop) :
  (forall g,
     (forall gl, Group.Groups g = Some gl -> Forall P gl) -> P g) ->
  forall g, P g.
Proof.
  intros H. fix IH 1. intros g. apply H.
  destruct g as [id name class opacity visible ox oy px py tint props
                 layers objects images groups].
  simpl. intros gl E. destruct groups as [gl0 |]; [| discriminate].
  injection E as <-.
  induction gl0 as [| g0 rest IHl].
  - constructor.
  - constructor; [apply IH | exact IHl].
Qed.

Lemma decodeTileDefs_loop_complete (tss : option Tilesets)
    (refs : list TileGlobalRef.t) (defs : list TileDef.t) (l : TileLayer.t) :
  Forall2 (fun tgr td => decodeTileDef tss tgr = Return (Some td) None)
          refs defs ->
  decodeTileDefs_loop tss refs l
  = Return (TileLayer.set_TileGlobalRefs []
              (TileLayer.set_TileDefs (TileLayer.TileDefs l ++ defs) l)) None.
Proof.
  intros H. revert l. induction H as [| tgr td refs defs E H IH]; intros l.
  - simpl. rewrite app_nil_r. destruct l; reflexivity.
  - simpl. rewrite E, IH, set_TileDefs_app. reflexivity.
Qed.

Lemma decodeTileDefs_resolvedFrom (l l' : TileLayer.t) (tss : option Tilesets) :
  decodeTileDefs l tss = Return l' None <-> resolvedFrom tss l l'.
Proof.
  unfold decodeTileDefs, resolvedFrom. split.
  - intros H.
    pose proof (decodeTileDefs_loop_spec tss (TileLayer.TileGlobalRefs l) l) as S.
    rewrite H in S. exact S.
  - intros [defs [Hall ->]]. apply decodeTileDefs_loop_complete. exact Hall.
Qed.

Lemma forEach_succeeds_iff {A : Type} (f : A -> outcome A) (xs : list A) :
  (exists ys, forEach f xs = Return ys None)
  <-> Forall (fun x => exists y, f x = Return y None) xs.
Proof.
  split.
  - intros [ys H]. apply forEach_success in H.
    induction H as [| x y xs ys E H IH]; constructor; [exists y; exact E | exact IH].
  - intros H. induction H as [| x xs [y E] H [ys IH]].
    + exists []. reflexivity.
    + exists (y :: ys). simpl. rewrite E. fold (forEach f). rewrite IH.
      reflexivity.
Qed.

Lemma flat_map_Forall2 {A B : Type} (R : B -> B -> Prop) (F : A -> list B)
    (Q : A -> A -> Prop) (xs ys : list A) :
  Forall2 Q xs ys ->
  (forall x y, In x xs -> Q x y -> Forall2 R (F x) (F y)) ->
  Forall2 R (flat_map F xs) (flat_map F ys).
Proof.
  intros H. induction H as [| x y xs ys HQ H IH]; intros HF.
  - constructor.
  - simpl. apply Forall2_app.
    + apply HF; [left; reflexivity | exact HQ].
    + apply IH. intros x' y' Hin. apply HF. right. exact Hin.
Qed.

Lemma decodeGroupTileDefs_group_eq (tss : option Tilesets) (g : Group.t) :
  decodeGroupTileDefs_group tss g
  = match ifNotNil (forEach (fun tl => decodeTileDefs tl tss))
                   (Group.TileLayers g) with
    | Panics => Panics
    | Return layers' (Some e) =>
        Return (Group.mk (Group.Id g) (Group.Name g) (Group.Class g)
                  (Group.Opacity g) (Group.Visible g) (Group.OffsetX g)
                  (Group.OffsetY g) (Group.ParallaxX g) (Group.ParallaxY g)
                  (Group.TintColor g) (Group.Properties g) layers'
                  (Group.ObjectLayers g) (Group.ImageLayers g)
                  (Group.Groups g)) (Some e)
    | Return layers' None =>
        match ifNotNil (forEach (decodeGroupTileDefs_group tss))
                       (Group.Groups g) with
        | Panics => Panics
        | Return groups' err =>
            Return (Group.mk (Group.Id g) (Group.Name g) (Group.Class g)
                      (Group.Opacity g) (Group.Visible g) (Group.OffsetX g)
                      (Group.OffsetY g) (Group.ParallaxX g) (Group.ParallaxY g)
                      (Group.TintColor g) (Group.Properties g) layers'
                      (Group.ObjectLayers g) (Group.ImageLayers g)
                      groups') err
        end
    end.
Proof.
  destruct g. reflexivity.
Qed.

Lemma Group_allTileLayers_eq (g : Group.t) :
  Group_allTileLayers g
  = orEmpty (Group.TileLayers g)
    ++ flat_map Group_allTileLayers (orEmpty (Group.Groups g)).
Proof.
  destruct g as [id name class opacity visible ox oy px py tint props
                 layers objects images groups].
  simpl. destruct groups; reflexivity.
Qed.

Lemma ifNotNil_success {A : Type} (f : list A -> outcome (list A))
    (p p' : option (list A)) :
  ifNotNil f p = Return p' None ->
  (p = None /\ p' = None)
  \/ exists l l', p = Some l /\ p' = Some l' /\ f l = Return l' None.
Proof.
  destruct p as [l |]; simpl.
  - destruct (f l) as [l' err |] eqn:E; [| discriminate].
    intros H. injection H as <- ->. right. exists l, l'. auto.
  - intros H. injection H as <-. left. auto.
Qed.

Lemma layers_resolvedFrom (tss : option Tilesets) (p p' : option TileLayers) :
  ifNotNil (forEach (fun tl => decodeTileDefs tl tss)) p = Return p' None ->
  Forall2 (resolvedFrom tss) (orEmpty p) (orEmpty p').
Proof.
  intros H. apply ifNotNil_success in H.
  destruct H as [[-> ->] | [l [l' [-> [-> H]]]]]; [constructor |].
  apply forEach_success in H. simpl.
  induction H as [| x y xs ys E H IH]; constructor; [| exact IH].
  apply decodeTileDefs_resolvedFrom. exact E.
Qed.

Lemma group_resolvedFrom (tss : option Tilesets) (g : Group.t) :
  forall g',
    decodeGroupTileDefs_group tss g = Return g' None ->
    Forall2 (resolvedFrom tss) (Group_allTileLayers g) (Group_allTileLayers g').
Proof.
  induction g as [g IHg] using Group_tree_ind. intros g' H.
  rewrite decodeGroupTileDefs_group_eq in H.
  destruct (ifNotNil (forEach (fun tl => decodeTileDefs tl tss))
                     (Group.TileLayers g)) as [layers' [e |] |] eqn:El;
    try discriminate.
  destruct (ifNotNil (forEach (decodeGroupTileDefs_group tss)) (Group.Groups g))
    as [groups' err |] eqn:Eg; [| discriminate].
  injection H as <- ->.
  rewrite (Group_allTileLayers_eq g), Group_allTileLayers_eq. simpl.
  apply Forall2_app; [apply layers_resolvedFrom; exact El |].
  apply ifNotNil_success in Eg.
  destruct Eg as [[-> ->] | [gl [gl' [Egl [-> Hgl]]]]]; [constructor |].
  rewrite Egl. simpl. apply forEach_success in Hgl.
  eapply flat_map_Forall2; [exact Hgl |].
  intros x y Hin Hxy. specialize (IHg gl Egl).
  rewrite Forall_forall in IHg. apply (IHg x Hin). exact Hxy.
Qed.

Lemma resolvedFrom_no_refs (tss : option Tilesets) (l l' : TileLayer.t) :
  resolvedFrom tss l l' -> TileLayer.TileGlobalRefs l' = [].
Proof.
  intros [defs [_ ->]]. reflexivity.
Qed.

Lemma Forall2_right {A B : Type} (R : A -> B -> Prop) (P : B -> Prop)
    (xs : list A) (ys : list B) :
  (forall x y, R x y -> P y) -> Forall2 R xs ys -> Forall P ys.
Proof.
  intros HR H. induction H; constructor; eauto.
Qed.

(** X9: when decodeGroupTileDefs returns without error, every tile layer
    of the group tree, at any depth, has been resolved: taken depth first
    (a group's own layers, then its subgroups), the layers after the call
    are the layers before it with their references released and one
    TileDef appended per reference. *)
Theorem decodeGroupTileDefs_resolves_every_layer (gl gl' : option Groups)
    (tss : option Tilesets) :
  decodeGroupTileDefs gl tss = Return gl' None ->
  Forall2 (resolvedFrom tss) (Groups_allTileLayers gl) (Groups_allTileLayers gl')
  /\ Forall (fun l => TileLayer.TileGlobalRefs l = []) (Groups_allTileLayers gl')
  /\ List.length (Groups_allTileLayers gl') = List.length (Groups_allTileLayers gl).
Proof.
  intros H.
  assert (R : Forall2 (resolvedFrom tss)
                (Groups_allTileLayers gl) (Groups_allTileLayers gl')).
  { unfold decodeGroupTileDefs in H. apply ifNotNil_success in H.
    destruct H as [[-> ->] | [l [l' [-> [-> H]]]]]; [constructor |].
    unfold Groups_allTileLayers. simpl. apply forEach_success in H.
    eapply flat_map_Forall2; [exact H |].
    intros x y _ Hxy. apply group_resolvedFrom. exact Hxy. }
  split; [exact R |]. split.
  - eapply Forall2_right; [| exact R]. intros x y. apply resolvedFrom_no_refs.
  - symmetry. eapply Forall2_length. exact R.
Qed.

Lemma decodeGroupTileDefs_resolves_every_layer_witness :
  List.length
    (Groups_allTileLayers
       (match decodeGroupTileDefs (Some Fixture.tree) (Some Sample.tilesets) with
        | Return gl' _ => gl'
        | Panics => None
        end))
  = List.length (Groups_allTileLayers (Some Fixture.tree)).
Proof.
  exact (proj2 (proj2 (decodeGroupTileDefs_resolves_every_layer
                         (Some Fixture.tree) _ (Some Sample.tilesets) eq_refl))).
Defined.

(** Both layers of the sample tree, the nested one included, end without
    references and with their TileDefs. *)
Example tree_resolved :
  map (fun l => (TileLayer.Name l, List.length (TileLayer.TileGlobalRefs l),
                 List.length (TileLayer.TileDefs l)))
      (Groups_allTileLayers
         (match decodeGroupTileDefs (Some Fixture.tree) (Some Sample.tilesets) with
          | Return gl' _ => gl'
          | Panics => None
          end))
  = [("a"%string, 0%nat, 2%nat); ("b"%string, 0%nat, 1%nat)].
Proof.
  reflexivity.
Qed.

Lemma ifNotNil_forEach_succeeds_iff {A : Type} (f : A -> outcome A)
    (p : option (list A)) :
  (exists p', ifNotNil (forEach f) p = Return p' None)
  <-> Forall (fun x => exists y, f x = Return y None) (orEmpty p).
Proof.
  destruct p as [l |]; simpl.
  - rewrite <- forEach_succeeds_iff. split.
    + intros [p' H]. destruct (forEach f l) as [l' err |]; [| discriminate].
      injection H as _ ->. exists l'. reflexivity.
    + intros [ys H]. rewrite H. eexists. reflexivity.
  - split; [constructor | intros _; eexists; reflexivity].
Qed.

Lemma ifNotNil_forEach_failure {A : Type} (f : A -> outcome A)
    (p p' : option (list A)) (e : error) :
  ifNotNil (forEach f) p = Return p' (Some e) ->
  exists x x', In x (orEmpty p) /\ f x = Return x' (Some e).
Proof.
  destruct p as [l |]; simpl; [| discriminate].
  destruct (forEach f l) as [l' err |] eqn:E; [| discriminate].
  intros H. injection H as _ ->. eapply forEach_failure. exact E.
Qed.

Lemma ifNotNil_forEach_panic {A : Type} (f : A -> outcome A)
    (p : option (list A)) :
  ifNotNil (forEach f) p = Panics ->
  exists x, In x (orEmpty p) /\ f x = Panics.
Proof.
  destruct p as [l |]; simpl; [| discriminate].
  destruct (forEach f l) as [l' err |] eqn:E; [discriminate |].
  intros _. apply forEach_panic. exact E.
Qed.

Lemma decodeTileDefs_never_panics (l : TileLayer.t) (tss : Tilesets) :
  decodeTileDefs l (Some tss) <> Panics.
Proof.
  unfold decodeTileDefs. intros H.
  pose proof (decodeTileDefs_loop_spec (Some tss) (TileLayer.TileGlobalRefs l) l)
    as S.
  rewrite H in S. destruct S as [pre [bad [post [_ Hbad]]]].
  exact (decodeTileDef_never_panics tss bad Hbad).
Qed.

(** The references of a layer that find no tileset. *)
Lemma decodeTileDefs_error_source (l l' : TileLayer.t) (tss : Tilesets)
    (e : error) :
  decodeTileDefs l (Some tss) = Return l' (Some e) ->
  exists tgr,
    In tgr (TileLayer.TileGlobalRefs l)
    /\ e = Errorf_w (Sentinel ErrNoSuitableTileset)
                    (WithGlobalID (TileGlobalRef.GlobalID tgr))
    /\ BareID (TileGlobalRef.GlobalID tgr) <> 0
    /\ findTileset (BareID (TileGlobalRef.GlobalID tgr)) tss None = None.
Proof.
  unfold decodeTileDefs. intros H.
  pose proof (decodeTileDefs_loop_spec (Some tss) (TileLayer.TileGlobalRefs l) l)
    as S.
  rewrite H in S. destruct S as [pre [bad [post [defs [Hrefs [_ [Hbad _]]]]]]].
  exists bad. split; [rewrite Hrefs; apply in_elt |].
  destruct (decodeTileDef_error _ _ _ Hbad) as [-> Hnz].
  split; [reflexivity |]. split; [exact Hnz |].
  destruct bad as [g]. simpl in *.
  rewrite decodeTileDef_nonzero in Hbad by assumption.
  destruct (findTileset (BareID g) tss None); [discriminate | reflexivity].
Qed.

Lemma group_never_panics (tss : Tilesets) (g : Group.t) :
  decodeGroupTileDefs_group (Some tss) g <> Panics.
Proof.
  induction g as [g IHg] using Group_tree_ind.
  rewrite decodeGroupTileDefs_group_eq.
  destruct (ifNotNil (forEach (fun tl => decodeTileDefs tl (Some tss)))
                     (Group.TileLayers g)) as [layers' [e |] |] eqn:El.
  - discriminate.
  - destruct (ifNotNil (forEach (decodeGroupTileDefs_group (Some tss)))
                       (Group.Groups g)) as [groups' err |] eqn:Eg;
      [discriminate |].
    apply ifNotNil_forEach_panic in Eg. destruct Eg as [x [Hin Hx]].
    destruct (Group.Groups g) as [gl |] eqn:Egl; [| destruct Hin].
    specialize (IHg gl eq_refl). rewrite Forall_forall in IHg.
    intros _. exact (IHg x Hin Hx).
  - apply ifNotNil_forEach_panic in El. destruct El as [x [_ Hx]].
    intros _. exact (decodeTileDefs_never_panics x tss Hx).
Qed.

Lemma group_succeeds_iff (tss : option Tilesets) (g : Group.t) :
  (exists g', decodeGroupTileDefs_group tss g = Return g' None)
  <-> Forall (fun l => exists l', decodeTileDefs l tss = Return l' None)
             (Group_allTileLayers g).
Proof.
  induction g as [g IHg] using Group_tree_ind.
  rewrite Group_allTileLayers_eq, Forall_app, Forall_flat_map.
  rewrite <- (ifNotNil_forEach_succeeds_iff (fun tl => decodeTileDefs tl tss)).
  assert (Hsub : Forall (fun d => Forall
                    (fun l => exists l', decodeTileDefs l tss = Return l' None)
                    (Group_allTileLayers d)) (orEmpty (Group.Groups g))
                 <-> exists p', ifNotNil (forEach (decodeGroupTileDefs_group tss))
                                  (Group.Groups g) = Return p' None).
  { rewrite ifNotNil_forEach_succeeds_iff.
    destruct (Group.Groups g) as [gl |] eqn:Egl; simpl;
      [| split; intros _; constructor].
    specialize (IHg gl eq_refl). rewrite Forall_forall in IHg.
    rewrite !Forall_forall. split; intros H x Hin.
    - apply (IHg x Hin). apply H. exact Hin.
    - apply (IHg x Hin). apply H. exact Hin. }
  rewrite Hsub. rewrite decodeGroupTileDefs_group_eq. split.
  - intros [g' H].
    destruct (ifNotNil (forEach (fun tl => decodeTileDefs tl tss))
                       (Group.TileLayers g)) as [layers' [e |] |];
      try discriminate.
    split; [eexists; reflexivity |].
    destruct (ifNotNil (forEach (decodeGroupTileDefs_group tss)) (Group.Groups g))
      as [groups' err |]; [| discriminate].
    injection H as _ ->. eexists. reflexivity.
  - intros [[layers' ->] [groups' ->]]. eexists. reflexivity.
Qed.

Lemma group_error_source (tss : Tilesets) (g : Group.t) :
  forall g' e,
    decodeGroupTileDefs_group (Some tss) g = Return g' (Some e) ->
    exists l tgr,
      In l (Group_allTileLayers g)
      /\ In tgr (TileLayer.TileGlobalRefs l)
      /\ e = Errorf_w (Sentinel ErrNoSuitableTileset)
                      (WithGlobalID (TileGlobalRef.GlobalID tgr))
      /\ findTileset (BareID (TileGlobalRef.GlobalID tgr)) tss None = None.
Proof.
  induction g as [g IHg] using Group_tree_ind. intros g' e H.
  rewrite decodeGroupTileDefs_group_eq in H.
  rewrite Group_allTileLayers_eq.
  destruct (ifNotNil (forEach (fun tl => decodeTileDefs tl (Some tss)))
                     (Group.TileLayers g)) as [layers' [e' |] |] eqn:El;
    try discriminate.
  - injection H as _ ->. apply ifNotNil_forEach_failure in El.
    destruct El as [l [l' [Hin Hl]]].
    destruct (decodeTileDefs_error_source l l' tss e Hl)
      as [tgr [Htgr [He [_ Hnone]]]].
    exists l, tgr. split; [apply in_or_app; left; exact Hin |]. auto.
  - destruct (ifNotNil (forEach (decodeGroupTileDefs_group (Some tss)))
                       (Group.Groups g)) as [groups' err |] eqn:Eg;
      [| discriminate].
    injection H as _ ->. apply ifNotNil_forEach_failure in Eg.
    destruct Eg as [x [x' [Hin Hx]]].
    destruct (Group.Groups g) as [gl |] eqn:Egl; [| destruct Hin].
    specialize (IHg gl eq_refl). rewrite Forall_forall in IHg.
    destruct (IHg x Hin x' e Hx) as [l [tgr [Hl H']]].
    exists l, tgr. split; [| exact H'].
    apply in_or_app. right. simpl. apply in_flat_map. exists x. auto.
Qed.

Lemma decodeGroupTileDefs_never_panics (gl : option Groups) (tss : Tilesets) :
  decodeGroupTileDefs gl (Some tss) <> Panics.
Proof.
  unfold decodeGroupTileDefs. intros H.
  apply ifNotNil_forEach_panic in H. destruct H as [x [_ Hx]].
  exact (group_never_panics tss x Hx).
Qed.

Lemma decodeGroupTileDefs_error_source (gl gl' : option Groups)
    (tss : Tilesets) (e : error) :
  decodeGroupTileDefs gl (Some tss) = Return gl' (Some e) ->
  exists l tgr,
    In l (Groups_allTileLayers gl)
    /\ In tgr (TileLayer.TileGlobalRefs l)
    /\ e = Errorf_w (Sentinel ErrNoSuitableTileset)
                    (WithGlobalID (TileGlobalRef.GlobalID tgr))
    /\ findTileset (BareID (TileGlobalRef.GlobalID tgr)) tss None = None.
Proof.
  unfold decodeGroupTileDefs, Groups_allTileLayers. intros H.
  apply ifNotNil_forEach_failure in H.
  destruct H as [x [x' [Hin Hx]]].
  destruct (group_error_source tss x x' e Hx) as [l [tgr [Hl H']]].
  exists l, tgr. split; [| exact H'].
  apply in_flat_map. exists x. auto.
Qed.

(** X10: with tilesets at hand decodeGroupTileDefs never panics.  It
    returns without error exactly when every tile layer of the tree, at
    any depth, resolves on its own; otherwise the error it returns is
    ErrNoSuitableTileset for a reference of one of the tree's layers that
    finds no tileset: one failing layer fails the whole walk. *)
Theorem decodeGroupTileDefs_all_or_error (gl : option Groups) (tss : Tilesets) :
  decodeGroupTileDefs gl (Some tss) <> Panics
  /\ ((exists gl', decodeGroupTileDefs gl (Some tss) = Return gl' None)
      <-> Forall (fun l => exists l', decodeTileDefs l (Some tss) = Return l' None)
                 (Groups_allTileLayers gl))
  /\ (forall gl' e,
        decodeGroupTileDefs gl (Some tss) = Return gl' (Some e) ->
        exists l tgr,
          In l (Groups_allTileLayers gl)
          /\ In tgr (TileLayer.TileGlobalRefs l)
          /\ e = Errorf_w (Sentinel ErrNoSuitableTileset)
                          (WithGlobalID (TileGlobalRef.GlobalID tgr))
          /\ findTileset (BareID (TileGlobalRef.GlobalID tgr)) tss None = None).
Proof.
  split; [apply decodeGroupTileDefs_never_panics | split].
  - unfold decodeGroupTileDefs, Groups_allTileLayers.
    rewrite (ifNotNil_forEach_succeeds_iff
               (decodeGroupTileDefs_group (Some tss)) gl), Forall_flat_map.
    rewrite !Forall_forall. split; intros H x Hin.
    + apply group_succeeds_iff. apply H. exact Hin.
    + apply group_succeeds_iff. apply H. exact Hin.
  - intros gl' e. apply decodeGroupTileDefs_error_source.
Qed.

(** ** Map.UnmarshalXML *)

Lemma Map_UnmarshalXML_eq (sort_Sort : Tilesets -> Tilesets) (tmp t : Map.t)
    (tss : Tilesets) :
  Map.Tilesets tmp = Some tss ->
  Map_UnmarshalXML sort_Sort (Ok tmp) t
  = match ifNotNil (forEach (fun tl => decodeTileDefs tl (Some (sort_Sort tss))))
                   (Map.TileLayers tmp) with
    | Panics => Panics
    | Return layers (Some e) =>
        Return (Map_set_TileLayers layers
                  (Map_set_Tilesets (Some (sort_Sort tss)) tmp)) (Some e)
    | Return layers None =>
        match decodeGroupTileDefs (Map.Groups tmp) (Some (sort_Sort tss)) with
        | Panics => Panics
        | Return groups err =>
            Return (Map_set_Groups groups
                      (Map_set_TileLayers layers
                         (Map_set_Tilesets (Some (sort_Sort tss)) tmp))) err
        end
    end.
Proof.
  intros H. unfold Map_UnmarshalXML. rewrite H. destruct tmp. reflexivity.
Qed.

(** X11: Map.UnmarshalXML panics exactly when the map element has no
    tileset at all, whether or not it has layers.  A failure of the
    element's own decoding leaves the receiver as it was; any other error
    is ErrNoSuitableTileset, returned with the tilesets already sorted. *)
Theorem Map_UnmarshalXML_outcomes (sort_Sort : Tilesets -> Tilesets)
    (tmp t : Map.t) :
  (Map_UnmarshalXML sort_Sort (Ok tmp) t = Panics <-> Map.Tilesets tmp = None)
  /\ (forall e,
        Map_UnmarshalXML sort_Sort (Err e) t
        = Return t (Some (Errorf_ww (Sentinel ErrDecodingTilemap) e)))
  /\ (forall t' e,
        Map_UnmarshalXML sort_Sort (Ok tmp) t = Return t' (Some e) ->
        errors_Is e ErrNoSuitableTileset = true
        /\ exists tss,
             Map.Tilesets tmp = Some tss
             /\ Map.Tilesets t' = Some (sort_Sort tss)
             /\ exists l tgr,
                  In l (Map_allTileLayers tmp)
                  /\ In tgr (TileLayer.TileGlobalRefs l)
                  /\ e = Errorf_w (Sentinel ErrNoSuitableTileset)
                                  (WithGlobalID (TileGlobalRef.GlobalID tgr))).
Proof.
  split; [| split].
  - destruct (Map.Tilesets tmp) as [tss |] eqn:Etss.
    + split; [| discriminate]. rewrite (Map_UnmarshalXML_eq _ _ _ tss Etss).
      destruct (ifNotNil (forEach (fun tl => decodeTileDefs tl (Some (sort_Sort tss))))
                         (Map.TileLayers tmp)) as [layers [e |] |] eqn:El.
      * discriminate.
      * destruct (decodeGroupTileDefs (Map.Groups tmp) (Some (sort_Sort tss)))
          as [groups err |] eqn:Eg; [discriminate |].
        exfalso.
        exact (decodeGroupTileDefs_never_panics
                 (Map.Groups tmp) (sort_Sort tss) Eg).
      * exfalso. apply ifNotNil_forEach_panic in El.
        destruct El as [x [_ Hx]].
        exact (decodeTileDefs_never_panics x (sort_Sort tss) Hx).
    + split; [reflexivity |]. intros _. unfold Map_UnmarshalXML.
      rewrite Etss. reflexivity.
  - intros e. reflexivity.
  - intros t' e H.
    destruct (Map.Tilesets tmp) as [tss |] eqn:Etss.
    2: { unfold Map_UnmarshalXML in H. rewrite Etss in H. discriminate. }
    rewrite (Map_UnmarshalXML_eq _ _ _ tss Etss) in H.
    assert (S : exists l tgr,
                  In l (Map_allTileLayers tmp)
                  /\ In tgr (TileLayer.TileGlobalRefs l)
                  /\ e = Errorf_w (Sentinel ErrNoSuitableTileset)
                                  (WithGlobalID (TileGlobalRef.GlobalID tgr))
                  /\ Map.Tilesets t' = Some (sort_Sort tss)).
    { unfold Map_allTileLayers.
      destruct (ifNotNil (forEach (fun tl => decodeTileDefs tl (Some (sort_Sort tss))))
                         (Map.TileLayers tmp)) as [layers [e' |] |] eqn:El;
        try discriminate.
      - injection H as <- ->. apply ifNotNil_forEach_failure in El.
        destruct El as [l [l' [Hin Hl]]].
        destruct (decodeTileDefs_error_source l l' _ e Hl)
          as [tgr [Htgr [He _]]].
        exists l, tgr. split; [apply in_or_app; left; exact Hin |].
        split; [exact Htgr |]. split; [exact He |]. destruct tmp; reflexivity.
      - destruct (decodeGroupTileDefs (Map.Groups tmp) (Some (sort_Sort tss)))
          as [groups err |] eqn:Eg; [| discriminate].
        injection H as <- ->.
        destruct (decodeGroupTileDefs_error_source
                    (Map.Groups tmp) groups (sort_Sort tss) e Eg)
          as [l [tgr [Hl [Htgr [He _]]]]].
        exists l, tgr. split; [apply in_or_app; right; exact Hl |].
        split; [exact Htgr |]. split; [exact He |]. destruct tmp; reflexivity. }
    destruct S as [l [tgr [Hl [Htgr [-> Ht']]]]].
    split; [reflexivity |]. exists tss. split; [reflexivity |].
    split; [exact Ht' |]. exists l, tgr. auto.
Qed.

Lemma Forall2_In_left {A B : Type} (R : A -> B -> Prop) (xs : list A)
    (ys : list B) (x : A) :
  Forall2 R xs ys -> In x xs -> exists y, In y ys /\ R x y.
Proof.
  intros H. induction H as [| x0 y0 xs ys H0 H IH]; intros Hin.
  - destruct Hin.
  - destruct Hin as [<- | Hin].
    + exists y0. split; [left; reflexivity | exact H0].
    + destruct (IH Hin) as [y [Hy Hxy]]. exists y. split; [right | ]; assumption.
Qed.

Lemma GlobalID_TileID_exact (g : GlobalID) (ts : Tileset.t) :
  wellFormedTileset ts ->
  Tileset.FirstGlobalID ts <= BareID g ->
  GlobalID_TileID g ts = BareID g - Tileset.FirstGlobalID ts.
Proof.
  intros Hwf Hle. unfold GlobalID_TileID.
  rewrite (uint32_wellFormed ts Hwf).
  pose proof (BareID_range g) as Hr. unfold wellFormedTileset in Hwf.
  unfold uint32. apply Z.mod_small. lia.
Qed.

(** X12: when Map.UnmarshalXML returns without error and the sort has
    left the tilesets in ascending order of FirstGlobalID, the map holds
    the sorted tilesets, every tile layer of the map, top level or nested
    in groups, is resolved against them, and every reference with a bare
    ID other than 0 has become a TileDef of the tileset with the greatest
    FirstGlobalID not above that bare ID, its local ID being the
    difference. *)
Theorem Map_UnmarshalXML_resolves (sort_Sort : Tilesets -> Tilesets)
    (tmp t t' : Map.t) (tss : Tilesets) :
  Map.Tilesets tmp = Some tss ->
  Forall wellFormedTileset (sort_Sort tss) ->
  sortedByFirstGlobalID (sort_Sort tss) ->
  Map_UnmarshalXML sort_Sort (Ok tmp) t = Return t' None ->
  Map.Tilesets t' = Some (sort_Sort tss)
  /\ Forall2 (resolvedFrom (Some (sort_Sort tss)))
             (Map_allTileLayers tmp) (Map_allTileLayers t')
  /\ (forall l tgr,
        In l (Map_allTileLayers tmp) ->
        In tgr (TileLayer.TileGlobalRefs l) ->
        BareID (TileGlobalRef.GlobalID tgr) <> 0 ->
        exists ts td,
          decodeTileDef (Some (sort_Sort tss)) tgr = Return (Some td) None
          /\ TileDef.TileSet td = Some ts
          /\ In ts (sort_Sort tss)
          /\ Tileset.FirstGlobalID ts <= BareID (TileGlobalRef.GlobalID tgr)
          /\ (forall t0,
                In t0 (sort_Sort tss) ->
                Tileset.FirstGlobalID t0 <= BareID (TileGlobalRef.GlobalID tgr) ->
                Tileset.FirstGlobalID t0 <= Tileset.FirstGlobalID ts)
          /\ TileDef.ID td
             = BareID (TileGlobalRef.GlobalID tgr) - Tileset.FirstGlobalID ts).
Proof.
  intros Htss Hwf Hsorted H.
  rewrite (Map_UnmarshalXML_eq _ _ _ tss Htss) in H.
  destruct (ifNotNil (forEach (fun tl => decodeTileDefs tl (Some (sort_Sort tss))))
                     (Map.TileLayers tmp)) as [layers [e |] |] eqn:El;
    try discriminate.
  destruct (decodeGroupTileDefs (Map.Groups tmp) (Some (sort_Sort tss)))
    as [groups err |] eqn:Eg; [| discriminate].
  injection H as <- ->.
  assert (R : Forall2 (resolvedFrom (Some (sort_Sort tss)))
                (Map_allTileLayers tmp)
                (Map_allTileLayers
                   (Map_set_Groups groups
                      (Map_set_TileLayers layers
                         (Map_set_Tilesets (Some (sort_Sort tss)) tmp))))).
  { replace (Map_allTileLayers (Map_set_Groups groups _))
      with (orEmpty layers ++ Groups_allTileLayers groups)
      by (destruct tmp; reflexivity).
    unfold Map_allTileLayers. apply Forall2_app.
    - apply layers_resolvedFrom. exact El.
    - unfold decodeGroupTileDefs in Eg. apply ifNotNil_success in Eg.
      destruct Eg as [[-> ->] | [gl [gl' [-> [-> Hgl]]]]]; [constructor |].
      unfold Groups_allTileLayers. simpl. apply forEach_success in Hgl.
      eapply flat_map_Forall2; [exact Hgl |].
      intros x y _ Hxy. apply group_resolvedFrom. exact Hxy. }
  split; [destruct tmp; reflexivity |]. split; [exact R |].
  intros l tgr Hl Htgr Hnz.
  destruct (Forall2_In_left _ _ _ l R Hl) as [l' [_ [defs [Hdefs _]]]].
  destruct (Forall2_In_left _ _ _ tgr Hdefs Htgr) as [td [_ Htd]].
  destruct (decodeTileDef_built _ tgr td Hnz Htd) as [ts [Hfind ->]].
  destruct (findTileset_sorted (BareID (TileGlobalRef.GlobalID tgr))
              (sort_Sort tss) None Hwf Hsorted)
    as [[E _] | [ts' [E [Hin [Hle Hmax]]]]];
    rewrite E in Hfind; [discriminate |].
  injection Hfind as <-.
  exists ts', (TileDef.mk false
                 (GlobalID_TileID (TileGlobalRef.GlobalID tgr) ts')
                 (TileGlobalRef.GlobalID tgr) (Some ts')
                 match Tileset.Tiles ts' with
                 | Some tiles =>
                     Tiles_WithID tiles
                       (GlobalID_TileID (TileGlobalRef.GlobalID tgr) ts')
                 | None => None
                 end
                 (IsFlippedHorizontally (TileGlobalRef.GlobalID tgr))
                 (IsFlippedVertically (TileGlobalRef.GlobalID tgr))
                 (IsFlippedDiagonally (TileGlobalRef.GlobalID tgr))).
  split; [exact Htd |]. split; [reflexivity |]. split; [exact Hin |].
  split; [exact Hle |]. split; [exact Hmax |].
  simpl. apply GlobalID_TileID_exact; [| exact Hle].
  rewrite Forall_forall in Hwf. apply Hwf. exact Hin.
Qed.

Lemma Map_UnmarshalXML_resolves_witness :
  Map.Tilesets
    (match Map_UnmarshalXML Fixture.isort (Ok Fixture.unsorted)
             (Fixture.map None None None) with
     | Return t' _ => t'
     | Panics => Fixture.unsorted
     end)
  = Some Sample.tilesets.
Proof.
  refine (proj1 (Map_UnmarshalXML_resolves Fixture.isort Fixture.unsorted
                   (Fixture.map None None None) _ _ eq_refl _ _ eq_refl)).
  - exact Sample_tilesets_wellFormed.
  - exact Sample_tilesets_sorted.
Defined.

(** The sample map declares its tilesets in the order 10, 50, 1; its top
    level layer holds 9 and 49, which resolve to the tilesets starting at
    1 and 10, and its nested layers are resolved as well. *)
Example unsorted_map_resolved :
  map (fun l => (TileLayer.Name l,
                 map (fun td => (option_map Tileset.FirstGlobalID (TileDef.TileSet td),
                                 TileDef.ID td))
                     (TileLayer.TileDefs l)))
      (Map_allTileLayers
         (match Map_UnmarshalXML Fixture.isort (Ok Fixture.unsorted)
                  (Fixture.map None None None) with
          | Return t' _ => t'
          | Panics => Fixture.unsorted
          end))
  = [("top"%string, [(Some 1, 8); (Some 10, 39)]);
     ("a"%string, [(Some 1, 0); (Some 10, 2)]);
     ("b"%string, [(Some 50, 0)])].
Proof.
  reflexivity.
Qed.

(** ** The payload decoder, beyond csv *)

Lemma byte_value_byte_of (x : Z) : byte_value (byte_of x) = x mod 2 ^ 8.
Proof.
  unfold byte_value, byte_of.
  assert (H : 0 <= x mod 2 ^ 8 < 2 ^ 8) by (apply Z.mod_pos_bound; lia).
  rewrite nat_ascii_embedding by lia.
  apply Z2Nat.id. lia.
Qed.

Lemma LittleEndian_PutUint32 (n : Z) :
  0 <= n < 2 ^ 32 ->
  LittleEndian_Uint32 (byte_of n) (byte_of (n / 2 ^ 8)) (byte_of (n / 2 ^ 16))
                      (byte_of (n / 2 ^ 24)) = n.
Proof.
  intros Hn. unfold LittleEndian_Uint32. rewrite !byte_value_byte_of.
  change (2 ^ 8) with 256. change (2 ^ 16) with 65536.
  change (2 ^ 24) with 16777216. change (2 ^ 32) with 4294967296 in Hn.
  Z.to_euclidean_division_equations. lia.
Qed.

Lemma fold_appendTileGlobalRef (ns : list Z) (l : TileLayer.t)
    (refs : list TileGlobalRef.t) :
  fold_left appendTileGlobalRef ns
    (TileLayer.set_TileGlobalRefs (TileLayer.TileGlobalRefs l ++ refs) l)
  = TileLayer.set_TileGlobalRefs
      (TileLayer.TileGlobalRefs l ++ refs ++ map TileGlobalRef.mk ns) l.
Proof.
  revert refs. induction ns as [| n rest IH]; intros refs.
  - simpl. rewrite app_nil_r. reflexivity.
  - simpl. rewrite appendTileGlobalRef_set, IH, <- app_assoc. reflexivity.
Qed.

Lemma binary_Read_loop_short (tail : string) (last : option error) :
  (String.length tail < 4)%nat ->
  binary_Read_loop tail last = ([], endOfStream tail last).
Proof.
  intros H.
  destruct tail as [| a [| b [| c [| d rest]]]]; try reflexivity.
  simpl in H. lia.
Qed.

Lemma binary_Read_loop_words (ns : list Z) (tail : string)
    (last : option error) :
  Forall (fun n => 0 <= n < 2 ^ 32) ns ->
  (String.length tail < 4)%nat ->
  binary_Read_loop (PutUint32s ns ++ tail) last = (ns, endOfStream tail last).
Proof.
  intros Hns Htail. induction Hns as [| n rest Hn Hrest IH].
  - simpl. apply binary_Read_loop_short. exact Htail.
  - simpl PutUint32s. unfold PutUint32. simpl String.append.
    simpl binary_Read_loop. rewrite IH.
    rewrite LittleEndian_PutUint32 by assumption. reflexivity.
Qed.

(** X13: a base64 payload without compression whose decoded bytes are
    the little-endian encoding of 32-bit values gives exactly those values
    as references, in order, and no error; up to three bytes left over
    after the last whole value make the call return io.ErrUnexpectedEOF
    (or the reader's own error), the layer keeping the values read. *)
Theorem binary_payload_roundtrip (L : Lib) (l : TileLayer.t) (d : Data.t)
    (ns : list Z) (tail : string) (last : option error) :
  TileLayer.RawData l = Some d ->
  Data.Encoding d = "base64"%string ->
  Data.Compression d = EmptyString ->
  base64_NewDecoder L (bytes_TrimSpace L (Data.RawBytes d))
  = mkReader (PutUint32s ns ++ tail) last ->
  Forall (fun n => 0 <= n < 2 ^ 32) ns ->
  (String.length tail < 4)%nat ->
  decodeLayerData L l
  = Return (TileLayer.set_TileGlobalRefs
              (TileLayer.TileGlobalRefs l ++ map TileGlobalRef.mk ns) l)
           (endOfStream tail last).
Proof.
  intros Hd He Hc Hr Hns Htail. unfold decodeLayerData.
  rewrite Hd, He, Hc, Hr. simpl. unfold decode_binary. simpl.
  rewrite binary_Read_loop_words by assumption.
  rewrite <- (set_TileGlobalRefs_same l) at 1.
  rewrite fold_appendTileGlobalRef. reflexivity.
Qed.

Lemma binary_payload_roundtrip_witness :
  decodeLayerData Fixture.world
    (Sample.layer "b" 2 1 (Some (Data.mk "base64" "" "  AQAAAAIAAIA= ")))
  = Return (TileLayer.set_TileGlobalRefs
              [TileGlobalRef.mk 1; TileGlobalRef.mk 2147483650]
              (Sample.layer "b" 2 1 (Some (Data.mk "base64" "" "  AQAAAAIAAIA= "))))
           None.
Proof.
  refine (binary_payload_roundtrip Fixture.world
            (Sample.layer "b" 2 1 (Some (Data.mk "base64" "" "  AQAAAAIAAIA= ")))
            (Data.mk "base64" "" "  AQAAAAIAAIA= ") [1; 2147483650]
            EmptyString None eq_refl eq_refl eq_refl eq_refl _ _).
  - repeat constructor; lia.
  - simpl. lia.
Defined.

Lemma decode_csv_frame (L : Lib) (tokens : list string) (l : TileLayer.t) :
  exists refs err,
    decode_csv L tokens l
    = Return (TileLayer.set_TileGlobalRefs (TileLayer.TileGlobalRefs l ++ refs) l)
             err.
Proof.
  destruct (forallb (numericToken L) tokens) eqn:E.
  - pose proof (decode_csv_numeric L tokens l [] E) as H.
    rewrite set_TileGlobalRefs_same in H. simpl in H.
    eexists. eexists. exact H.
  - destruct (decode_csv_rejects L tokens l [] E)
      as [pre [bad [post [e [_ [_ [_ [_ H]]]]]]]].
    rewrite set_TileGlobalRefs_same in H. simpl in H.
    eexists. eexists. exact H.
Qed.

Lemma decode_binary_frame (r : Reader) (l : TileLayer.t) :
  exists refs err,
    decode_binary r l
    = Return (TileLayer.set_TileGlobalRefs (TileLayer.TileGlobalRefs l ++ refs) l)
             err.
Proof.
  unfold decode_binary.
  destruct (binary_Read_loop (delivered r) (ending r)) as [ns e].
  exists (map TileGlobalRef.mk ns), e.
  rewrite <- (set_TileGlobalRefs_same l) at 1.
  rewrite fold_appendTileGlobalRef. reflexivity.
Qed.

Lemma unchanged_frame (l : TileLayer.t) (err : option error) :
  exists refs err',
    Return l err
    = Return (TileLayer.set_TileGlobalRefs (TileLayer.TileGlobalRefs l ++ refs) l)
             err'.
Proof.
  exists [], err. rewrite set_TileGlobalRefs_same. reflexivity.
Qed.

(** X14: decodeLayerData panics exactly when the layer has no data
    element.  Otherwise it returns, and whatever the encoding, the
    compression and the outcome, all it has done to the layer is append
    references: the references already there, the TileDefs and every other
    field are as before.  An encoding other than base64, csv and the empty
    one gives ErrUnsupportedEncoding; the empty one appends nothing. *)
Theorem decodeLayerData_outcomes (L : Lib) (l : TileLayer.t) :
  (decodeLayerData L l = Panics <-> TileLayer.RawData l = None)
  /\ (forall l' err,
        decodeLayerData L l = Return l' err ->
        exists refs,
          l' = TileLayer.set_TileGlobalRefs
                 (TileLayer.TileGlobalRefs l ++ refs) l)
  /\ (forall d,
        TileLayer.RawData l = Some d ->
        Data.Encoding d <> "base64"%string ->
        Data.Encoding d <> "csv"%string ->
        Data.Encoding d <> EmptyString ->
        decodeLayerData L l
        = Return l (Some (Errorf_w (Sentinel ErrUnsupportedEncoding)
                                   (WithText (Data.Encoding d)))))
  /\ (forall d,
        TileLayer.RawData l = Some d ->
        Data.Encoding d = EmptyString ->
        decodeLayerData L l = Return l None).
Proof.
  assert (F : exists out,
            decodeLayerData L l = out
            /\ (TileLayer.RawData l = None -> out = Panics)
            /\ (TileLayer.RawData l <> None ->
                exists refs err,
                  out = Return (TileLayer.set_TileGlobalRefs
                                  (TileLayer.TileGlobalRefs l ++ refs) l) err)).
  { eexists. split; [reflexivity |]. unfold decodeLayerData.
    destruct (TileLayer.RawData l) as [d |].
    - split; [discriminate |]. intros _.
      destruct (Data.Encoding d =? "base64")%string.
      + destruct (Data.Compression d =? "zlib")%string.
        { destruct (zlib_NewReader L _);
            [apply decode_binary_frame | apply unchanged_frame]. }
        destruct (Data.Compression d =? "gzip")%string.
        { destruct (gzip_NewReader L _);
            [apply decode_binary_frame | apply unchanged_frame]. }
        destruct (Data.Compression d =? "zstd")%string.
        { destruct (zstd_NewReader L _) as [dd |]; [| apply unchanged_frame].
          destruct (io_ReadAll dd);
            [apply decode_binary_frame | apply unchanged_frame]. }
        destruct (Data.Compression d =? "")%string;
          [apply decode_binary_frame | apply unchanged_frame].
      + destruct (Data.Encoding d =? "csv")%string; [apply decode_csv_frame |].
        destruct (Data.Encoding d =? "")%string; apply unchanged_frame.
    - split; [reflexivity |]. intros H. contradiction H. reflexivity. }
  destruct F as [out [Eout [Hnil Hsome]]].
  split; [| split; [| split]].
  - rewrite Eout. split.
    + intros ->.
      destruct (TileLayer.RawData l) as [d |] eqn:Ed; [| reflexivity].
      destruct (Hsome ltac:(discriminate)) as [refs [err H]]. discriminate.
    + exact Hnil.
  - intros l' err H. rewrite Eout in H.
    destruct (TileLayer.RawData l) as [d |] eqn:Ed.
    + destruct (Hsome ltac:(discriminate)) as [refs [err' H']].
      rewrite H in H'. injection H' as -> _. exists refs. reflexivity.
    + rewrite (Hnil eq_refl) in H. discriminate.
  - intros d Hd H1 H2 H3. unfold decodeLayerData. rewrite Hd.
    rewrite (string_eqb_false _ _ H1), (string_eqb_false _ _ H2),
      (string_eqb_false _ _ H3). reflexivity.
  - intros d Hd He. unfold decodeLayerData. rewrite Hd, He. reflexivity.
Qed.

Lemma strings_Split_length (s : string) (sep : ascii) :
  List.length (strings_Split s sep) = S (countByte sep s).
Proof.
  induction s as [| c s IH].
  - reflexivity.
  - simpl. destruct (Ascii.eqb c sep).
    + simpl. rewrite IH. reflexivity.
    + destruct (strings_Split s sep) as [| hd tl]; [discriminate |].
      simpl in *. exact IH.
Qed.

Lemma decodeLayerData_csv_success (L : Lib) (l l' : TileLayer.t) (d : Data.t) :
  TileLayer.RawData l = Some d ->
  Data.Encoding d = "csv"%string ->
  decodeLayerData L l = Return l' None ->
  forallb (numericToken L) (strings_Split (Data.RawBytes d) ",") = true
  /\ l' = TileLayer.set_TileGlobalRefs
            (TileLayer.TileGlobalRefs l
             ++ map (refOfToken L) (strings_Split (Data.RawBytes d) ",")) l.
Proof.
  intros Hd He H. rewrite (decodeLayerData_csv L l d Hd He) in H.
  destruct (forallb (numericToken L) (strings_Split (Data.RawBytes d) ","))
    eqn:E.
  - split; [reflexivity |].
    pose proof (decode_csv_numeric L _ l [] E) as S.
    rewrite set_TileGlobalRefs_same in S. rewrite S in H.
    injection H as <-. reflexivity.
  - destruct (decode_csv_rejects L _ l [] E)
      as [pre [bad [post [e [_ [_ [_ [_ S]]]]]]]].
    rewrite set_TileGlobalRefs_same in S. rewrite S in H. discriminate.
Qed.

(** X15: a csv payload that decodes without error has given one
    reference per comma plus one: every token was numeric and none was
    skipped.  A csv payload therefore never decodes to zero references,
    and with a TrimSpace that leaves the empty string empty, an empty
    payload is an error. *)
Theorem csv_reference_count (L : Lib) (l l' : TileLayer.t) (d : Data.t) :
  TileLayer.RawData l = Some d ->
  Data.Encoding d = "csv"%string ->
  decodeLayerData L l = Return l' None ->
  List.length (TileLayer.TileGlobalRefs l')
  = (List.length (TileLayer.TileGlobalRefs l)
     + S (countByte "," (Data.RawBytes d)))%nat
  /\ forallb (numericToken L) (strings_Split (Data.RawBytes d) ",") = true
  /\ (strings_TrimSpace L EmptyString = EmptyString ->
      Data.RawBytes d <> EmptyString).
Proof.
  intros Hd He H.
  destruct (decodeLayerData_csv_success L l l' d Hd He H) as [Hall ->].
  split; [| split; [exact Hall |]].
  - destruct l. simpl.
    rewrite length_app, length_map, strings_Split_length. reflexivity.
  - intros Htrim Hempty. rewrite Hempty in Hall. simpl in Hall.
    unfold numericToken in Hall. rewrite Htrim in Hall. discriminate.
Qed.

Lemma csv_reference_count_witness :
  List.length
    (TileLayer.TileGlobalRefs
       (Sample.decoded (Sample.layer "w" 2 2 (Sample.csv "1, 2,3,4"))))
  = (List.length
       (TileLayer.TileGlobalRefs (Sample.layer "w" 2 2 (Sample.csv "1, 2,3,4")))
     + S (countByte "," "1, 2,3,4"))%nat.
Proof.
  exact (proj1 (csv_reference_count Sample.world
                  (Sample.layer "w" 2 2 (Sample.csv "1, 2,3,4"))
                  (Sample.decoded (Sample.layer "w" 2 2 (Sample.csv "1, 2,3,4")))
                  (Data.mk "csv" "" "1, 2,3,4") eq_refl eq_refl eq_refl)).
Defined.

(** X16: from payload to cell.  For a freshly decoded layer with a csv
    payload, decoded and then resolved without error, the i-th token of
    the payload is what GetTileDefAtIndex returns at index i, whenever i
    is inside the declared extent: the TileDef that token's reference
    resolves to. *)
Theorem csv_token_at_index (L : Lib) (l l1 l2 : TileLayer.t) (d : Data.t)
    (tss : option Tilesets) (i : nat) (tok : string) :
  TileLayer.RawData l = Some d ->
  Data.Encoding d = "csv"%string ->
  TileLayer.TileGlobalRefs l = [] ->
  TileLayer.TileDefs l = [] ->
  decodeLayerData L l = Return l1 None ->
  decodeTileDefs l1 tss = Return l2 None ->
  nth_error (strings_Split (Data.RawBytes d) ",") i = Some tok ->
  Z.of_nat i < int (TileLayer.Width l * TileLayer.Height l) ->
  exists td,
    GetTileDefAtIndex l2 (Z.of_nat i) = Return (Some td) None
    /\ decodeTileDef tss (refOfToken L tok) = Return (Some td) None
    /\ (BareID (tokenValue L tok) = 0 -> td = nilTileDef)
    /\ (BareID (tokenValue L tok) <> 0 ->
          TileDef.GlobalID td = tokenValue L tok).
Proof.
  intros Hd He Hrefs Hdefs H1 H2 Htok Hi.
  destruct (decodeLayerData_csv_success L l l1 d Hd He H1) as [_ ->].
  rewrite Hrefs in H2. simpl app in H2.
  unfold decodeTileDefs in H2.
  pose proof (decodeTileDefs_loop_spec tss
                (TileLayer.TileGlobalRefs
                   (TileLayer.set_TileGlobalRefs
                      (map (refOfToken L) (strings_Split (Data.RawBytes d) ","))
                      l))
                (TileLayer.set_TileGlobalRefs
                   (map (refOfToken L) (strings_Split (Data.RawBytes d) ","))
                   l)) as S.
  rewrite H2 in S. destruct S as [defs [Hall ->]].
  assert (Hnth : nth_error (map (refOfToken L)
                              (strings_Split (Data.RawBytes d) ",")) i
                 = Some (refOfToken L tok)).
  { rewrite nth_error_map, Htok. reflexivity. }
  replace (TileLayer.TileGlobalRefs (TileLayer.set_TileGlobalRefs _ l))
    with (map (refOfToken L) (strings_Split (Data.RawBytes d) ","))
    in Hall by (destruct l; reflexivity).
  destruct (Forall2_at _ _ _ i _ Hall Hnth) as [td [Htd Hres]].
  exists td. split; [| split; [exact Hres | split]].
  - rewrite GetTileDefAtIndex_inside.
    + replace (TileLayer.TileDefs _) with defs
        by (destruct l; simpl in *; subst; reflexivity).
      rewrite Nat2Z.id, Htd. reflexivity.
    + replace (TileLayer.Width _) with (TileLayer.Width l)
        by (destruct l; reflexivity).
      replace (TileLayer.Height _) with (TileLayer.Height l)
        by (destruct l; reflexivity).
      lia.
  - intros Hz. unfold refOfToken in Hres.
    rewrite (decodeTileDef_zero tss _ Hz) in Hres.
    injection Hres as <-. reflexivity.
  - intros Hnz. unfold refOfToken in Hres. destruct tss as [tilesets |].
    + destruct (decodeTileDef_built tilesets
                  (TileGlobalRef.mk (tokenValue L tok)) td Hnz Hres)
        as [ts [_ ->]].
      reflexivity.
    + unfold decodeTileDef in Hres. simpl in Hres.
      destruct (Z.eqb_spec (BareID (tokenValue L tok)) 0);
        [contradiction | discriminate].
Qed.

Lemma csv_token_at_index_witness :
  exists td,
    GetTileDefAtIndex Sample.grid (Z.of_nat 11) = Return (Some td) None
    /\ decodeTileDef (Some Sample.tilesets) (refOfToken Sample.world "12")
       = Return (Some td) None
    /\ (BareID (tokenValue Sample.world "12") = 0 -> td = nilTileDef)
    /\ (BareID (tokenValue Sample.world "12") <> 0 ->
          TileDef.GlobalID td = tokenValue Sample.world "12").
Proof.
  refine (csv_token_at_index Sample.world
            (Sample.layer "grid" 4 3 (Sample.csv "1,2,3,4,5,6,7,8,9,10,11,12"))
            (Sample.decoded
               (Sample.layer "grid" 4 3 (Sample.csv "1,2,3,4,5,6,7,8,9,10,11,12")))
            Sample.grid (Data.mk "csv" "" "1,2,3,4,5,6,7,8,9,10,11,12")
            (Some Sample.tilesets) 11 "12" _ _ _ _ _ _ _ _);
    vm_compute; reflexivity.
Defined.

(** ** Positions *)

Lemma int_decomp (x : Z) : exists k, int x = x + k * 2 ^ 64.
Proof.
  unfold int. exists (- ((x + 2 ^ 63) / 2 ^ 64)).
  pose proof (Z.div_mod (x + 2 ^ 63) (2 ^ 64) ltac:(lia)). lia.
Qed.

Lemma int_congr (y z k : Z) : y = z + k * 2 ^ 64 -> int y = int z.
Proof.
  intros ->. unfold int.
  replace (z + k * 2 ^ 64 + 2 ^ 63) with (z + 2 ^ 63 + k * 2 ^ 64) by lia.
  rewrite Z_mod_plus_full. reflexivity.
Qed.

Lemma flat_index_next_row (w row col : Z) :
  int (int (row * int w) + (col + w)) = int (int ((row + 1) * int w) + col).
Proof.
  destruct (int_decomp w) as [kw Hw].
  destruct (int_decomp (row * int w)) as [k1 H1].
  destruct (int_decomp ((row + 1) * int w)) as [k2 H2].
  apply (int_congr _ _ (k1 - k2 - kw)).
  rewrite H1, H2, Hw. lia.
Qed.

Lemma GetTileDefAtIndex_shapes (l : TileLayer.t) (i : Z) :
  GetTileDefAtIndex l i = Panics
  \/ (exists td, GetTileDefAtIndex l i = Return (Some td) None)
  \/ GetTileDefAtIndex l i
     = Return None (Some (Errorf_w (Sentinel ErrTileDefOutOfBounds) (AtIndex i))).
Proof.
  unfold GetTileDefAtIndex.
  destruct ((i <? 0) || (i >=? int (TileLayer.Width l * TileLayer.Height l))).
  - right; right. reflexivity.
  - destruct (nth_error (TileLayer.TileDefs l) (Z.to_nat i)) as [td |].
    + right; left. exists td. reflexivity.
    + left. reflexivity.
Qed.

Lemma GetTileDefAtPosition_via_index (l : TileLayer.t) (row col : Z) :
  (forall td,
     GetTileDefAtPosition l row col = Return (Some td) None
     <-> GetTileDefAtIndex l (int (int (row * int (TileLayer.Width l)) + col))
         = Return (Some td) None)
  /\ (GetTileDefAtPosition l row col = Panics
      <-> GetTileDefAtIndex l (int (int (row * int (TileLayer.Width l)) + col))
          = Panics).
Proof.
  unfold GetTileDefAtPosition.
  destruct (GetTileDefAtIndex_shapes l
              (int (int (row * int (TileLayer.Width l)) + col)))
    as [E | [[td0 E] | E]]; rewrite E.
  - split; [intros td; split; discriminate | tauto].
  - split; [intros td; tauto | tauto].
  - split; [intros td; split; discriminate | split; discriminate].
Qed.

(** X17: GetTileDefAtPosition checks the flat index only, never the
    column against the width: a column one width too far addresses the
    cell of the same column in the next row.  The two calls compute the
    same flat index, return the same TileDef when one of them returns one,
    and panic together. *)
Theorem GetTileDefAtPosition_column_unchecked (l : TileLayer.t) (row col : Z) :
  int (int (row * int (TileLayer.Width l)) + (col + TileLayer.Width l))
  = int (int ((row + 1) * int (TileLayer.Width l)) + col)
  /\ (forall td,
        GetTileDefAtPosition l row (col + TileLayer.Width l)
        = Return (Some td) None
        <-> GetTileDefAtPosition l (row + 1) col = Return (Some td) None)
  /\ (GetTileDefAtPosition l row (col + TileLayer.Width l) = Panics
      <-> GetTileDefAtPosition l (row + 1) col = Panics)
  /\ ((exists e,
         GetTileDefAtPosition l row (col + TileLayer.Width l)
         = Return None (Some e))
      <-> exists e,
            GetTileDefAtPosition l (row + 1) col = Return None (Some e)).
Proof.
  pose proof (flat_index_next_row (TileLayer.Width l) row col) as F.
  split; [exact F |].
  destruct (GetTileDefAtPosition_via_index l row (col + TileLayer.Width l))
    as [A1 A2].
  destruct (GetTileDefAtPosition_via_index l (row + 1) col) as [B1 B2].
  split; [| split].
  - intros td. rewrite A1, B1, F. tauto.
  - rewrite A2, B2, F. tauto.
  - unfold GetTileDefAtPosition. rewrite F.
    generalize (GetTileDefAtIndex l
                  (int (int ((row + 1) * int (TileLayer.Width l)) + col))).
    intros [[td |] [e |] |];
      split; intros [e' H]; try discriminate H; eexists; reflexivity.
Qed.

(** In the 4 by 3 sample, column 5 of row 0 is column 1 of row 1, and
    column -1 of row 1 is column 3 of row 0. *)
Example grid_columns_wrap :
  GetTileDefAtPosition Sample.grid 0 5 = GetTileDefAtPosition Sample.grid 1 1
  /\ GetTileDefAtPosition Sample.grid 1 (-1) = GetTileDefAtPosition Sample.grid 0 3
  /\ exists td, GetTileDefAtPosition Sample.grid 0 5 = Return (Some td) None
                /\ TileDef.GlobalID td = 6.
Proof.
  split; [reflexivity |]. split; [reflexivity |].
  eexists. split; reflexivity.
Qed.

(** ** External tilesets and templates, further *)




(** X19: an object element that names a template decodes without error
    exactly when the template file opens and parses, although nothing of
    the template is used: with or without error, the object after the call
    is the element as decoded.  The call never panics. *)
Theorem object_template_must_load (L : Lib) (G : Globals) (tmp o : Object.t) :
  Object.Template tmp <> EmptyString ->
  Object_UnmarshalXML L G (Ok tmp) o <> Panics
  /\ (Object_UnmarshalXML L G (Ok tmp) o = Return tmp None
      <-> exists f template,
            os_Open L (filepath_Join L (ResourcePath G) (Object.Template tmp))
            = Ok f
            /\ xml_Decode_Template L G f = Ok template)
  /\ (forall o' err,
        Object_UnmarshalXML L G (Ok tmp) o = Return o' err -> o' = tmp)
  /\ (forall e,
        os_Open L (filepath_Join L (ResourcePath G) (Object.Template tmp))
        = Err e ->
        Object_UnmarshalXML L G (Ok tmp) o
        = Return tmp (Some (Errorf_msg_w "failed to open template file" e))).
Proof.
  intros Htpl. unfold Object_UnmarshalXML.
  rewrite (string_eqb_false _ _ Htpl).
  destruct (os_Open L _) as [f | e].
  - destruct (xml_Decode_Template L G f) as [template | e] eqn:Ed.
    + rewrite mergeObject_self. split; [discriminate |]. split.
      * split; [| reflexivity]. intros _. exists f, template. auto.
      * split; [| discriminate]. intros o' err H. injection H as <- _.
        reflexivity.
    + split; [discriminate |]. split.
      * split; [discriminate |].
        intros [f' [template [Hf Ht]]]. injection Hf as <-.
        rewrite Ed in Ht. discriminate.
      * split; [| discriminate]. intros o' err H. injection H as <- _.
        reflexivity.
  - split; [discriminate |]. split.
    + split; [discriminate |]. intros [f' [template [Hf _]]]. discriminate.
    + split.
      * intros o' err H. injection H as <- _. reflexivity.
      * intros e' H. injection H as <-. reflexivity.
Qed.

Lemma object_template_must_load_witness :
  Object_UnmarshalXML Sample.world (mkGlobals "elsewhere")
    (Ok (Sample.object "Custom" "default.tx")) (Sample.object "" "")
  = Return (Sample.object "Custom" "default.tx")
      (Some (Errorf_msg_w "failed to open template file" Unix.ErrNotExist)).
Proof.
  refine (proj2 (proj2 (proj2
            (object_template_must_load Sample.world (mkGlobals "elsewhere")
               (Sample.object "Custom" "default.tx") (Sample.object "" "") _)))
            Unix.ErrNotExist eq_refl).
  discriminate.
Defined.

(** ** Polygon points and tile terrains *)

Lemma ParseUint_loop_error (s : string) (maxVal n : Z) (e : error) :
  ParseUint_loop s maxVal n = Err e ->
  e = strconv_ErrSyntax \/ e = strconv_ErrRange.
Proof.
  revert n. induction s as [| c s IH]; intros n H; simpl in H.
  - discriminate H.
  - destruct (is_digit c); [| injection H as <-; left; reflexivity].
    destruct (n * 10 + digit_value c >? maxVal).
    + injection H as <-. right. reflexivity.
    + exact (IH _ H).
Qed.

Lemma ParseInt_error (s : string) (bitSize : Z) (e : error) :
  strconv_ParseInt s bitSize = Err e ->
  e = strconv_ErrSyntax \/ e = strconv_ErrRange.
Proof.
  unfold strconv_ParseInt. destruct s as [| c rest].
  - intros H. injection H as <-. left. reflexivity.
  - set (ds := if Ascii.eqb c "+" || Ascii.eqb c "-" then rest
               else String c rest).
    destruct (strconv_ParseUint ds bitSize) as [un | e'] eqn:E.
    + destruct (negb (Ascii.eqb c "-") && (un >=? 2 ^ (bitSize - 1)));
        [intros H; injection H as <-; right; reflexivity |].
      destruct (Ascii.eqb c "-" && (un >? 2 ^ (bitSize - 1)));
        [intros H; injection H as <-; right; reflexivity | discriminate].
    + intros H. injection H as <-.
      unfold strconv_ParseUint in E.
      destruct ds; [| exact (ParseUint_loop_error _ _ _ _ E)].
      injection E as <-. left. reflexivity.
Qed.

(** [ParseUint] accepts the non-empty strings of digits whose value fits,
    and returns that value. *)
Lemma ParseUint_decimal (s : string) (bits v : Z) :
  0 <= bits ->
  strconv_ParseUint s bits = Ok v
  <-> s <> EmptyString
      /\ all_digits s = true
      /\ decimal_value s <= 2 ^ bits - 1
      /\ v = decimal_value s.
Proof.
  intros Hb.
  assert (Hmax : 0 <= 0 <= 2 ^ bits - 1).
  { pose proof (Z.pow_pos_nonneg 2 bits ltac:(lia) Hb). lia. }
  destruct (ParseUint_loop_spec s (2 ^ bits - 1) 0 Hmax) as [Hok Herr].
  unfold all_digits, decimal_value.
  assert (E : s <> EmptyString ->
              strconv_ParseUint s bits = ParseUint_loop s (2 ^ bits - 1) 0)
    by (destruct s; [intros H; contradiction H; reflexivity | reflexivity]).
  split.
  - intros H.
    destruct s as [| c s']; [discriminate H |].
    split; [discriminate |].
    rewrite E in H by discriminate.
    destruct (forallb is_digit (list_ascii_of_string (String c s'))) eqn:Hd.
    + destruct (Z_le_gt_dec
                  (digits_from (list_ascii_of_string (String c s')) 0)
                  (2 ^ bits - 1)) as [Hle | Hgt].
      * rewrite (Hok (conj eq_refl Hle)) in H. injection H as <-.
        repeat split. exact Hle.
      * assert (Hlt : 2 ^ bits - 1
                      < digits_from (list_ascii_of_string (String c s')) 0)
          by lia.
        destruct (Herr (or_intror Hlt)) as [e He].
        rewrite He in H. discriminate H.
    + destruct (Herr (or_introl eq_refl)) as [e He].
      rewrite He in H. discriminate H.
  - intros [Hne [Hd [Hle ->]]].
    rewrite (E Hne). apply Hok. split; assumption.
Qed.

Lemma decimal_value_nonneg (s : string) :
  all_digits s = true -> 0 <= decimal_value s.
Proof.
  intros H.
  apply (digits_from_grows (list_ascii_of_string s) 0); [lia | exact H].
Qed.

(** What [ParseInt] does once the sign is off. *)
Lemma ParseInt_tail (neg : bool) (ds : string) (bits v : Z) :
  1 <= bits ->
  match strconv_ParseUint ds bits with
  | Err e => Err e
  | Ok un =>
      if negb neg && (un >=? 2 ^ (bits - 1)) then Err strconv_ErrRange
      else if neg && (un >? 2 ^ (bits - 1)) then Err strconv_ErrRange
      else Ok (if neg then - un else un)
  end = Ok v
  <-> (if negb (ds =? "")%string && all_digits ds
       then if (- 2 ^ (bits - 1) <=? (if neg then - decimal_value ds
                                       else decimal_value ds))
               && ((if neg then - decimal_value ds else decimal_value ds)
                   <? 2 ^ (bits - 1))
            then Some (if neg then - decimal_value ds else decimal_value ds)
            else None
       else None) = Some v.
Proof.
  intros Hb.
  assert (Hc : 0 < 2 ^ (bits - 1)) by (apply Z.pow_pos_nonneg; lia).
  assert (Hp : 2 ^ bits = 2 * 2 ^ (bits - 1)).
  { replace bits with (Z.succ (bits - 1)) at 1 by lia.
    apply Z.pow_succ_r. lia. }
  set (C := 2 ^ (bits - 1)) in *.
  destruct (strconv_ParseUint ds bits) as [un | e] eqn:E.
  - apply ParseUint_decimal in E; [| lia].
    destruct E as [Hne [Hd [Hle ->]]].
    pose proof (decimal_value_nonneg ds Hd) as H0.
    assert (En : (ds =? "")%string = false)
      by (apply String.eqb_neq; exact Hne).
    rewrite En, Hd. cbn [negb andb].
    set (dv := decimal_value ds) in *.
    destruct neg; cbn [negb andb].
    + destruct (Z.gtb_spec dv C) as [G | G];
        destruct (Z.leb_spec (- C) (- dv)) as [A | A];
        destruct (Z.ltb_spec (- dv) C) as [B | B]; cbn [andb];
        try lia; split; intros H; try discriminate H;
        injection H as <-; reflexivity.
    + destruct (Z.geb_spec dv C) as [G | G];
        destruct (Z.leb_spec (- C) dv) as [A | A];
        destruct (Z.ltb_spec dv C) as [B | B]; cbn [andb];
        try lia; split; intros H; try discriminate H;
        injection H as <-; reflexivity.
  - split; [discriminate |].
    destruct (negb (ds =? "")%string && all_digits ds) eqn:Hok;
      [| discriminate].
    apply andb_prop in Hok. destruct Hok as [Hne Hd].
    apply negb_true_iff in Hne. apply String.eqb_neq in Hne.
    pose proof (decimal_value_nonneg ds Hd) as H0.
    set (dv := decimal_value ds) in *.
    assert (Hgt : 2 ^ bits - 1 < dv).
    { destruct (Z_le_gt_dec dv (2 ^ bits - 1)) as [Hle | Hgt]; [| lia].
      assert (F : strconv_ParseUint ds bits = Ok dv).
      { apply ParseUint_decimal; [lia |]. repeat split; assumption. }
      rewrite F in E. discriminate E. }
    destruct neg.
    + destruct (Z.leb_spec (- C) (- dv)) as [A | A]; [lia |].
      cbn [andb]. discriminate.
    + destruct (Z.ltb_spec dv C) as [B | B]; [lia |].
      rewrite andb_false_r. discriminate.
Qed.

(** [ParseInt] accepts the signed decimal literals that fit, and returns
    their value. *)
Lemma ParseInt_signedDecimal (s : string) (bits v : Z) :
  1 <= bits ->
  strconv_ParseInt s bits = Ok v <-> signedDecimal bits s = Some v.
Proof.
  intros Hb. unfold strconv_ParseInt, signedDecimal, splitSign.
  destruct s as [| c rest].
  - cbn. split; discriminate.
  - destruct (Ascii.eqb c "-") eqn:Em.
    + rewrite orb_true_r. exact (ParseInt_tail true rest bits v Hb).
    + rewrite orb_false_r. destruct (Ascii.eqb c "+") eqn:Ep.
      * exact (ParseInt_tail false rest bits v Hb).
      * exact (ParseInt_tail false (String c rest) bits v Hb).
Qed.

Lemma ParseInt_rejects (s : string) (bits : Z) (e : error) :
  1 <= bits ->
  strconv_ParseInt s bits = Err e -> signedDecimal bits s = None.
Proof.
  intros Hb H. destruct (signedDecimal bits s) as [v |] eqn:E; [| reflexivity].
  apply ParseInt_signedDecimal in E; [| exact Hb].
  rewrite E in H. discriminate H.
Qed.

Lemma signedDecimal_bound (s : string) (v : Z) :
  signedDecimal 32 s = Some v -> - 2 ^ 31 <= v < 2 ^ 31.
Proof.
  unfold signedDecimal. destruct (splitSign s) as [neg ds].
  destruct (negb (ds =? "")%string && all_digits ds); [| discriminate].
  change (2 ^ (32 - 1)) with (2 ^ 31).
  set (w := if neg then - decimal_value ds else decimal_value ds).
  destruct (Z.leb_spec (- 2 ^ 31) w) as [A | A]; [| discriminate].
  destruct (Z.ltb_spec w (2 ^ 31)) as [B | B]; [| discriminate].
  cbn [andb]. intros H. injection H as <-. lia.
Qed.

(** The empty item, which a doubled, leading or trailing space leaves, is
    no coordinate pair. *)
Lemma empty_item_is_no_point (q : Point.t) : ~ pointOfItem EmptyString q.
Proof.
  intros [x [y [H _]]]. discriminate H.
Qed.

(** The loop of [Poly.Points], whatever its end: it has appended the
    points of the items before the one that ends it. *)
Lemma Points_loop_spec (items : list string) (pts : list Point.t) :
  match Points_loop items pts with
  | (out, None) =>
      exists new, out = pts ++ new /\ Forall2 pointOfItem items new
  | (out, Some e) =>
      exists pre bad post new,
        items = pre ++ bad :: post
        /\ out = pts ++ new
        /\ Forall2 pointOfItem pre new
        /\ (forall q, ~ pointOfItem bad q)
        /\ (List.length (strings_Split bad ",") <> 2%nat
            /\ e = unexpectedCoordinates
            \/ List.length (strings_Split bad ",") = 2%nat
               /\ (e = strconv_ErrSyntax \/ e = strconv_ErrRange))
  end.
Proof.
  revert pts. induction items as [| item rest IH]; intros pts.
  - simpl. exists []. rewrite app_nil_r. split; [reflexivity | constructor].
  - assert (Stop : forall e,
              (forall q, ~ pointOfItem item q) ->
              (List.length (strings_Split item ",") <> 2%nat
               /\ e = unexpectedCoordinates
               \/ List.length (strings_Split item ",") = 2%nat
                  /\ (e = strconv_ErrSyntax \/ e = strconv_ErrRange)) ->
              exists pre bad post new,
                item :: rest = pre ++ bad :: post
                /\ pts = pts ++ new
                /\ Forall2 pointOfItem pre new
                /\ (forall q, ~ pointOfItem bad q)
                /\ (List.length (strings_Split bad ",") <> 2%nat
                    /\ e = unexpectedCoordinates
                    \/ List.length (strings_Split bad ",") = 2%nat
                       /\ (e = strconv_ErrSyntax \/ e = strconv_ErrRange))).
    { intros e Hbad He. exists [], item, rest, []. rewrite app_nil_r.
      repeat split; [constructor | exact Hbad | exact He]. }
    simpl Points_loop.
    destruct (strings_Split item ",") as [| x [| y [| z more]]] eqn:Es;
      try (apply Stop;
           [intros q [x' [y' [H _]]]; rewrite Es in H; discriminate H
           | left; split; [simpl; lia | reflexivity]]).
    destruct (strconv_ParseInt x 32) as [vx | ex] eqn:Ex.
    2: { apply Stop.
         - intros q [x' [y' [H [Hx _]]]]. rewrite Es in H.
           injection H as <- <-.
           rewrite (ParseInt_rejects x 32 ex ltac:(lia) Ex) in Hx.
           discriminate Hx.
         - right. split; [reflexivity | exact (ParseInt_error _ _ _ Ex)]. }
    destruct (strconv_ParseInt y 32) as [vy | ey] eqn:Ey.
    2: { apply Stop.
         - intros q [x' [y' [H [_ Hy]]]]. rewrite Es in H.
           injection H as <- <-.
           rewrite (ParseInt_rejects y 32 ey ltac:(lia) Ey) in Hy.
           discriminate Hy.
         - right. split; [reflexivity | exact (ParseInt_error _ _ _ Ey)]. }
    apply ParseInt_signedDecimal in Ex; [| lia].
    apply ParseInt_signedDecimal in Ey; [| lia].
    assert (Hitem : pointOfItem item (Point.mk (int vx) (int vy))).
    { exists x, y. simpl.
      rewrite (int_small vx)
        by (pose proof (signedDecimal_bound x vx Ex); lia).
      rewrite (int_small vy)
        by (pose proof (signedDecimal_bound y vy Ey); lia).
      auto. }
    specialize (IH (pts ++ [Point.mk (int vx) (int vy)])).
    destruct (Points_loop rest (pts ++ [Point.mk (int vx) (int vy)]))
      as [out [e |]].
    + destruct IH as [pre [bad [post [new [-> [-> [Hpre [Hbad He]]]]]]]].
      exists (item :: pre), bad, post, (Point.mk (int vx) (int vy) :: new).
      rewrite <- app_assoc.
      repeat split; [constructor; assumption | exact Hbad | exact He].
    + destruct IH as [new [-> Hall]].
      exists (Point.mk (int vx) (int vy) :: new).
      rewrite <- app_assoc. split; [reflexivity | constructor; assumption].
Qed.

Lemma pointOfItem_bound (item : string) (q : Point.t) :
  pointOfItem item q ->
  - 2 ^ 31 <= Point.X q < 2 ^ 31 /\ - 2 ^ 31 <= Point.Y q < 2 ^ 31.
Proof.
  intros [x [y [_ [Hx Hy]]]].
  split; eapply signedDecimal_bound; eassumption.
Qed.

Lemma Forall2_length_eq {A B : Type} (R : A -> B -> Prop) (l : list A)
    (l' : list B) :
  Forall2 R l l' -> List.length l' = List.length l.
Proof.
  induction 1; simpl; congruence.
Qed.

Lemma Forall2_Forall_right {A B : Type} (R : A -> B -> Prop) (P : B -> Prop)
    (l : list A) (l' : list B) :
  (forall a b, R a b -> P b) -> Forall2 R l l' -> Forall P l'.
Proof.
  intros H. induction 1; constructor; eauto.
Qed.

(** X20: when Poly.Points returns without error, it returns one point per
    item of the attribute, in order, each item being two signed decimal
    literals of 32 bits around one comma; so the points number one more
    than the spaces of the attribute, and every coordinate lies within 32
    bits although the fields are of type int. *)
Theorem Poly_Points_in_order (p : Poly.t) (pts : list Point.t) :
  Poly_Points p = (pts, None) ->
  Forall2 pointOfItem (strings_Split (Poly.RawPoints p) " ") pts
  /\ List.length pts = S (countByte " " (Poly.RawPoints p))
  /\ Forall (fun q => - 2 ^ 31 <= Point.X q < 2 ^ 31
                      /\ - 2 ^ 31 <= Point.Y q < 2 ^ 31) pts.
Proof.
  unfold Poly_Points. intros H.
  pose proof (Points_loop_spec (strings_Split (Poly.RawPoints p) " ") [])
    as S.
  rewrite H in S. destruct S as [new [-> Hall]]. simpl.
  split; [exact Hall |]. split.
  - rewrite (Forall2_length_eq _ _ _ Hall). apply strings_Split_length.
  - exact (Forall2_Forall_right _ _ _ _ pointOfItem_bound Hall).
Qed.

Lemma Poly_Points_in_order_witness :
  Poly_Points Fixture.triangle
  = ([Point.mk 0 0; Point.mk 16 (-8); Point.mk 32 0], None)
  /\ List.length [Point.mk 0 0; Point.mk 16 (-8); Point.mk 32 0] = 3%nat.
Proof.
  split; [vm_compute; reflexivity |].
  refine (proj1 (proj2 (Poly_Points_in_order Fixture.triangle _ _))).
  vm_compute. reflexivity.
Defined.

(** X21: when Poly.Points fails, it returns with the error the points of
    the items before the first one that is no coordinate pair, and
    nothing of the items after it.  The error is the package's own
    exactly when that item does not hold one comma; otherwise it is
    strconv's for the field that is no literal. *)
Theorem Poly_Points_failure (p : Poly.t) (pts : list Point.t) (e : error) :
  Poly_Points p = (pts, Some e) ->
  exists pre bad post,
    strings_Split (Poly.RawPoints p) " " = pre ++ bad :: post
    /\ Forall2 pointOfItem pre pts
    /\ (forall q, ~ pointOfItem bad q)
    /\ (countByte "," bad <> 1%nat <-> e = unexpectedCoordinates)
    /\ (countByte "," bad = 1%nat ->
        e = strconv_ErrSyntax \/ e = strconv_ErrRange).
Proof.
  unfold Poly_Points. intros H.
  pose proof (Points_loop_spec (strings_Split (Poly.RawPoints p) " ") [])
    as S.
  rewrite H in S.
  destruct S as [pre [bad [post [new [E [-> [Hpre [Hbad He]]]]]]]].
  exists pre, bad, post. simpl.
  rewrite strings_Split_length in He.
  repeat split; try assumption.
  - intros Hn. destruct He as [[_ He] | [Hl _]]; [exact He | lia].
  - intros ->. destruct He as [[Hl _] | [_ [He | He]]];
      [lia | discriminate He | discriminate He].
  - intros Hc. destruct He as [[Hl _] | [_ He]]; [lia | exact He].
Qed.

Lemma Poly_Points_failure_witness :
  Poly_Points Fixture.broken = ([Point.mk 0 0], Some unexpectedCoordinates)
  /\ exists pre bad post,
       strings_Split (Poly.RawPoints Fixture.broken) " " = pre ++ bad :: post
       /\ Forall2 pointOfItem pre [Point.mk 0 0]
       /\ (forall q, ~ pointOfItem bad q).
Proof.
  split; [vm_compute; reflexivity |].
  destruct (Poly_Points_failure Fixture.broken [Point.mk 0 0]
              unexpectedCoordinates)
    as [pre [bad [post [E [Hpre [Hbad _]]]]]]; [vm_compute; reflexivity |].
  exists pre, bad, post. repeat split; assumption.
Defined.

(** X22: Poly.Points returns without error exactly when every item
    between the spaces of the attribute is a coordinate pair.  An empty
    item is none: a doubled, leading or trailing space makes the call
    fail, and so does the empty attribute, for which it returns no point
    and the package's own error. *)
Theorem Poly_Points_succeeds_iff (p : Poly.t) :
  ((exists pts, Poly_Points p = (pts, None))
   <-> Forall (fun item => exists q, pointOfItem item q)
              (strings_Split (Poly.RawPoints p) " "))
  /\ (In EmptyString (strings_Split (Poly.RawPoints p) " ") ->
      exists pts e, Poly_Points p = (pts, Some e))
  /\ (Poly.RawPoints p = EmptyString ->
      Poly_Points p = ([], Some unexpectedCoordinates)).
Proof.
  assert (Iff : (exists pts, Poly_Points p = (pts, None))
                <-> Forall (fun item => exists q, pointOfItem item q)
                           (strings_Split (Poly.RawPoints p) " ")).
  { unfold Poly_Points.
    pose proof (Points_loop_spec (strings_Split (Poly.RawPoints p) " ") [])
      as S.
    destruct (Points_loop (strings_Split (Poly.RawPoints p) " ") [])
      as [out [e |]].
    - destruct S as [pre [bad [post [new [E [_ [_ [Hbad _]]]]]]]].
      split.
      + intros [pts H]. discriminate H.
      + intros H. rewrite E in H. apply Forall_app in H.
        destruct H as [_ H]. apply Forall_inv in H.
        destruct H as [q Hq]. contradiction (Hbad q Hq).
    - destruct S as [new [_ Hall]]. split.
      + intros _. clear - Hall.
        induction Hall; constructor; [eexists; eassumption | assumption].
      + intros _. eexists. reflexivity. }
  split; [exact Iff |]. split.
  - intros Hin.
    destruct (Poly_Points p) as [pts [e |]] eqn:E; [eauto |].
    assert (H : exists pts0 : list Point.t, (pts, @None error) = (pts0, None))
      by (eexists; reflexivity).
    rewrite Iff in H. rewrite Forall_forall in H.
    destruct (H _ Hin) as [q Hq].
    contradiction (empty_item_is_no_point q Hq).
  - intros E. unfold Poly_Points. rewrite E. reflexivity.
Qed.

Lemma parseTerrainField_ok (L : Lib) (s : string) (tid : TileID) :
  parseTerrainField L s = Ok tid ->
  exists v,
    signedDecimal 32 (strings_TrimSpace L s) = Some v /\ tid = asTileID v.
Proof.
  unfold parseTerrainField.
  destruct (strconv_ParseInt (strings_TrimSpace L s) 32) as [v | e] eqn:E;
    [| discriminate].
  intros H. injection H as <-.
  apply ParseInt_signedDecimal in E; [| lia].
  exists v. split; [exact E |].
  pose proof (signedDecimal_bound _ _ E) as Hv.
  unfold asTileID, uint32.
  destruct (Z.ltb_spec v 0).
  - rewrite <- (Z.mod_add v 1 (2 ^ 32)) by lia.
    rewrite Z.mod_small; lia.
  - rewrite Z.mod_small; lia.
Qed.

Lemma parseTerrainField_err (L : Lib) (s : string) (e : error) :
  parseTerrainField L s = Err e ->
  signedDecimal 32 (strings_TrimSpace L s) = None
  /\ (e = strconv_ErrSyntax \/ e = strconv_ErrRange).
Proof.
  unfold parseTerrainField.
  destruct (strconv_ParseInt (strings_TrimSpace L s) 32) as [v | e'] eqn:E;
    [discriminate |].
  intros H. injection H as <-.
  split; [exact (ParseInt_rejects _ 32 _ ltac:(lia) E)
         | exact (ParseInt_error _ _ _ E)].
Qed.

(** X23: a tile that Tile.UnmarshalXML decodes without error always has
    a terrain record, also when the element has no terrain attribute: the
    record is then all zero.  Otherwise the attribute holds exactly three
    commas, its four fields are, white space trimmed, signed decimal
    literals of 32 bits, and they become the corners in the order top
    left, top right, bottom left, bottom right, a negative value wrapping
    to 2^32 less its magnitude.  Every other field is as decoded. *)
Theorem Tile_UnmarshalXML_terrain (L : Lib) (tmp t t' : Tile.t) :
  Tile_UnmarshalXML L (Ok tmp) t = Return t' None ->
  Tile_HasTerrainType t' = true
  /\ exists terrain,
       t' = Tile_set_TerrainType (Some terrain) tmp
       /\ (Tile.RawTerrainType tmp = EmptyString ->
           terrain = TerrainType.mk 0 0 0 0)
       /\ (Tile.RawTerrainType tmp <> EmptyString ->
           countByte "," (Tile.RawTerrainType tmp) = 3%nat
           /\ exists s0 s1 s2 s3 v0 v1 v2 v3,
                strings_Split (Tile.RawTerrainType tmp) "," = [s0; s1; s2; s3]
                /\ signedDecimal 32 (strings_TrimSpace L s0) = Some v0
                /\ signedDecimal 32 (strings_TrimSpace L s1) = Some v1
                /\ signedDecimal 32 (strings_TrimSpace L s2) = Some v2
                /\ signedDecimal 32 (strings_TrimSpace L s3) = Some v3
                /\ terrain = TerrainType.mk (asTileID v0) (asTileID v1)
                                            (asTileID v2) (asTileID v3)).
Proof.
  unfold Tile_UnmarshalXML.
  destruct (Tile.RawTerrainType tmp =? "")%string eqn:Eraw.
  - apply String.eqb_eq in Eraw. intros H. injection H as <-.
    split; [reflexivity |]. eexists. split; [reflexivity |].
    split; [reflexivity | intros Hne; contradiction (Hne Eraw)].
  - apply String.eqb_neq in Eraw.
    pose proof (strings_Split_length (Tile.RawTerrainType tmp) ",") as Hlen.
    destruct (strings_Split (Tile.RawTerrainType tmp) ",")
      as [| s0 [| s1 [| s2 [| s3 [| s4 more]]]]] eqn:Es; try discriminate.
    destruct (parseTerrainField L s0) as [t0 | e0] eqn:E0; [| discriminate].
    destruct (parseTerrainField L s1) as [t1 | e1] eqn:E1; [| discriminate].
    destruct (parseTerrainField L s2) as [t2 | e2] eqn:E2; [| discriminate].
    destruct (parseTerrainField L s3) as [t3 | e3] eqn:E3; [| discriminate].
    intros H. injection H as <-.
    apply parseTerrainField_ok in E0, E1, E2, E3.
    destruct E0 as [v0 [H0 ->]]. destruct E1 as [v1 [H1 ->]].
    destruct E2 as [v2 [H2 ->]]. destruct E3 as [v3 [H3 ->]].
    split; [reflexivity |]. eexists. split; [reflexivity |].
    split; [intros E; contradiction (Eraw E) |].
    intros _. split; [simpl in Hlen; lia |].
    exists s0, s1, s2, s3, v0, v1, v2, v3. repeat split; assumption.
Qed.

Lemma Tile_UnmarshalXML_terrain_witness :
  Tile_UnmarshalXML Fixture.world (Ok (Fixture.terrain_tile 7 "0, 1,-1,+2"))
                    (Fixture.tile 0 None)
  = Return (Tile_set_TerrainType
              (Some (TerrainType.mk 0 1 4294967295 2))
              (Fixture.terrain_tile 7 "0, 1,-1,+2")) None
  /\ Tile_HasTerrainType
       (Tile_set_TerrainType (Some (TerrainType.mk 0 1 4294967295 2))
                             (Fixture.terrain_tile 7 "0, 1,-1,+2")) = true.
Proof.
  split; [vm_compute; reflexivity |].
  refine (proj1 (Tile_UnmarshalXML_terrain Fixture.world
                   (Fixture.terrain_tile 7 "0, 1,-1,+2")
                   (Fixture.tile 0 None) _ _)).
  vm_compute. reflexivity.
Defined.

(** X24: when Tile.UnmarshalXML fails on the terrain attribute, the
    receiver has already been overwritten with the decoded element and
    its terrain record is left as decoded.  The error is the package's
    own exactly when the attribute does not hold three commas; with three
    commas it is strconv's for the first field that, white space trimmed,
    is no signed decimal literal of 32 bits. *)
Theorem Tile_UnmarshalXML_terrain_failure (L : Lib) (tmp t t' : Tile.t)
    (e : error) :
  Tile_UnmarshalXML L (Ok tmp) t = Return t' (Some e) ->
  t' = tmp
  /\ Tile.RawTerrainType tmp <> EmptyString
  /\ (countByte "," (Tile.RawTerrainType tmp) <> 3%nat
      <-> e = unexpectedTerrain)
  /\ (countByte "," (Tile.RawTerrainType tmp) = 3%nat ->
      exists pre bad post,
        strings_Split (Tile.RawTerrainType tmp) "," = pre ++ bad :: post
        /\ Forall (fun s => exists v,
                     signedDecimal 32 (strings_TrimSpace L s) = Some v) pre
        /\ signedDecimal 32 (strings_TrimSpace L bad) = None
        /\ parseTerrainField L bad = Err e
        /\ (e = strconv_ErrSyntax \/ e = strconv_ErrRange)).
Proof.
  unfold Tile_UnmarshalXML.
  destruct (Tile.RawTerrainType tmp =? "")%string eqn:Eraw; [discriminate |].
  apply String.eqb_neq in Eraw.
  pose proof (strings_Split_length (Tile.RawTerrainType tmp) ",") as Hlen.
  assert (Shape : forall l,
            strings_Split (Tile.RawTerrainType tmp) "," = l ->
            List.length l <> 4%nat ->
            Return tmp (Some unexpectedTerrain) = Return t' (Some e) ->
            t' = tmp
            /\ Tile.RawTerrainType tmp <> EmptyString
            /\ (countByte "," (Tile.RawTerrainType tmp) <> 3%nat
                <-> e = unexpectedTerrain)
            /\ (countByte "," (Tile.RawTerrainType tmp) = 3%nat ->
                exists pre bad post,
                  l = pre ++ bad :: post
                  /\ Forall (fun s => exists v,
                               signedDecimal 32 (strings_TrimSpace L s)
                               = Some v) pre
                  /\ signedDecimal 32 (strings_TrimSpace L bad) = None
                  /\ parseTerrainField L bad = Err e
                  /\ (e = strconv_ErrSyntax \/ e = strconv_ErrRange))).
  { intros l El Hl H. injection H as <- <-. rewrite El in Hlen.
    repeat split; try assumption; try reflexivity; lia. }
  destruct (strings_Split (Tile.RawTerrainType tmp) ",")
    as [| s0 [| s1 [| s2 [| s3 [| s4 more]]]]] eqn:Es;
    try (apply (Shape _ eq_refl); simpl; lia).
  clear Shape. simpl in Hlen.
  assert (Field : forall pre bad post,
            [s0; s1; s2; s3] = pre ++ bad :: post ->
            Forall (fun s => exists tid, parseTerrainField L s = Ok tid) pre ->
            parseTerrainField L bad = Err e ->
            tmp = tmp
            /\ Tile.RawTerrainType tmp <> EmptyString
            /\ (countByte "," (Tile.RawTerrainType tmp) <> 3%nat
                <-> e = unexpectedTerrain)
            /\ (countByte "," (Tile.RawTerrainType tmp) = 3%nat ->
                exists pre bad post,
                  [s0; s1; s2; s3] = pre ++ bad :: post
                  /\ Forall (fun s => exists v,
                               signedDecimal 32 (strings_TrimSpace L s)
                               = Some v) pre
                  /\ signedDecimal 32 (strings_TrimSpace L bad) = None
                  /\ parseTerrainField L bad = Err e
                  /\ (e = strconv_ErrSyntax \/ e = strconv_ErrRange))).
  { intros pre bad post E Hpre Hbad.
    destruct (parseTerrainField_err _ _ _ Hbad) as [Hnone Hkind].
    split; [reflexivity |]. split; [exact Eraw |]. split.
    - split; [intros C; lia |].
      intros ->. destruct Hkind as [C | C]; discriminate C.
    - intros _. exists pre, bad, post.
      repeat split; try assumption.
      clear - Hpre. induction Hpre as [| s l [tid Hs] _ IH]; constructor;
        [| exact IH].
      destruct (parseTerrainField_ok _ _ _ Hs) as [v [Hv _]]. eauto. }
  destruct (parseTerrainField L s0) as [t0 | e0] eqn:E0.
  2: { intros H. injection H as <- <-.
       apply (Field [] s0 [s1; s2; s3] eq_refl); [constructor | exact E0]. }
  destruct (parseTerrainField L s1) as [t1 | e1] eqn:E1.
  2: { intros H. injection H as <- <-.
       apply (Field [s0] s1 [s2; s3] eq_refl); [| exact E1].
       repeat constructor; eauto. }
  destruct (parseTerrainField L s2) as [t2 | e2] eqn:E2.
  2: { intros H. injection H as <- <-.
       apply (Field [s0; s1] s2 [s3] eq_refl); [| exact E2].
       repeat constructor; eauto. }
  destruct (parseTerrainField L s3) as [t3 | e3] eqn:E3; [discriminate |].
  intros H. injection H as <- <-.
  apply (Field [s0; s1; s2] s3 [] eq_refl); [| exact E3].
  repeat constructor; eauto.
Qed.

Lemma Tile_UnmarshalXML_terrain_failure_witness :
  Tile_UnmarshalXML Fixture.world (Ok (Fixture.terrain_tile 7 "0,1,,2"))
                    (Fixture.tile 0 None)
  = Return (Fixture.terrain_tile 7 "0,1,,2") (Some strconv_ErrSyntax)
  /\ Tile.RawTerrainType (Fixture.terrain_tile 7 "0,1,,2") <> EmptyString.
Proof.
  split; [vm_compute; reflexivity |].
  refine (proj1 (proj2 (Tile_UnmarshalXML_terrain_failure Fixture.world
                          (Fixture.terrain_tile 7 "0,1,,2")
                          (Fixture.tile 0 None) _ _ _))).
  vm_compute. reflexivity.
Defined.

(** ** External tilesets that fail *)


